(** * Shared session state machine of the multi-operator training simulator

    A shallow embedding of the store-facing logic of
    [src/components/SessionLobby.tsx] (session creation and join),
    [src/components/Simulator.tsx] (polling, initialization, diagnostics,
    dual-key authentication) and [src/types/session.ts] (the record shapes).

    The persistent store is a record of four tables.  Every handler of the
    React components becomes a function that threads the store explicitly;
    the component's own [useState] cells that the handlers read (the last
    polled session, role and key-authorization row, the two key inputs) form
    the [Client] record.  Timer callbacks ([setTimeout]) are separate
    functions, so that other operations can be placed between a handler and
    its callback; within one handler or callback the store calls follow each
    other without interleaving.

    Conventions.  Reads always deliver the rows that match; the store's
    verdict on the inserts whose error the code inspects is a parameter of
    the handler ([sessionError], [participantError]).  The clock and the
    random draw are parameters as well ([now], [r]).  Columns keep their
    names, except that [id], [session_id], [user_id] and [status], which
    occur in several tables, carry the table's initial ([s_id], [p_id],
    [e_id], [k_id], [p_session_id], [s_status], [k_status], ...). *)

From Stdlib Require Import Ascii String QArith.
From stdpp Require Import base list strings gmap.

Local Open Scope string_scope.
Local Open Scope nat_scope.

(** ** JavaScript helpers *)

(** Strings are sequences of 8-bit code units, which is exact for the
    ASCII text of session codes and keys ([length] counts units).  On
    ASCII text [String.prototype.toUpperCase] maps the letters [a]..[z] to
    [A]..[Z] and keeps every other unit, as [toUpperCase] below does.
    Outside ASCII the JavaScript function also maps other letters and can
    lengthen the text; [toUpperCase] does not follow it there, and what is
    stated about the length or the shape of upper-cased text is stated for
    ASCII text. *)
Definition upper_ascii (c : ascii) : ascii :=
  let n := nat_of_ascii c in
  if (97 <=? n) && (n <=? 122) then ascii_of_nat (n - 32) else c.

Fixpoint toUpperCase (s : string) : string :=
  match s with
  | EmptyString => EmptyString
  | String c s' => String (upper_ascii c) (toUpperCase s')
  end.

(** JSON values placed in [event_data]. *)
Inductive Json :=
  | JNull
  | JBool (b : bool)
  | JNum (n : Z)
  | JStr (s : string).

(** ** Record shapes ([types/session.ts]) *)

(** Identifiers are opaque and only compared for equality; the store hands
    out fresh ones.  Timestamps are instants (milliseconds since the epoch,
    what [new Date()] holds); their ISO rendering is never the empty string,
    so a timestamp column is truthy in JavaScript exactly when it is not
    [null]. *)
Definition Id := nat.
Definition Timestamp := Z.

Inductive SessionRole := operator_a | operator_b | observer | instructor.
Inductive SessionStatus := waiting | active | paused | completed.
Inductive KeyAuthStatus := pending | partial | complete.

Global Instance SessionRole_eq_dec : EqDecision SessionRole.
Proof. solve_decision. Defined.
Global Instance SessionStatus_eq_dec : EqDecision SessionStatus.
Proof. solve_decision. Defined.
Global Instance KeyAuthStatus_eq_dec : EqDecision KeyAuthStatus.
Proof. solve_decision. Defined.

Definition role_name (r : SessionRole) : string :=
  match r with
  | operator_a => "operator_a"
  | operator_b => "operator_b"
  | observer => "observer"
  | instructor => "instructor"
  end.

Record Subsystem := { sub_status : string; sub_value : string }.

Record SystemState := {
  initialized : bool;
  diagnosticsPassed : bool;
  authenticated : bool;
  armed : bool;
  countdownActive : bool;
  countdownAbortable : bool;
  countdownSeconds : Z;
  systemLocked : bool;
  lockType : option string;
  systemHold : bool;
  faultInjected : bool;
  adminForcedOutcome : option string;
  activeScenario : option string;
  subsystems : gmap string Subsystem;
  delayMultiplier : Q;
  latencyEnabled : bool;
}.

(** [Partial<SystemState>]: a field that is absent from the object literal
    is [None]. *)
Record SystemStateUpdate := {
  u_initialized : option bool;
  u_diagnosticsPassed : option bool;
  u_authenticated : option bool;
  u_armed : option bool;
  u_countdownActive : option bool;
  u_countdownAbortable : option bool;
  u_countdownSeconds : option Z;
  u_systemLocked : option bool;
  u_lockType : option (option string);
  u_systemHold : option bool;
  u_faultInjected : option bool;
  u_adminForcedOutcome : option (option string);
  u_activeScenario : option (option string);
  u_subsystems : option (gmap string Subsystem);
  u_delayMultiplier : option Q;
  u_latencyEnabled : option bool;
}.

(** The three update literals of [Simulator.tsx]. *)
Definition upd_initialized (b : bool) : SystemStateUpdate :=
  {| u_initialized := Some b; u_diagnosticsPassed := None;
     u_authenticated := None; u_armed := None; u_countdownActive := None;
     u_countdownAbortable := None; u_countdownSeconds := None;
     u_systemLocked := None; u_lockType := None; u_systemHold := None;
     u_faultInjected := None; u_adminForcedOutcome := None;
     u_activeScenario := None; u_subsystems := None;
     u_delayMultiplier := None; u_latencyEnabled := None |}.

Definition upd_diagnosticsPassed (b : bool) : SystemStateUpdate :=
  {| u_initialized := None; u_diagnosticsPassed := Some b;
     u_authenticated := None; u_armed := None; u_countdownActive := None;
     u_countdownAbortable := None; u_countdownSeconds := None;
     u_systemLocked := None; u_lockType := None; u_systemHold := None;
     u_faultInjected := None; u_adminForcedOutcome := None;
     u_activeScenario := None; u_subsystems := None;
     u_delayMultiplier := None; u_latencyEnabled := None |}.

Definition upd_authenticated (b : bool) : SystemStateUpdate :=
  {| u_initialized := None; u_diagnosticsPassed := None;
     u_authenticated := Some b; u_armed := None; u_countdownActive := None;
     u_countdownAbortable := None; u_countdownSeconds := None;
     u_systemLocked := None; u_lockType := None; u_systemHold := None;
     u_faultInjected := None; u_adminForcedOutcome := None;
     u_activeScenario := None; u_subsystems := None;
     u_delayMultiplier := None; u_latencyEnabled := None |}.

(** Object spread [{ ...s, ...u }]: a field present in [u] wins. *)
Definition spread (s : SystemState) (u : SystemStateUpdate) : SystemState :=
  {| initialized := default (initialized s) (u_initialized u);
     diagnosticsPassed := default (diagnosticsPassed s) (u_diagnosticsPassed u);
     authenticated := default (authenticated s) (u_authenticated u);
     armed := default (armed s) (u_armed u);
     countdownActive := default (countdownActive s) (u_countdownActive u);
     countdownAbortable := default (countdownAbortable s) (u_countdownAbortable u);
     countdownSeconds := default (countdownSeconds s) (u_countdownSeconds u);
     systemLocked := default (systemLocked s) (u_systemLocked u);
     lockType := default (lockType s) (u_lockType u);
     systemHold := default (systemHold s) (u_systemHold u);
     faultInjected := default (faultInjected s) (u_faultInjected u);
     adminForcedOutcome := default (adminForcedOutcome s) (u_adminForcedOutcome u);
     activeScenario := default (activeScenario s) (u_activeScenario u);
     subsystems := default (subsystems s) (u_subsystems u);
     delayMultiplier := default (delayMultiplier s) (u_delayMultiplier u);
     latencyEnabled := default (latencyEnabled s) (u_latencyEnabled u) |}.

(** The [system_state] literal that [createSession] inserts. *)
Definition initial_system_state : SystemState :=
  {| initialized := false; diagnosticsPassed := false;
     authenticated := false; armed := false; countdownActive := false;
     countdownAbortable := true; countdownSeconds := 60;
     systemLocked := false; lockType := None; systemHold := false;
     faultInjected := false; adminForcedOutcome := None;
     activeScenario := None; subsystems := ∅;
     delayMultiplier := 1%Q; latencyEnabled := true |}.

(** Rows.  Each table is kept in creation order, which stands for the
    [created_at] / [joined_at] columns the queries sort by. *)
Record TrainingSession := {
  s_id : Id;
  session_code : string;
  created_by : Id;
  s_status : SessionStatus;
  run_id : string;
  current_step : nat;
  system_state : SystemState;
}.

Record SessionParticipant := {
  p_id : Id;
  p_session_id : Id;
  p_user_id : Id;
  role : SessionRole;
  last_seen : Timestamp;
}.

Record SessionEvent := {
  e_id : Id;
  e_session_id : Id;
  e_user_id : option Id;
  event_type : string;
  event_data : list (string * Json);
}.

Record KeyAuthorization := {
  k_id : Id;
  k_session_id : Id;
  operator_a_key : option string;
  operator_b_key : option string;
  command_key : option string;
  operator_a_auth_at : option Timestamp;
  operator_b_auth_at : option Timestamp;
  command_auth_at : option Timestamp;
  k_status : KeyAuthStatus;
}.

(** ** The store *)

Record Store := {
  training_sessions : list TrainingSession;
  session_participants : list SessionParticipant;
  session_events : list SessionEvent;
  key_authorizations : list KeyAuthorization;
  next_id : Id;
}.

Definition empty_store : Store :=
  {| training_sessions := []; session_participants := [];
     session_events := []; key_authorizations := []; next_id := 0 |}.

(** [.single()]: the query must yield exactly one row, otherwise the
    response carries an error and no data. *)
Definition single {A} (rows : list A) : option A :=
  match rows with
  | [r] => Some r
  | _ => None
  end.

(** [.update(f).eq(...)]: every matching row is rewritten in place. *)
Definition update_where {A} (P : A → bool) (f : A → A) (rows : list A) : list A :=
  (λ r, if P r then f r else r) <$> rows.

(** [.insert(row)]: the row is appended with a fresh identifier.  The
    columns an insert does not name take the store's defaults. *)
Definition insert_session (st : Store) (code : string) (creator : Id)
    (status : SessionStatus) (runId : string) (step : nat)
    (state : SystemState) : Store * TrainingSession :=
  let row := {| s_id := next_id st; session_code := code;
                created_by := creator; s_status := status; run_id := runId;
                current_step := step; system_state := state |} in
  ({| training_sessions := training_sessions st ++ [row];
      session_participants := session_participants st;
      session_events := session_events st;
      key_authorizations := key_authorizations st;
      next_id := S (next_id st) |}, row).

Definition insert_participant (st : Store) (sid uid : Id) (r : SessionRole)
    (now : Timestamp) : Store :=
  let row := {| p_id := next_id st; p_session_id := sid; p_user_id := uid;
                role := r; last_seen := now |} in
  {| training_sessions := training_sessions st;
     session_participants := session_participants st ++ [row];
     session_events := session_events st;
     key_authorizations := key_authorizations st;
     next_id := S (next_id st) |}.

Definition insert_event (st : Store) (sid : Id) (uid : option Id)
    (ty : string) (data : list (string * Json)) : Store :=
  let row := {| e_id := next_id st; e_session_id := sid; e_user_id := uid;
                event_type := ty; event_data := data |} in
  {| training_sessions := training_sessions st;
     session_participants := session_participants st;
     session_events := session_events st ++ [row];
     key_authorizations := key_authorizations st;
     next_id := S (next_id st) |}.

(** Modelled from the spec: the store's default for the [status] column of a
    freshly inserted [key_authorizations] row.  The table definition is not
    among the sources; the spec's status sequence starts at [pending]. *)
Definition default_key_status : KeyAuthStatus := pending.

Definition insert_key_authorization (st : Store) (sid : Id)
    (a_key b_key : option string) (a_at b_at : option Timestamp) : Store :=
  let row := {| k_id := next_id st; k_session_id := sid;
                operator_a_key := a_key; operator_b_key := b_key;
                command_key := None;
                operator_a_auth_at := a_at; operator_b_auth_at := b_at;
                command_auth_at := None; k_status := default_key_status |} in
  {| training_sessions := training_sessions st;
     session_participants := session_participants st;
     session_events := session_events st;
     key_authorizations := key_authorizations st ++ [row];
     next_id := S (next_id st) |}.

Definition with_sessions (f : list TrainingSession → list TrainingSession)
    (st : Store) : Store :=
  {| training_sessions := f (training_sessions st);
     session_participants := session_participants st;
     session_events := session_events st;
     key_authorizations := key_authorizations st;
     next_id := next_id st |}.

Definition with_participants
    (f : list SessionParticipant → list SessionParticipant)
    (st : Store) : Store :=
  {| training_sessions := training_sessions st;
     session_participants := f (session_participants st);
     session_events := session_events st;
     key_authorizations := key_authorizations st;
     next_id := next_id st |}.

Definition with_key_authorizations
    (f : list KeyAuthorization → list KeyAuthorization)
    (st : Store) : Store :=
  {| training_sessions := training_sessions st;
     session_participants := session_participants st;
     session_events := session_events st;
     key_authorizations := f (key_authorizations st);
     next_id := next_id st |}.

(** Column setters used by the [.update({...})] calls. *)
Definition set_system_state (v : SystemState) (s : TrainingSession) : TrainingSession :=
  {| s_id := s_id s; session_code := session_code s;
     created_by := created_by s; s_status := s_status s; run_id := run_id s;
     current_step := current_step s; system_state := v |}.

Definition set_current_step (n : nat) (s : TrainingSession) : TrainingSession :=
  {| s_id := s_id s; session_code := session_code s;
     created_by := created_by s; s_status := s_status s; run_id := run_id s;
     current_step := n; system_state := system_state s |}.

Definition set_status (v : SessionStatus) (s : TrainingSession) : TrainingSession :=
  {| s_id := s_id s; session_code := session_code s;
     created_by := created_by s; s_status := v; run_id := run_id s;
     current_step := current_step s; system_state := system_state s |}.

Definition set_last_seen (t : Timestamp) (p : SessionParticipant) : SessionParticipant :=
  {| p_id := p_id p; p_session_id := p_session_id p; p_user_id := p_user_id p;
     role := role p; last_seen := t |}.

Definition set_operator_a (key : string) (t : Timestamp) (k : KeyAuthorization) : KeyAuthorization :=
  {| k_id := k_id k; k_session_id := k_session_id k;
     operator_a_key := Some key; operator_b_key := operator_b_key k;
     command_key := command_key k;
     operator_a_auth_at := Some t; operator_b_auth_at := operator_b_auth_at k;
     command_auth_at := command_auth_at k; k_status := k_status k |}.

Definition set_operator_b (key : string) (t : Timestamp) (k : KeyAuthorization) : KeyAuthorization :=
  {| k_id := k_id k; k_session_id := k_session_id k;
     operator_a_key := operator_a_key k; operator_b_key := Some key;
     command_key := command_key k;
     operator_a_auth_at := operator_a_auth_at k; operator_b_auth_at := Some t;
     command_auth_at := command_auth_at k; k_status := k_status k |}.

Definition set_key_status (v : KeyAuthStatus) (k : KeyAuthorization) : KeyAuthorization :=
  {| k_id := k_id k; k_session_id := k_session_id k;
     operator_a_key := operator_a_key k; operator_b_key := operator_b_key k;
     command_key := command_key k;
     operator_a_auth_at := operator_a_auth_at k;
     operator_b_auth_at := operator_b_auth_at k;
     command_auth_at := command_auth_at k; k_status := v |}.

(** The queries of the two components. *)

(** [from('training_sessions').select('*').eq('id', sid).single()] *)
Definition session_by_id (st : Store) (sid : Id) : option TrainingSession :=
  single (filter (λ s, s_id s = sid) (training_sessions st)).

(** [from('training_sessions').select('*').eq('session_code', c).single()] *)
Definition session_by_code (st : Store) (c : string) : option TrainingSession :=
  single (filter (λ s, session_code s = c) (training_sessions st)).

(** [from('session_participants').select(..).eq('session_id', sid)] *)
Definition participants_of (st : Store) (sid : Id) : list SessionParticipant :=
  filter (λ p, p_session_id p = sid) (session_participants st).

(** [...eq('session_id', sid).eq('user_id', uid).single()] *)
Definition participant_of (st : Store) (sid uid : Id) : option SessionParticipant :=
  single (filter (λ p, p_session_id p = sid ∧ p_user_id p = uid)
            (session_participants st)).

(** [from('key_authorizations').select('*').eq('session_id', sid)
      .order('created_at', { ascending: false }).limit(1).single()] *)
Definition latest_key_authorization (st : Store) (sid : Id) : option KeyAuthorization :=
  last (filter (λ k, k_session_id k = sid) (key_authorizations st)).

(** ** Lobby ([SessionLobby.tsx]) *)

(** A store response: [{ data, error }]. *)
Inductive Response (A : Type) :=
  | Ok (data : A)
  | Err (message : string).
Arguments Ok {A} data.
Arguments Err {A} message.

(** What a lobby action leaves behind: either [onJoinSession(id)] was called
    or the [catch] block stored [err.message] with [setError]. *)
Inductive LobbyResult :=
  | Joined (sessionId : Id)
  | Failed (message : string).

(** The message of [new Error('Session not found')]. *)
Definition SessionNotFound : string := "Session not found".

(** [createSession].  [rpc] is the response of the store procedure
    [generate_session_code], [runId] the string built from the clock and
    [Math.random()], [sessionError] and [participantError] the store's
    verdicts on the two inserts, [now] the store's clock. *)
Definition createSession (st : Store) (userId : Id) (rpc : Response string)
    (runId : string) (now : Timestamp)
    (sessionError participantError : option string) : Store * LobbyResult :=
  match rpc with
  | Err m => (st, Failed m)
  | Ok sessionCode =>
    match sessionError with
    | Some m => (st, Failed m)
    | None =>
      let '(st1, session) :=
        insert_session st sessionCode userId waiting runId 0
          initial_system_state in
      match participantError with
      | Some m => (st1, Failed m)
      | None =>
        (insert_participant st1 (s_id session) userId instructor now,
         Joined (s_id session))
      end
    end
  end.

(** The role computed by [joinSession] from the roles already present. *)
Definition next_role (existingRoles : list SessionRole) : SessionRole :=
  if bool_decide (operator_a ∉ existingRoles) then operator_a
  else if bool_decide (operator_b ∉ existingRoles) then operator_b
  else observer.

(** [joinSession].  [participantError] is the store's verdict on the
    participant insert, [now] the store's clock. *)
Definition joinSession (st : Store) (userId : Id) (code : string)
    (now : Timestamp) (participantError : option string)
    : Store * LobbyResult :=
  match session_by_code st (toUpperCase code) with
  | None => (st, Failed SessionNotFound)
  | Some session =>
    match participant_of st (s_id session) userId with
    | Some existingParticipant => (st, Joined (s_id session))
    | None =>
      let participants := participants_of st (s_id session) in
      let existingRoles := role <$> participants in
      let r := next_role existingRoles in
      match participantError with
      | Some m => (st, Failed m)
      | None =>
        let st1 := insert_participant st (s_id session) userId r now in
        let st2 := insert_event st1 (s_id session) (Some userId)
                     "participant_joined" [("role", JStr (role_name r))] in
        (st2, Joined (s_id session))
      end
    end
  end.

(** ** Simulator ([Simulator.tsx]) *)

(** The props and the [useState] cells that the handlers read. *)
Record Client := {
  sessionId : Id;
  userId : Id;
  session : option TrainingSession;
  userRole : option SessionRole;
  keyAuth : option KeyAuthorization;
  operatorAKey : string;
  operatorBKey : string;
}.

(** The component as mounted: nothing polled yet, empty inputs. *)
Definition mount (sid uid : Id) : Client :=
  {| sessionId := sid; userId := uid; session := None; userRole := None;
     keyAuth := None; operatorAKey := ""; operatorBKey := "" |}.

(** [setOperatorAKey] and [setOperatorBKey]; the inputs' [onChange] call
    them with the upper-cased text. *)
Definition setOperatorAKey (v : string) (c : Client) : Client :=
  {| sessionId := sessionId c; userId := userId c; session := session c;
     userRole := userRole c; keyAuth := keyAuth c;
     operatorAKey := v; operatorBKey := operatorBKey c |}.

Definition setOperatorBKey (v : string) (c : Client) : Client :=
  {| sessionId := sessionId c; userId := userId c; session := session c;
     userRole := userRole c; keyAuth := keyAuth c;
     operatorAKey := operatorAKey c; operatorBKey := v |}.

(** [loadSessionData], the body of the 2-second poll: heartbeat, then the
    session, the caller's role and the latest key-authorization row are
    re-read; a query without data leaves the corresponding cell as it was. *)
Definition loadSessionData (st : Store) (c : Client) (now : Timestamp)
    : Store * Client :=
  let st1 :=
    with_participants
      (update_where
         (λ p, bool_decide (p_session_id p = sessionId c ∧ p_user_id p = userId c))
         (set_last_seen now)) st in
  let sessionData := session_by_id st1 (sessionId c) in
  let participantsData := participants_of st1 (sessionId c) in
  let me := list_find (λ p, p_user_id p = userId c) participantsData in
  let keyAuthData := latest_key_authorization st1 (sessionId c) in
  (st1,
   {| sessionId := sessionId c; userId := userId c;
      session := match sessionData with Some s => Some s | None => session c end;
      userRole := match me with Some (_, p) => Some (role p) | None => userRole c end;
      keyAuth := match keyAuthData with Some k => Some k | None => keyAuth c end;
      operatorAKey := operatorAKey c; operatorBKey := operatorBKey c |}).

Definition logEvent (st : Store) (c : Client) (eventType : string)
    (eventData : list (string * Json)) : Store :=
  insert_event st (sessionId c) (Some (userId c)) eventType eventData.

Definition updateSessionState (st : Store) (c : Client)
    (updates : SystemStateUpdate) : Store :=
  match session c with
  | None => st
  | Some sess =>
    let newState := spread (system_state sess) updates in
    with_sessions
      (update_where (λ s, bool_decide (s_id s = sessionId c))
         (set_system_state newState)) st
  end.

Definition handleInitialize (st : Store) (c : Client) : Store :=
  let st1 := updateSessionState st c (upd_initialized true) in
  let st2 := logEvent st1 c "system_initialized" [("step", JNum 1)] in
  with_sessions
    (update_where (λ s, bool_decide (s_id s = sessionId c))
       (λ s, set_status active (set_current_step 1 s))) st2.

(** The double nearest to the literal [0.1], as an exact rational. *)
Definition threshold : Q := 3602879701896397 # 36028797018963968.

(** [Math.random() > 0.1] for the sample [r]. *)
Definition diagnostics_outcome (r : Q) : bool := negb (Qle_bool r threshold).

(** [handleDiagnostics] up to the [setTimeout] call. *)
Definition handleDiagnostics (st : Store) (c : Client) : Store :=
  logEvent st c "diagnostics_started" [("step", JNum 2)].

(** The callback that [handleDiagnostics] schedules; [c] is the client as
    captured when the button was pressed, [r] the value of [Math.random()]. *)
Definition diagnosticsTimer (st : Store) (c : Client) (r : Q) : Store :=
  let passed := diagnostics_outcome r in
  let st1 := updateSessionState st c (upd_diagnosticsPassed passed) in
  let st2 := logEvent st1 c "diagnostics_completed"
               [("passed", JBool passed); ("step", JNum 2)] in
  if passed then
    with_sessions
      (update_where (λ s, bool_decide (s_id s = sessionId c))
         (set_current_step 2)) st2
  else st2.

(** [handleKeySubmit] up to the [setTimeout] call.  [None] is the early
    [return] (no session or no role yet), after which no timer is set;
    otherwise the store and the client after the submission are returned and
    [completionTimer] is scheduled. *)
Definition handleKeySubmit (st : Store) (c : Client) (now : Timestamp)
    : option (Store * Client) :=
  match session c, userRole c with
  | Some _, Some r =>
    let isOperatorA := bool_decide (r = operator_a) in
    let isOperatorB := bool_decide (r = operator_b) in
    let '(st1, c1) :=
      if isOperatorA && (String.length (operatorAKey c) =? 8) then
        let st' :=
          match keyAuth c with
          | Some k =>
            with_key_authorizations
              (update_where (λ row, bool_decide (k_id row = k_id k))
                 (set_operator_a (operatorAKey c) now)) st
          | None =>
            insert_key_authorization st (sessionId c)
              (Some (operatorAKey c)) None (Some now) None
          end in
        (logEvent st' c "operator_a_authenticated" [("step", JNum 3)],
         setOperatorAKey "" c)
      else (st, c) in
    let '(st2, c2) :=
      if isOperatorB && (String.length (operatorBKey c) =? 8) then
        let st' :=
          match keyAuth c with
          | Some k =>
            with_key_authorizations
              (update_where (λ row, bool_decide (k_id row = k_id k))
                 (set_operator_b (operatorBKey c) now)) st1
          | None =>
            insert_key_authorization st1 (sessionId c)
              None (Some (operatorBKey c)) None (Some now)
          end in
        (logEvent st' c "operator_b_authenticated" [("step", JNum 3)],
         setOperatorBKey "" c1)
      else (st1, c1) in
    Some (st2, c2)
  | _, _ => None
  end.

(** The callback that [handleKeySubmit] schedules (the completion check);
    [c] is the client as captured when the button was pressed. *)
Definition completionTimer (st : Store) (c : Client) : Store :=
  match latest_key_authorization st (sessionId c) with
  | Some authData =>
    if bool_decide (is_Some (operator_a_auth_at authData))
       && bool_decide (is_Some (operator_b_auth_at authData)) then
      let st1 := updateSessionState st c (upd_authenticated true) in
      let st2 :=
        with_key_authorizations
          (update_where (λ row, bool_decide (k_id row = k_id authData))
             (set_key_status complete)) st1 in
      let st3 :=
        with_sessions
          (update_where (λ s, bool_decide (s_id s = sessionId c))
             (set_current_step 3)) st2 in
      logEvent st3 c "dual_key_authentication_complete" [("step", JNum 3)]
    else st
  | None => st
  end.

(** The whole key-submission action: the handler, then its timer with
    nothing in between. *)
Definition keySubmission (st : Store) (c : Client) (now : Timestamp) : Store :=
  match handleKeySubmit st c now with
  | Some (st1, _) => completionTimer st1 c
  | None => st
  end.

Definition handleLeaveSession (st : Store) (c : Client) : Store :=
  let st1 :=
    with_participants
      (filter (λ p, ¬ (p_session_id p = sessionId c ∧ p_user_id p = userId c)))
      st in
  logEvent st1 c "participant_left"
    [("role", match userRole c with
              | Some r => JStr (role_name r)
              | None => JNull
              end)].

(** ** Operations and reachable stores *)

(** One store-changing step of some client.  The client record of a
    simulator step is arbitrary: a view may be as stale as the polling
    allows, and the handlers read nothing else.  A step is one handler run
    to its end (for the handlers with a timer: up to the timer, and the
    timer's callback), with no store call of another client between its
    own; [reachable] closes the empty store under such steps.  Where the
    order of single store calls of two clients matters, the calls are
    taken one by one ([join_step]). *)
Inductive Op :=
  | OpCreate (userId : Id) (rpc : Response string) (runId : string)
      (now : Timestamp) (sessionError participantError : option string)
  | OpJoin (userId : Id) (code : string) (now : Timestamp)
      (participantError : option string)
  | OpLoad (c : Client) (now : Timestamp)
  | OpInitialize (c : Client)
  | OpDiagnostics (c : Client)
  | OpDiagnosticsTimer (c : Client) (r : Q)
  | OpKeySubmit (c : Client) (now : Timestamp)
  | OpCompletionTimer (c : Client)
  | OpLeave (c : Client).

Definition apply_op (st : Store) (o : Op) : Store :=
  match o with
  | OpCreate u rpc runId now se pe => (createSession st u rpc runId now se pe).1
  | OpJoin u code now pe => (joinSession st u code now pe).1
  | OpLoad c now => (loadSessionData st c now).1
  | OpInitialize c => handleInitialize st c
  | OpDiagnostics c => handleDiagnostics st c
  | OpDiagnosticsTimer c r => diagnosticsTimer st c r
  | OpKeySubmit c now =>
    match handleKeySubmit st c now with
    | Some (st1, _) => st1
    | None => st
    end
  | OpCompletionTimer c => completionTimer st c
  | OpLeave c => handleLeaveSession st c
  end.

Definition run (st : Store) (ops : list Op) : Store := foldl apply_op st ops.

Definition reachable (st : Store) : Prop := ∃ ops, st = run empty_store ops.

(** ** Fields of the system state, for frame statements *)

Inductive Field :=
  | f_initialized | f_diagnosticsPassed | f_authenticated | f_armed
  | f_countdownActive | f_countdownAbortable | f_countdownSeconds
  | f_systemLocked | f_lockType | f_systemHold | f_faultInjected
  | f_adminForcedOutcome | f_activeScenario | f_subsystems
  | f_delayMultiplier | f_latencyEnabled.

Inductive FieldValue :=
  | VBool (b : bool)
  | VInt (z : Z)
  | VText (o : option string)
  | VSubsystems (m : gmap string Subsystem)
  | VNumber (q : Q).

Definition get_field (f : Field) (s : SystemState) : FieldValue :=
  match f with
  | f_initialized => VBool (initialized s)
  | f_diagnosticsPassed => VBool (diagnosticsPassed s)
  | f_authenticated => VBool (authenticated s)
  | f_armed => VBool (armed s)
  | f_countdownActive => VBool (countdownActive s)
  | f_countdownAbortable => VBool (countdownAbortable s)
  | f_countdownSeconds => VInt (countdownSeconds s)
  | f_systemLocked => VBool (systemLocked s)
  | f_lockType => VText (lockType s)
  | f_systemHold => VBool (systemHold s)
  | f_faultInjected => VBool (faultInjected s)
  | f_adminForcedOutcome => VText (adminForcedOutcome s)
  | f_activeScenario => VText (activeScenario s)
  | f_subsystems => VSubsystems (subsystems s)
  | f_delayMultiplier => VNumber (delayMultiplier s)
  | f_latencyEnabled => VBool (latencyEnabled s)
  end.

(** The value an update literal gives to a field, if it names the field. *)
Definition named (f : Field) (u : SystemStateUpdate) : option FieldValue :=
  match f with
  | f_initialized => VBool <$> u_initialized u
  | f_diagnosticsPassed => VBool <$> u_diagnosticsPassed u
  | f_authenticated => VBool <$> u_authenticated u
  | f_armed => VBool <$> u_armed u
  | f_countdownActive => VBool <$> u_countdownActive u
  | f_countdownAbortable => VBool <$> u_countdownAbortable u
  | f_countdownSeconds => VInt <$> u_countdownSeconds u
  | f_systemLocked => VBool <$> u_systemLocked u
  | f_lockType => VText <$> u_lockType u
  | f_systemHold => VBool <$> u_systemHold u
  | f_faultInjected => VBool <$> u_faultInjected u
  | f_adminForcedOutcome => VText <$> u_adminForcedOutcome u
  | f_activeScenario => VText <$> u_activeScenario u
  | f_subsystems => VSubsystems <$> u_subsystems u
  | f_delayMultiplier => VNumber <$> u_delayMultiplier u
  | f_latencyEnabled => VBool <$> u_latencyEnabled u
  end.

(** ** Summaries of the handlers' writes *)

(** The test of [.eq('id', sessionId)] on a session row. *)
Definition is_session (c : Client) (s : TrainingSession) : bool :=
  bool_decide (s_id s = sessionId c).

(** The row-level effect of [updateSessionState]: nothing before the first
    poll has delivered a session, the spread of the last-read state after. *)
Definition write_state (c : Client) (u : SystemStateUpdate)
    (s : TrainingSession) : TrainingSession :=
  match session c with
  | Some sess => set_system_state (spread (system_state sess) u) s
  | None => s
  end.

(** What a handler does to the session rows: the row at each position
    keeps its identifier; rows of other sessions are untouched; a row of the
    client's session gets, field by field, the update's value where the
    update names the field and the client's last-read value elsewhere. *)
Definition writes_merge (u : SystemStateUpdate) (c : Client)
    (st st' : Store) : Prop :=
  ∀ i s, training_sessions st !! i = Some s →
    ∃ s', training_sessions st' !! i = Some s' ∧ s_id s' = s_id s ∧
      (s_id s ≠ sessionId c → s' = s) ∧
      (s_id s = sessionId c → ∀ sess, session c = Some sess →
         ∀ f, get_field f (system_state s')
              = default (get_field f (system_state sess)) (named f u)).

(** The rows of [key_authorizations] after one operator's branch of
    [handleKeySubmit]: the row the client last polled is updated in place,
    or, without such a row, a fresh one is appended. *)
Definition upsert_key_row (c : Client)
    (set : KeyAuthorization → KeyAuthorization) (fresh : KeyAuthorization)
    (rows : list KeyAuthorization) : list KeyAuthorization :=
  match keyAuth c with
  | Some k => update_where (λ row, bool_decide (k_id row = k_id k)) set rows
  | None => rows ++ [fresh]
  end.

Definition fresh_key_row (id sid : Id) (a_key b_key : option string)
    (a_at b_at : option Timestamp) : KeyAuthorization :=
  {| k_id := id; k_session_id := sid;
     operator_a_key := a_key; operator_b_key := b_key; command_key := None;
     operator_a_auth_at := a_at; operator_b_auth_at := b_at;
     command_auth_at := None; k_status := default_key_status |}.

(** Whether a submission with the 8-character test on [key] rewrites the
    existing row [k]: the client must have polled a row, and [k] must carry
    that row's identifier. *)
Definition rewrites_row (key : string) (c : Client) (k : KeyAuthorization) : bool :=
  (String.length key =? 8)
  && match keyAuth c with
     | Some polled => bool_decide (k_id k = k_id polled)
     | None => false
     end.

(** Whether a submission with [key] appends a fresh row. *)
Definition appends_row (key : string) (c : Client) : bool :=
  (String.length key =? 8)
  && match keyAuth c with Some _ => false | None => true end.

(** Both operator timestamps are present. *)
Definition both_authenticated (k : KeyAuthorization) : Prop :=
  is_Some (operator_a_auth_at k) ∧ is_Some (operator_b_auth_at k).

(** The event that the completion check appends. *)
Definition completion_event (id : Id) (c : Client) : SessionEvent :=
  {| e_id := id; e_session_id := sessionId c; e_user_id := Some (userId c);
     event_type := "dual_key_authentication_complete";
     event_data := [("step", JNum 3)] |}.

(** Position of a status in the sequence pending, partial, complete. *)
Definition status_rank (v : KeyAuthStatus) : nat :=
  match v with
  | pending => 0
  | partial => 1
  | complete => 2
  end.

(** ** Membership vocabulary *)

Definition member_key (p : SessionParticipant) : Id * Id :=
  (p_session_id p, p_user_id p).

(** At most one participant row per session and user. *)
Definition participants_unique (st : Store) : Prop :=
  NoDup (member_key <$> session_participants st).

Definition is_participant (st : Store) (sid uid : Id) : Prop :=
  ∃ p, p ∈ session_participants st ∧ p_session_id p = sid ∧ p_user_id p = uid.

Definition holds_role (st : Store) (sid : Id) (r : SessionRole) : Prop :=
  ∃ p, p ∈ session_participants st ∧ p_session_id p = sid ∧ role p = r.

Global Instance is_participant_dec st sid uid :
  Decision (is_participant st sid uid).
Proof.
  refine (cast_if (decide (Exists (λ p, p_session_id p = sid ∧ p_user_id p = uid)
                             (session_participants st))));
    unfold is_participant; rewrite Exists_exists in *; naive_solver.
Defined.

Global Instance holds_role_dec st sid r : Decision (holds_role st sid r).
Proof.
  refine (cast_if (decide (Exists (λ p, p_session_id p = sid ∧ role p = r)
                             (session_participants st))));
    unfold holds_role; rewrite Exists_exists in *; naive_solver.
Defined.

Global Instance participants_unique_dec st : Decision (participants_unique st).
Proof. unfold participants_unique. apply _. Defined.

(** Number of participant rows of a user in a session. *)
Definition membership_count (st : Store) (sid uid : Id) : nat :=
  length (filter (λ p, p_session_id p = sid ∧ p_user_id p = uid)
            (session_participants st)).

(** The rows and events that the lobby writes. *)
Definition participant_row (id sid uid : Id) (r : SessionRole)
    (now : Timestamp) : SessionParticipant :=
  {| p_id := id; p_session_id := sid; p_user_id := uid; role := r;
     last_seen := now |}.

Definition joined_event (id sid uid : Id) (r : SessionRole) : SessionEvent :=
  {| e_id := id; e_session_id := sid; e_user_id := Some uid;
     event_type := "participant_joined";
     event_data := [("role", JStr (role_name r))] |}.

(** ** Invariants of reachable stores *)

(** A key-authorization row is [complete] only with both timestamps, and is
    never [partial]. *)
Definition key_row_ok (k : KeyAuthorization) : Prop :=
  (k_status k = complete → both_authenticated k) ∧ k_status k ≠ partial.

(** Identifiers in use are below the counter, rows of the key table have
    distinct identifiers, a user has at most one row per session, and every
    key row is [key_row_ok]. *)
Record store_wf (st : Store) : Prop := {
  wf_session_ids : Forall (λ s, s_id s < next_id st) (training_sessions st);
  wf_participant_sessions :
    Forall (λ p, p_session_id p < next_id st) (session_participants st);
  wf_participants_unique : participants_unique st;
  wf_key_ids : Forall (λ k, k_id k < next_id st) (key_authorizations st);
  wf_key_ids_unique : NoDup (k_id <$> key_authorizations st);
  wf_key_rows : Forall key_row_ok (key_authorizations st);
}.

(** No two sessions share a code (the store procedure that generates the
    codes is to guarantee it). *)
Definition codes_unique (st : Store) : Prop :=
  NoDup (session_code <$> training_sessions st).

Global Instance codes_unique_dec st : Decision (codes_unique st).
Proof. unfold codes_unique. apply _. Defined.

(** Two codes that differ at most in the case of their letters. *)
Definition same_ignoring_case (c1 c2 : string) : Prop :=
  toUpperCase c1 = toUpperCase c2.

(** ** The controls of the simulator view

    The conditions under which the JSX of [Simulator.tsx] renders a button
    and leaves it enabled, as functions of the client's cells. *)

Definition isObserver (c : Client) : bool :=
  bool_decide (userRole c = Some observer).

(** INITIALIZE SYSTEM: shown while [!state.initialized], disabled for an
    observer. *)
Definition initializeEnabled (c : Client) : bool :=
  match session c with
  | Some s => negb (initialized (system_state s)) && negb (isObserver c)
  | None => false
  end.

(** RUN DIAGNOSTICS: shown while [state.initialized] and
    [!state.diagnosticsPassed], disabled for an observer. *)
Definition diagnosticsEnabled (c : Client) : bool :=
  match session c with
  | Some s =>
    initialized (system_state s)
    && negb (diagnosticsPassed (system_state s))
    && negb (isObserver c)
  | None => false
  end.

(** [!!keyAuth?.operator_a_auth_at] and [!!keyAuth?.operator_b_auth_at]. *)
Definition seenOperatorA (c : Client) : bool :=
  match keyAuth c with
  | Some k => bool_decide (is_Some (operator_a_auth_at k))
  | None => false
  end.

Definition seenOperatorB (c : Client) : bool :=
  match keyAuth c with
  | Some k => bool_decide (is_Some (operator_b_auth_at k))
  | None => false
  end.

(** SUBMIT KEY: shown to an operator once [state.diagnosticsPassed], enabled
    with an 8-character input as long as the polled row does not carry the
    operator's timestamp. *)
Definition keySubmitEnabled (c : Client) : bool :=
  match session c with
  | Some s =>
    diagnosticsPassed (system_state s)
    && ((bool_decide (userRole c = Some operator_a)
         && (String.length (operatorAKey c) =? 8) && negb (seenOperatorA c))
        || (bool_decide (userRole c = Some operator_b)
            && (String.length (operatorBKey c) =? 8) && negb (seenOperatorB c)))
  | None => false
  end.

Inductive Control :=
  | InitializeButton
  | DiagnosticsButton (r : Q)
  | SubmitKeyButton (now : Timestamp).

(** Pressing a control: nothing happens unless it is enabled; otherwise the
    handler runs, followed at once by the timer it sets. *)
Definition press (st : Store) (c : Client) (b : Control) : Store :=
  match b with
  | InitializeButton =>
    if initializeEnabled c then handleInitialize st c else st
  | DiagnosticsButton r =>
    if diagnosticsEnabled c
    then diagnosticsTimer (handleDiagnostics st c) c r else st
  | SubmitKeyButton now =>
    if keySubmitEnabled c then keySubmission st c now else st
  end.

(** The client's last-read session row is the stored one. *)
Definition view_current (st : Store) (c : Client) : Prop :=
  session c = session_by_id st (sessionId c).

(** A history step: a control pressed by some client, or a lobby, polling or
    leaving operation. *)
Inductive UiAction :=
  | Press (c : Client) (b : Control)
  | Other (o : Op).

Definition ui_apply (st : Store) (a : UiAction) : Store :=
  match a with
  | Press c b => press st c b
  | Other o => apply_op st o
  end.

(** Controls are pressed on a current view only; the handlers and timers
    are not run on their own. *)
Definition ui_allowed (st : Store) (a : UiAction) : Prop :=
  match a with
  | Press c _ => view_current st c
  | Other (OpCreate _ _ _ _ _ _) | Other (OpJoin _ _ _ _)
  | Other (OpLoad _ _) | Other (OpLeave _) => True
  | Other _ => False
  end.

Fixpoint ui_history (st : Store) (l : list UiAction) : Prop :=
  match l with
  | [] => True
  | a :: l => ui_allowed st a ∧ ui_history (ui_apply st a) l
  end.

Definition ui_run (st : Store) (l : list UiAction) : Store :=
  foldl ui_apply st l.

(** How [current_step] relates to the two flags the controls test. *)
Definition step_ok (s : TrainingSession) : Prop :=
  current_step s ≤ 3
  ∧ (initialized (system_state s) = false →
     current_step s = 0 ∧ diagnosticsPassed (system_state s) = false)
  ∧ (diagnosticsPassed (system_state s) = false → current_step s ≤ 1).

(** Every session row is still there, in place, with a [current_step] at
    least as large. *)
Definition steps_le (st st' : Store) : Prop :=
  ∀ i s, training_sessions st !! i = Some s →
    ∃ s', training_sessions st' !! i = Some s'
          ∧ s_id s' = s_id s ∧ current_step s ≤ current_step s'.

(** ** A worked session, used to instantiate the statements below

    User 10 creates a session (code [AB12-CD34]); users 11, 12 and 13 join
    in this order.  The instructor polls and initializes, polls again and
    runs the diagnostics, which pass; operator A polls and submits a key,
    then operator B polls and submits a key, and B's completion check
    fires.  [demo_ops] lists the operations in order; the stores in between
    are named after the operation that produced them. *)
Definition demo_ops : list Op :=
  [ OpCreate 10 (Ok "AB12-CD34") "RUN-LX2K9-7QF3" 1000%Z None None;
    OpJoin 11 "ab12-cd34" 2000%Z None;
    OpJoin 12 "AB12-cd34" 3000%Z None;
    OpJoin 13 "AB12-CD34" 4000%Z None ].

Definition demo_created : Store := run empty_store (take 1 demo_ops).
Definition demo_one_operator : Store := run empty_store (take 2 demo_ops).
Definition demo_joined : Store := run empty_store demo_ops.

(** The instructor's first poll and the initialization. *)
Definition demo_instructor : Client :=
  (loadSessionData demo_joined (mount 0 10) 5000%Z).2.

Definition demo_initialized : Store :=
  run demo_joined [OpLoad (mount 0 10) 5000%Z; OpInitialize demo_instructor].

(** The instructor's next poll and the diagnostics, which pass. *)
Definition demo_instructor' : Client :=
  (loadSessionData demo_initialized demo_instructor 7000%Z).2.

Definition demo_diagnosed : Store :=
  run demo_initialized
    [OpLoad demo_instructor 7000%Z; OpDiagnostics demo_instructor';
     OpDiagnosticsTimer demo_instructor' (1 # 2)].

(** Operator A polls, types a key and submits; the check finds one
    timestamp only. *)
Definition demo_operator_a : Client :=
  setOperatorAKey "K3Y4ALFA"
    (loadSessionData demo_diagnosed (mount 0 11) 12000%Z).2.

Definition demo_a_submitted : Store :=
  run demo_diagnosed
    [OpLoad (mount 0 11) 12000%Z; OpKeySubmit demo_operator_a 13000%Z;
     OpCompletionTimer demo_operator_a].

(** Operator B polls, types a key and submits. *)
Definition demo_operator_b : Client :=
  setOperatorBKey "K3Y4BETA"
    (loadSessionData demo_a_submitted (mount 0 12) 14000%Z).2.

Definition demo_b_submitted : Store :=
  run demo_a_submitted
    [OpLoad (mount 0 12) 14000%Z; OpKeySubmit demo_operator_b 15000%Z].

(** B's completion check. *)
Definition demo_completed : Store :=
  run demo_b_submitted [OpCompletionTimer demo_operator_b].

(** All operations from the empty store up to [demo_b_submitted]. *)
Definition demo_ops_b_submitted : list Op :=
  demo_ops ++
  [ OpLoad (mount 0 10) 5000%Z; OpInitialize demo_instructor;
    OpLoad demo_instructor 7000%Z; OpDiagnostics demo_instructor';
    OpDiagnosticsTimer demo_instructor' (1 # 2);
    OpLoad (mount 0 11) 12000%Z; OpKeySubmit demo_operator_a 13000%Z;
    OpCompletionTimer demo_operator_a;
    OpLoad (mount 0 12) 14000%Z; OpKeySubmit demo_operator_b 15000%Z ].

(** The only key-authorization row of the worked session, after operator
    B's submission and before the completion check. *)
Definition demo_key_row : KeyAuthorization :=
  {| k_id := 11; k_session_id := 0;
     operator_a_key := Some "K3Y4ALFA"; operator_b_key := Some "K3Y4BETA";
     command_key := None;
     operator_a_auth_at := Some 13000%Z; operator_b_auth_at := Some 15000%Z;
     command_auth_at := None; k_status := pending |}.

(** The instructor presses RUN DIAGNOSTICS twice within the delay; the
    first draw passes, the second fails. *)
Definition demo_first_run_passed : Store :=
  run demo_initialized
    [OpLoad demo_instructor 7000%Z; OpDiagnostics demo_instructor';
     OpDiagnostics demo_instructor';
     OpDiagnosticsTimer demo_instructor' (1 # 2)].

Definition demo_second_run_failed : Store :=
  diagnosticsTimer demo_first_run_passed demo_instructor' 0.

(** After completion, INITIALIZE SYSTEM is pressed on the view that the
    instructor polled before the initialization. *)
Definition demo_stale_initialize : Store :=
  handleInitialize demo_completed demo_instructor.

(** The worked session as a history of pressed controls. *)
Definition demo_history : list UiAction :=
  (Other <$> demo_ops) ++
  [ Other (OpLoad (mount 0 10) 5000%Z);
    Press demo_instructor InitializeButton;
    Other (OpLoad demo_instructor 7000%Z);
    Press demo_instructor' (DiagnosticsButton (1 # 2));
    Other (OpLoad (mount 0 11) 12000%Z);
    Press demo_operator_a (SubmitKeyButton 13000%Z);
    Other (OpLoad (mount 0 12) 14000%Z);
    Press demo_operator_b (SubmitKeyButton 15000%Z) ].

(** The session row of the worked session, as created and as initialized,
    and the stores right after the polls that precede the diagnostics and
    operator B's submission. *)
Definition demo_row_created : TrainingSession :=
  {| s_id := 0; session_code := "AB12-CD34"; created_by := 10;
     s_status := waiting; run_id := "RUN-LX2K9-7QF3"; current_step := 0;
     system_state := initial_system_state |}.

Definition demo_row_initialized : TrainingSession :=
  set_status active
    (set_current_step 1
       (set_system_state (spread initial_system_state (upd_initialized true))
          demo_row_created)).

Definition demo_before_diagnostics : Store :=
  run demo_initialized [OpLoad demo_instructor 7000%Z].

Definition demo_before_b_submits : Store :=
  run demo_a_submitted [OpLoad (mount 0 12) 14000%Z].

(** The key-authorization row after operator A's submission alone. *)
Definition demo_key_row_a : KeyAuthorization :=
  {| k_id := 11; k_session_id := 0;
     operator_a_key := Some "K3Y4ALFA"; operator_b_key := None;
     command_key := None;
     operator_a_auth_at := Some 13000%Z; operator_b_auth_at := None;
     command_auth_at := None; k_status := pending |}.

(** A second course of the key entry, from [demo_diagnosed]: operator A
    polls and types a key; within the two seconds to A's next poll operator
    B polls, types and submits; then A submits on the view polled before,
    which holds no key row, and, having typed a key again, submits once
    more on that view. *)
Definition demo_early_operator_b : Client :=
  setOperatorBKey "K3Y4BETA"
    (loadSessionData (run demo_diagnosed [OpLoad (mount 0 11) 12000%Z])
       (mount 0 12) 12200%Z).2.

Definition demo_operator_a_again : Client :=
  setOperatorAKey "K3Y4ALF2" demo_operator_a.

Definition demo_ops_second_course : list Op :=
  [ OpLoad (mount 0 10) 5000%Z; OpInitialize demo_instructor;
    OpLoad demo_instructor 7000%Z; OpDiagnostics demo_instructor';
    OpDiagnosticsTimer demo_instructor' (1 # 2);
    OpLoad (mount 0 11) 12000%Z; OpLoad (mount 0 12) 12200%Z;
    OpKeySubmit demo_early_operator_b 12400%Z;
    OpCompletionTimer demo_early_operator_b;
    OpKeySubmit demo_operator_a 12800%Z;
    OpCompletionTimer demo_operator_a;
    OpKeySubmit demo_operator_a_again 13600%Z;
    OpCompletionTimer demo_operator_a_again ].

Definition demo_b_first : Store :=
  run demo_joined (take 9 demo_ops_second_course).

Definition demo_a_unpolled : Store :=
  run demo_joined (take 11 demo_ops_second_course).

Definition demo_a_resubmitted : Store :=
  run demo_joined demo_ops_second_course.

(** The key rows of the second course. *)
Definition demo_row_b_only : KeyAuthorization :=
  {| k_id := 11; k_session_id := 0;
     operator_a_key := None; operator_b_key := Some "K3Y4BETA";
     command_key := None;
     operator_a_auth_at := None; operator_b_auth_at := Some 12400%Z;
     command_auth_at := None; k_status := pending |}.

Definition demo_row_a_only : KeyAuthorization :=
  {| k_id := 13; k_session_id := 0;
     operator_a_key := Some "K3Y4ALFA"; operator_b_key := None;
     command_key := None;
     operator_a_auth_at := Some 12800%Z; operator_b_auth_at := None;
     command_auth_at := None; k_status := pending |}.

Definition demo_row_a_again : KeyAuthorization :=
  {| k_id := 15; k_session_id := 0;
     operator_a_key := Some "K3Y4ALF2"; operator_b_key := None;
     command_key := None;
     operator_a_auth_at := Some 13600%Z; operator_b_auth_at := None;
     command_auth_at := None; k_status := pending |}.

(** ** Further parts of the components

    The lobby's listing, the simulator's event view and presence marks, the
    labels of the badges and the sign-up name of [AuthScreen.tsx]. *)

(** [loadActiveSessions]: the sessions with status [waiting] or [active],
    newest first, at most ten ([.in('status', [...])
    .order('created_at', { ascending: false }).limit(10)]). *)
Definition loadActiveSessions (st : Store) : list TrainingSession :=
  take 10
    (reverse
       (filter (λ s, s_status s = waiting ∨ s_status s = active)
          (training_sessions st))).

(** The event cell that [loadSessionData] fills: the query takes the fifty
    newest events of the session, newest first, and the component reverses
    the array ([eventsData.reverse()]). *)
Definition loadEvents (st : Store) (sid : Id) : list SessionEvent :=
  reverse
    (take 50
       (reverse (filter (λ e, e_session_id e = sid) (session_events st)))).

(** The presence mark of the participants panel:
    [new Date(p.last_seen).getTime() > Date.now() - 10000]. *)
Definition isActive (now : Timestamp) (p : SessionParticipant) : bool :=
  (now - 10000 <? last_seen p)%Z.

(** [String.prototype.replace] with a one-character string pattern: only
    the first occurrence is replaced. *)
Fixpoint replace_first (a b : ascii) (s : string) : string :=
  match s with
  | EmptyString => EmptyString
  | String c s' =>
    if Ascii.eqb c a then String b s' else String c (replace_first a b s')
  end.

(** The text of the role badge and of an event-log entry:
    [x.toUpperCase().replace('_', ' ')]. *)
Definition display_label (s : string) : string :=
  replace_first "_" " " (toUpperCase s).

(** [email.split('@')[0]]: the text before the first [@]. *)
Fixpoint before_at (s : string) : string :=
  match s with
  | EmptyString => EmptyString
  | String c s' => if Ascii.eqb c "@" then EmptyString else String c (before_at s')
  end.

(** The name sent with a sign-up: [username || email.split('@')[0]]. *)
Definition signUpUsername (username email : string) : string :=
  match username with
  | EmptyString => before_at email
  | _ => username
  end.

(** The [onChange] handlers of the two key inputs and of the lobby's code
    input store the upper-cased text. *)
Definition onChangeOperatorAKey (v : string) (c : Client) : Client :=
  setOperatorAKey (toUpperCase v) c.

Definition onChangeOperatorBKey (v : string) (c : Client) : Client :=
  setOperatorBKey (toUpperCase v) c.

Definition onChangeSessionCode (v : string) : string := toUpperCase v.

(** Text within ASCII: every unit is below 128.  On such text [toUpperCase]
    above is [String.prototype.toUpperCase]; outside it the JavaScript
    function also maps other letters and may change the length of the
    text, so statements about typed text are made for ASCII text. *)
Fixpoint is_ascii (s : string) : bool :=
  match s with
  | EmptyString => true
  | String c s' => (nat_of_ascii c <? 128) && is_ascii s'
  end.

(** ** Further invariants *)

Definition session_ids_unique (st : Store) : Prop :=
  NoDup (s_id <$> training_sessions st).

(** Number of participants of a session that hold a role. *)
Definition role_count (st : Store) (sid : Id) (r : SessionRole) : nat :=
  length (filter (λ p, p_session_id p = sid ∧ role p = r)
            (session_participants st)).

(** Every role except [observer] is held at most once per session. *)
Definition roles_exclusive (st : Store) : Prop :=
  ∀ sid r, r ≠ observer → role_count st sid r ≤ 1.

(** [instructor] is held at most once per session. *)
Definition instructor_held_once (st : Store) : Prop :=
  ∀ sid, role_count st sid instructor ≤ 1.

(** The columns of a session row that identify it. *)
Definition session_identity (s : TrainingSession) : Id * string * Id * string :=
  (s_id s, session_code s, created_by s, run_id s).

(** Number of occurrences of a character in a string. *)
Fixpoint occurrences (a : ascii) (s : string) : nat :=
  match s with
  | EmptyString => 0
  | String c s' => (if Ascii.eqb c a then 1 else 0) + occurrences a s'
  end.

(** Only the creator of a session holds [instructor] in it. *)
Definition instructor_is_creator (st : Store) : Prop :=
  ∀ p, p ∈ session_participants st → role p = instructor →
    ∃ s, s ∈ training_sessions st
         ∧ s_id s = p_session_id p ∧ created_by s = p_user_id p.

(** The session row that [createSession] inserts. *)
Definition created_row (id : Id) (code : string) (creator : Id)
    (runId : string) : TrainingSession :=
  {| s_id := id; session_code := code; created_by := creator;
     s_status := waiting; run_id := runId; current_step := 0;
     system_state := initial_system_state |}.

(** The event that [handleLeaveSession] appends. *)
Definition left_event (id : Id) (c : Client) : SessionEvent :=
  {| e_id := id; e_session_id := sessionId c; e_user_id := Some (userId c);
     event_type := "participant_left";
     event_data :=
       [("role", match userRole c with
                 | Some r => JStr (role_name r)
                 | None => JNull
                 end)] |}.

(** ** The run identifier of [createSession]

    [`RUN-${Date.now().toString(36).toUpperCase()}-${Math.random()
    .toString(36).substring(2, 6).toUpperCase()}`]. *)







(** What the code keeps true of a session row and of a key row. *)
Definition session_row_ok (s : TrainingSession) : Prop :=
  (s_status s = waiting ∨ s_status s = active) ∧ current_step s ≤ 3.

Definition key_row_shape (k : KeyAuthorization) : Prop :=
  (∀ key, operator_a_key k = Some key → String.length key = 8)
  ∧ (∀ key, operator_b_key k = Some key → String.length key = 8)
  ∧ (is_Some (operator_a_key k) ↔ is_Some (operator_a_auth_at k))
  ∧ (is_Some (operator_b_key k) ↔ is_Some (operator_b_auth_at k))
  ∧ command_key k = None ∧ command_auth_at k = None.

(** ** [joinSession] call by call

    [joinSession] awaits its store calls one after the other: the lookup
    of the session, the check for an existing participant, the read of the
    roles, the insert of the participant and the insert of the event.
    Calls of other clients can reach the store in between.  [JoinPc] says
    where a call of [joinSession] stands and what it has read so far. *)
Inductive JoinPc :=
  | JoinStart (code : string)
  | JoinFound (session : TrainingSession)
  | JoinNew (session : TrainingSession)
  | JoinRole (session : TrainingSession) (r : SessionRole)
  | JoinInserted (session : TrainingSession) (r : SessionRole)
  | JoinDone (res : LobbyResult).

(** The next store call of a [joinSession] run by [userId]. *)
Definition join_step (st : Store) (userId : Id) (now : Timestamp)
    (participantError : option string) (pc : JoinPc) : Store * JoinPc :=
  match pc with
  | JoinStart code =>
    match session_by_code st (toUpperCase code) with
    | None => (st, JoinDone (Failed SessionNotFound))
    | Some session => (st, JoinFound session)
    end
  | JoinFound session =>
    match participant_of st (s_id session) userId with
    | Some existingParticipant => (st, JoinDone (Joined (s_id session)))
    | None => (st, JoinNew session)
    end
  | JoinNew session =>
    let participants := participants_of st (s_id session) in
    let existingRoles := role <$> participants in
    (st, JoinRole session (next_role existingRoles))
  | JoinRole session r =>
    match participantError with
    | Some m => (st, JoinDone (Failed m))
    | None =>
      (insert_participant st (s_id session) userId r now,
       JoinInserted session r)
    end
  | JoinInserted session r =>
    (insert_event st (s_id session) (Some userId)
       "participant_joined" [("role", JStr (role_name r))],
     JoinDone (Joined (s_id session)))
  | JoinDone res => (st, JoinDone res)
  end.

(** A running call of [joinSession]. *)
Record Joiner := {
  j_user : Id;
  j_now : Timestamp;
  j_error : option string;
  j_pc : JoinPc;
}.

Definition joiner (userId : Id) (code : string) (now : Timestamp)
    (participantError : option string) : Joiner :=
  {| j_user := userId; j_now := now; j_error := participantError;
     j_pc := JoinStart code |}.

Definition joiner_step (st : Store) (j : Joiner) : Store * Joiner :=
  let '(st', pc) := join_step st (j_user j) (j_now j) (j_error j) (j_pc j) in
  (st', {| j_user := j_user j; j_now := j_now j; j_error := j_error j;
           j_pc := pc |}).

(** Two calls of [joinSession] against one store.  The schedule says whose
    store call comes next: [true] for the first joiner, [false] for the
    second. *)
Fixpoint run_joiners (st : Store) (j1 j2 : Joiner) (schedule : list bool)
    : Store * Joiner * Joiner :=
  match schedule with
  | [] => (st, j1, j2)
  | true :: rest =>
    let '(st', j1') := joiner_step st j1 in run_joiners st' j1' j2 rest
  | false :: rest =>
    let '(st', j2') := joiner_step st j2 in run_joiners st' j1 j2' rest
  end.

(** One call after the other, and the two calls with both role reads
    before either insert. *)
Definition one_after_the_other : list bool :=
  [true; true; true; true; true; false; false; false; false; false].

Definition reads_before_inserts : list bool :=
  [true; true; true; false; false; false; true; true; false; false].

(** * Properties *)

(** Projections of the store out of the table-level writes. *)
Ltac store_simpl :=
  cbn [training_sessions session_participants session_events
       key_authorizations next_id with_sessions with_participants
       with_key_authorizations insert_event insert_participant
       insert_key_authorization logEvent fst snd] in *.

(** ** Table-level facts about the store primitives *)

Section tables.
Context {A : Type}.
Implicit Types (P : A → bool) (f : A → A) (rows : list A).

Lemma update_where_lookup P f rows i :
  update_where P f rows !! i
  = (λ r, if P r then f r else r) <$> rows !! i.
Proof. unfold update_where. apply list_lookup_fmap. Qed.

Lemma update_where_length P f rows :
  length (update_where P f rows) = length rows.
Proof. unfold update_where. apply length_fmap. Qed.

Lemma update_where_id P f rows :
  (∀ r, r ∈ rows → P r = true → f r = r) → update_where P f rows = rows.
Proof.
  intros Hf. unfold update_where.
  induction rows as [|r rows IH]; [done|]. cbn. f_equal.
  - destruct (P r) eqn:HP; [|done]. apply Hf; [left|done].
  - apply IH. intros r' Hin. apply Hf. by right.
Qed.

Lemma update_where_compose P f g rows :
  (∀ r, P (g r) = P r) →
  update_where P f (update_where P g rows)
  = update_where P (λ r, f (g r)) rows.
Proof.
  intros Hg. unfold update_where. rewrite <- list_fmap_compose.
  apply list_fmap_ext. intros _ r _. cbn.
  destruct (P r) eqn:HP; [by rewrite Hg, HP | by rewrite HP].
Qed.

Lemma single_Some rows r : single rows = Some r ↔ rows = [r].
Proof.
  destruct rows as [|x [|y rows]]; cbn; split; intros H;
    by simplify_eq.
Qed.
End tables.

(** The spread keeps every field the update does not name and takes the
    update's value for every field it names. *)
Lemma spread_field (s : SystemState) (u : SystemStateUpdate) (f : Field) :
  get_field f (spread s u) = default (get_field f s) (named f u).
Proof.
  destruct f, u; cbn;
    match goal with |- context [default _ ?o] => by destruct o end.
Qed.

(** ** Closed forms of the session-table writes *)

Lemma is_session_write_state c u s : is_session c (write_state c u s) = is_session c s.
Proof. unfold write_state. by destruct (session c). Qed.

Lemma updateSessionState_sessions st c u :
  training_sessions (updateSessionState st c u)
  = update_where (is_session c) (write_state c u) (training_sessions st).
Proof.
  unfold updateSessionState, write_state.
  destruct (session c); [done|]. by rewrite update_where_id.
Qed.

Lemma updateSessionState_others st c u :
  session_participants (updateSessionState st c u) = session_participants st
  ∧ session_events (updateSessionState st c u) = session_events st
  ∧ key_authorizations (updateSessionState st c u) = key_authorizations st
  ∧ next_id (updateSessionState st c u) = next_id st.
Proof. unfold updateSessionState. by destruct (session c). Qed.

Lemma handleInitialize_sessions st c :
  training_sessions (handleInitialize st c)
  = update_where (is_session c)
      (λ s, set_status active (set_current_step 1
                                 (write_state c (upd_initialized true) s)))
      (training_sessions st).
Proof.
  unfold handleInitialize. store_simpl.
  rewrite updateSessionState_sessions.
  apply (update_where_compose (is_session c)
           (λ s, set_status active (set_current_step 1 s))
           (write_state c (upd_initialized true))).
  apply is_session_write_state.
Qed.

Lemma diagnosticsTimer_sessions st c r :
  training_sessions (diagnosticsTimer st c r)
  = update_where (is_session c)
      (λ s, let s1 := write_state c (upd_diagnosticsPassed (diagnostics_outcome r)) s in
            if diagnostics_outcome r then set_current_step 2 s1 else s1)
      (training_sessions st).
Proof.
  unfold diagnosticsTimer. destruct (diagnostics_outcome r); store_simpl;
    rewrite updateSessionState_sessions; [|done].
  apply (update_where_compose (is_session c) (set_current_step 2)
           (write_state c (upd_diagnosticsPassed true))).
  apply is_session_write_state.
Qed.

Lemma handleInitialize_writes_merge st c :
  writes_merge (upd_initialized true) c st (handleInitialize st c).
Proof.
  intros i s Hi. rewrite handleInitialize_sessions, update_where_lookup, Hi.
  cbn [fmap option_fmap option_map]. unfold is_session, write_state.
  eexists; split; [done|]. case_bool_decide as Hid.
  - split; [by destruct (session c)|]. split; [done|].
    intros _ sess ->. intros f. apply spread_field.
  - done.
Qed.

Lemma diagnosticsTimer_writes_merge st c r :
  writes_merge (upd_diagnosticsPassed (diagnostics_outcome r)) c st
    (diagnosticsTimer st c r).
Proof.
  intros i s Hi. rewrite diagnosticsTimer_sessions, update_where_lookup, Hi.
  cbn [fmap option_fmap option_map]. unfold is_session, write_state.
  eexists; split; [done|]. case_bool_decide as Hid.
  - split; [by destruct (session c), (diagnostics_outcome r)|]. split; [done|].
    intros _ sess ->. intros f.
    destruct (diagnostics_outcome r); apply spread_field.
  - done.
Qed.

(** C10. Every write of [updateSessionState] puts, into the row of the
    client's session, the client's last-read system state with only the
    fields named by the update replaced.  For initialize and the diagnostics
    callback the named field is [initialized], resp. [diagnosticsPassed]:
    every other field of the written record equals what the client last
    read.
    Hence, when the last-read record is the stored one (sequential
    execution, no write in between), every other field is unchanged by the
    operation. *)
Theorem system_state_write_is_merge
    (st : Store) (c : Client) (r : Q) (i : nat)
    (s sess : TrainingSession) :
  training_sessions st !! i = Some s →
  s_id s = sessionId c →
  session c = Some sess →
  (∀ u, ∃ s', training_sessions (updateSessionState st c u) !! i = Some s' ∧
     ∀ f, get_field f (system_state s')
          = default (get_field f (system_state sess)) (named f u))
  ∧
  (∃ s', training_sessions (handleInitialize st c) !! i = Some s' ∧
     initialized (system_state s') = true ∧
     (∀ f, f ≠ f_initialized →
        get_field f (system_state s') = get_field f (system_state sess)) ∧
     (system_state sess = system_state s →
      ∀ f, f ≠ f_initialized →
        get_field f (system_state s') = get_field f (system_state s)))
  ∧
  (∃ s', training_sessions (diagnosticsTimer st c r) !! i = Some s' ∧
     diagnosticsPassed (system_state s') = diagnostics_outcome r ∧
     (∀ f, f ≠ f_diagnosticsPassed →
        get_field f (system_state s') = get_field f (system_state sess)) ∧
     (system_state sess = system_state s →
      ∀ f, f ≠ f_diagnosticsPassed →
        get_field f (system_state s') = get_field f (system_state s))).
Proof.
  intros Hi Hid Hsess. split; [|split].
  - intros u. rewrite updateSessionState_sessions, update_where_lookup, Hi.
    cbn [fmap option_fmap option_map]. unfold is_session, write_state.
    rewrite bool_decide_eq_true_2, Hsess by done. eexists. split; [done|].
    intros f. apply spread_field.
  - destruct (handleInitialize_writes_merge st c i s Hi)
      as (s' & Hs' & _ & _ & Hm).
    specialize (Hm Hid sess Hsess). exists s'. split; [done|].
    split; [|split].
    + specialize (Hm f_initialized). cbn in Hm. by simplify_eq.
    + intros f Hf. rewrite Hm. by destruct f.
    + intros <- f Hf. rewrite Hm. by destruct f.
  - destruct (diagnosticsTimer_writes_merge st c r i s Hi)
      as (s' & Hs' & _ & _ & Hm).
    specialize (Hm Hid sess Hsess). exists s'. split; [done|].
    split; [|split].
    + specialize (Hm f_diagnosticsPassed). cbn in Hm. by simplify_eq.
    + intros f Hf. rewrite Hm. by destruct f.
    + intros <- f Hf. rewrite Hm. by destruct f.
Qed.

(** ** Lobby: resolving codes, assigning roles, joining once *)


Lemma filter_empty {A} (P : A → Prop) `{∀ x, Decision (P x)} (l : list A) :
  (∀ x, x ∈ l → ¬ P x) → filter P l = [].
Proof.
  induction l as [|x l IH]; intros Hl; [done|].
  rewrite filter_cons_False; [|apply Hl; left].
  apply IH. intros y Hy. apply Hl. by right.
Qed.

Lemma participant_of_absent st sid uid :
  ¬ is_participant st sid uid → participant_of st sid uid = None.
Proof.
  intros Hno. unfold participant_of. rewrite filter_empty; [done|].
  intros p Hp [Hs Hu]. apply Hno. by exists p.
Qed.

(** With unique keys, the rows selected by a predicate that fixes the key
    form a singleton as soon as one exists. *)
Lemma unique_filter {A K} (k : A → K) (P : A → Prop) `{∀ x, Decision (P x)}
    (l : list A) (p : A) :
  NoDup (k <$> l) → p ∈ l → P p → (∀ q, P q → k q = k p) →
  filter P l = [p].
Proof.
  intros Hnd Hin Hp Hk.
  induction l as [|x l IH]; [by apply elem_of_nil in Hin|].
  rewrite fmap_cons in Hnd. apply NoDup_cons in Hnd as [Hx Hnd].
  apply elem_of_cons in Hin as [->|Hin].
  - rewrite filter_cons_True by done. f_equal. apply filter_empty.
    intros q Hq HPq. apply Hx. apply list_elem_of_fmap.
    exists q. split; [|done]. symmetry. by apply Hk.
  - rewrite filter_cons_False; [by apply IH|].
    intros HPx. apply Hx. apply list_elem_of_fmap.
    exists p. split; [|done]. by apply Hk.
Qed.

Lemma unique_filter_cases {A K} (k : A → K) (P : A → Prop)
    `{∀ x, Decision (P x)} (l : list A) (key : K) :
  NoDup (k <$> l) → (∀ q, P q → k q = key) →
  filter P l = [] ∨ ∃ p, filter P l = [p] ∧ p ∈ l ∧ P p.
Proof.
  intros Hnd Hk. destruct (filter P l) as [|p l'] eqn:Hf; [by left|].
  assert (p ∈ filter P l) as [Hp Hin]%list_elem_of_filter by (rewrite Hf; left).
  right. exists p. rewrite <- Hf. split; [|done].
  apply (unique_filter k); try done. intros q Hq. by rewrite !Hk.
Qed.

Lemma participant_filter_cases st sid uid :
  participants_unique st →
  filter (λ p, p_session_id p = sid ∧ p_user_id p = uid)
    (session_participants st) = []
  ∨ ∃ p, filter (λ p, p_session_id p = sid ∧ p_user_id p = uid)
           (session_participants st) = [p]
         ∧ p ∈ session_participants st
         ∧ p_session_id p = sid ∧ p_user_id p = uid.
Proof.
  intros Hu.
  destruct (unique_filter_cases member_key
              (λ p, p_session_id p = sid ∧ p_user_id p = uid)
              (session_participants st) (sid, uid) Hu) as [?|(p & ? & ? & ?)].
  - intros q [<- <-]. done.
  - by left.
  - right. by exists p.
Qed.

Lemma participant_of_present st sid uid :
  participants_unique st → is_participant st sid uid →
  ∃ p, participant_of st sid uid = Some p ∧ p ∈ session_participants st
       ∧ p_session_id p = sid ∧ p_user_id p = uid.
Proof.
  intros Hu (p & Hin & Hs & Hp).
  destruct (participant_filter_cases st sid uid Hu) as [He|(q & Hq & ?)].
  - exfalso. eapply (filter_nil_not_elem_of _ _ p He); done.
  - exists q. unfold participant_of. by rewrite Hq.
Qed.

Lemma participant_of_None st sid uid :
  participants_unique st → participant_of st sid uid = None →
  ¬ is_participant st sid uid.
Proof.
  intros Hu Hnone Hp.
  destruct (participant_of_present st sid uid Hu Hp) as (p & Hsome & _).
  congruence.
Qed.

Lemma session_by_code_unique st session :
  codes_unique st → session ∈ training_sessions st →
  session_by_code st (session_code session) = Some session.
Proof.
  intros Hu Hin. unfold session_by_code.
  by rewrite (unique_filter session_code _ _ session Hu Hin).
Qed.

Lemma next_role_spec (roles : list SessionRole) :
  (operator_a ∉ roles → next_role roles = operator_a)
  ∧ (operator_a ∈ roles → operator_b ∉ roles → next_role roles = operator_b)
  ∧ (operator_a ∈ roles → operator_b ∈ roles → next_role roles = observer).
Proof.
  unfold next_role. repeat split; intros; repeat case_bool_decide; done.
Qed.

Lemma holds_role_roles st sid r :
  holds_role st sid r ↔ r ∈ role <$> participants_of st sid.
Proof.
  unfold holds_role, participants_of. rewrite list_elem_of_fmap. split.
  - intros (p & Hin & Hs & Hr). exists p. split; [done|].
    apply list_elem_of_filter. done.
  - intros (p & Hr & Hin). apply list_elem_of_filter in Hin as [Hs Hin].
    by exists p.
Qed.

(** The three outcomes of [joinSession] once the code has resolved. *)
Lemma joinSession_resolved st userId code now pe session :
  session_by_code st (toUpperCase code) = Some session →
  joinSession st userId code now pe =
    match participant_of st (s_id session) userId, pe with
    | Some _, _ => (st, Joined (s_id session))
    | None, Some m => (st, Failed m)
    | None, None =>
      let r := next_role (role <$> participants_of st (s_id session)) in
      (insert_event (insert_participant st (s_id session) userId r now)
         (s_id session) (Some userId) "participant_joined"
         [("role", JStr (role_name r))],
       Joined (s_id session))
    end.
Proof.
  intros Hs. unfold joinSession. rewrite Hs.
  by destruct (participant_of st (s_id session) userId), pe.
Qed.

(** C4. A joining user who is not yet a participant of the resolved session
    gets [operator_a] if no participant of that session holds it, otherwise
    [operator_b] if no participant holds it, otherwise [observer]; the row is
    appended with that role.  The creator's row is inserted by
    [createSession] with role [instructor], without consulting the roles
    present. *)
Theorem role_assignment_on_join
    (st : Store) (userId : Id) (code : string) (now : Timestamp)
    (session : TrainingSession) :
  session_by_code st (toUpperCase code) = Some session →
  ¬ is_participant st (s_id session) userId →
  (∃ r,
     (joinSession st userId code now None).2 = Joined (s_id session)
     ∧ session_participants (joinSession st userId code now None).1
       = (session_participants st
            ++ [participant_row (next_id st) (s_id session) userId r now])%list
     ∧ (¬ holds_role st (s_id session) operator_a → r = operator_a)
     ∧ (holds_role st (s_id session) operator_a →
        ¬ holds_role st (s_id session) operator_b → r = operator_b)
     ∧ (holds_role st (s_id session) operator_a →
        holds_role st (s_id session) operator_b → r = observer))
  ∧ (∀ creator sessionCode runId now',
       (createSession st creator (Ok sessionCode) runId now' None None).2
         = Joined (next_id st)
       ∧ session_participants
           (createSession st creator (Ok sessionCode) runId now' None None).1
         = (session_participants st
              ++ [participant_row (S (next_id st)) (next_id st) creator
                    instructor now'])%list).
Proof.
  intros Hs Hno. split; [|done].
  rewrite (joinSession_resolved _ _ _ _ _ _ Hs),
    (participant_of_absent _ _ _ Hno).
  eexists. split; [done|]. split; [done|].
  destruct (next_role_spec (role <$> participants_of st (s_id session)))
    as (Ha & Hb & Ho).
  rewrite !holds_role_roles. auto.
Qed.

(** C5. In a store with at most one row per session and user, a join by a
    user who already has a participant row of the resolved session writes
    nothing (the store, hence the row and its role, is returned as it was)
    and enters the session; and after a first accepted join, the user has
    exactly one row and any further join leaves the store as it is. *)
Theorem join_is_idempotent
    (st : Store) (userId : Id) (code : string) (now : Timestamp)
    (pe : option string) (session : TrainingSession) :
  participants_unique st →
  session_by_code st (toUpperCase code) = Some session →
  (is_participant st (s_id session) userId →
   joinSession st userId code now pe = (st, Joined (s_id session)))
  ∧ (let st1 := (joinSession st userId code now None).1 in
     membership_count st1 (s_id session) userId = 1
     ∧ ∀ t e, joinSession st1 userId code t e = (st1, Joined (s_id session))).
Proof.
  intros Hu Hs. split.
  - intros Hp. rewrite (joinSession_resolved _ _ _ _ _ _ Hs).
    by destruct (participant_of_present _ _ _ Hu Hp) as (p & -> & _).
  - cbn zeta. rewrite (joinSession_resolved _ _ _ _ _ _ Hs).
    unfold membership_count.
    destruct (participant_filter_cases st (s_id session) userId Hu)
      as [He|(p & Hp & Hin & Hps & Hpu)].
    + assert (Hpo : participant_of st (s_id session) userId = None)
        by (unfold participant_of; by rewrite He).
      rewrite Hpo. store_simpl.
      rewrite filter_app, He, filter_cons_True by done.
      split; [done|]. intros t e.
      rewrite joinSession_resolved with (session := session) by done.
      unfold participant_of. store_simpl.
      by rewrite filter_app, He, filter_cons_True.
    + assert (Hpo : participant_of st (s_id session) userId = Some p)
        by (unfold participant_of; by rewrite Hp).
      rewrite Hpo. store_simpl. rewrite Hp.
      split; [done|]. intros t e.
      rewrite (joinSession_resolved _ _ _ _ _ _ Hs). by rewrite Hpo.
Qed.

(** C6. The lookup depends on the code only up to the case of its letters:
    codes that differ in case give the same join.  Every casing of the code
    of a stored session (codes unique, stored in upper case) resolves to
    that session, so the join can only fail through the store's verdict on
    the insert.  When the code resolves to no session the join fails with
    the [Session not found] error and the store is returned unchanged, so no
    participant and no event row is written. *)
Theorem join_by_code_ignores_case
    (st : Store) (userId : Id) (code : string) (now : Timestamp)
    (pe : option string) :
  (∀ code2, same_ignoring_case code code2 →
     joinSession st userId code2 now pe = joinSession st userId code now pe)
  ∧ (∀ session,
       codes_unique st → session ∈ training_sessions st →
       toUpperCase (session_code session) = session_code session →
       same_ignoring_case code (session_code session) →
       session_by_code st (toUpperCase code) = Some session
       ∧ (pe = None →
          (joinSession st userId code now pe).2 = Joined (s_id session)))
  ∧ (session_by_code st (toUpperCase code) = None →
     joinSession st userId code now pe = (st, Failed SessionNotFound)).
Proof.
  split; [|split].
  - intros code2 Hc. unfold joinSession. by rewrite Hc.
  - intros session Hu Hin Hup Hc.
    assert (Hs : session_by_code st (toUpperCase code) = Some session).
    { rewrite Hc, Hup. by apply session_by_code_unique. }
    split; [done|]. intros ->.
    rewrite (joinSession_resolved _ _ _ _ _ _ Hs).
    by destruct (participant_of st (s_id session) userId).
  - intros Hnone. unfold joinSession. by rewrite Hnone.
Qed.

(** C9. In a store with at most one row per session and user, a join by a
    user who already has a participant row of the resolved session leaves
    the event log as it is.  In general a join either leaves the log as it
    is, or the user had no row, the row is inserted and exactly one
    [participant_joined] event carrying the row's role is appended. *)
Theorem rejoin_appends_no_event
    (st : Store) (userId : Id) (code : string) (now : Timestamp)
    (pe : option string) :
  participants_unique st →
  ((∃ session, session_by_code st (toUpperCase code) = Some session
               ∧ is_participant st (s_id session) userId) →
   session_events (joinSession st userId code now pe).1 = session_events st)
  ∧ (session_events (joinSession st userId code now pe).1 = session_events st
     ∨ ∃ session r,
         session_by_code st (toUpperCase code) = Some session
         ∧ ¬ is_participant st (s_id session) userId
         ∧ session_participants (joinSession st userId code now pe).1
           = (session_participants st
                ++ [participant_row (next_id st) (s_id session) userId r now])%list
         ∧ session_events (joinSession st userId code now pe).1
           = (session_events st
                ++ [joined_event (S (next_id st)) (s_id session) userId r])%list).
Proof.
  intros Hu. split.
  - intros (session & Hs & Hp).
    rewrite (joinSession_resolved _ _ _ _ _ _ Hs).
    by destruct (participant_of_present _ _ _ Hu Hp) as (p & -> & _).
  - destruct (session_by_code st (toUpperCase code)) as [session|] eqn:Hs.
    + rewrite (joinSession_resolved _ _ _ _ _ _ Hs).
      destruct (participant_of st (s_id session) userId) eqn:Hp; [by left|].
      destruct pe; [by left|]. right. eexists session, _.
      split; [done|]. split; [by apply participant_of_None|]. done.
    + left. unfold joinSession. by rewrite Hs.
Qed.

(** ** Key authorization: submission and completion check *)

Lemma handleKeySubmit_Some st c now st1 c1 :
  handleKeySubmit st c now = Some (st1, c1) →
  is_Some (session c) ∧ is_Some (userRole c).
Proof.
  unfold handleKeySubmit. by destruct (session c), (userRole c).
Qed.

(** The tables after the submission part, by role. *)
Lemma handleKeySubmit_tables st c now st1 c1 :
  handleKeySubmit st c now = Some (st1, c1) →
  training_sessions st1 = training_sessions st
  ∧ session_participants st1 = session_participants st
  ∧ key_authorizations st1 =
      match userRole c with
      | Some operator_a =>
        if String.length (operatorAKey c) =? 8 then
          upsert_key_row c (set_operator_a (operatorAKey c) now)
            (fresh_key_row (next_id st) (sessionId c)
               (Some (operatorAKey c)) None (Some now) None)
            (key_authorizations st)
        else key_authorizations st
      | Some operator_b =>
        if String.length (operatorBKey c) =? 8 then
          upsert_key_row c (set_operator_b (operatorBKey c) now)
            (fresh_key_row (next_id st) (sessionId c)
               None (Some (operatorBKey c)) None (Some now))
            (key_authorizations st)
        else key_authorizations st
      | _ => key_authorizations st
      end
  ∧ next_id st ≤ next_id st1.
Proof.
  unfold handleKeySubmit, upsert_key_row.
  destruct (session c); [|done].
  destruct (userRole c) as [[]|]; [| | | |done];
    rewrite ?bool_decide_eq_true_2, ?bool_decide_eq_false_2 by done;
    cbn [andb];
    try destruct (String.length (operatorAKey c) =? 8);
    try destruct (String.length (operatorBKey c) =? 8);
    destruct (keyAuth c); intros [= <- <-]; store_simpl;
    repeat split; try done; lia.
Qed.

Lemma filter_update_where {A} (Q : A → Prop) `{∀ x, Decision (Q x)}
    (P : A → bool) (f : A → A) (rows : list A) :
  (∀ r, Q (f r) ↔ Q r) →
  filter Q (update_where P f rows) = update_where P f (filter Q rows).
Proof.
  intros Hf. unfold update_where.
  induction rows as [|r rows IH]; [done|]. rewrite fmap_cons.
  assert (HQ : Q (if P r then f r else r) ↔ Q r) by (by destruct (P r)).
  destruct (decide (Q r)) as [Hr|Hr].
  - rewrite !filter_cons_True, fmap_cons, IH by (done || by apply HQ). done.
  - rewrite !filter_cons_False, IH by (done || by rewrite HQ). done.
Qed.

Lemma last_update_where {A} (P : A → bool) (f : A → A) (rows : list A) :
  last (update_where P f rows) = (λ r, if P r then f r else r) <$> last rows.
Proof. unfold update_where. apply fmap_last. Qed.

(** The completion check does nothing unless the latest row of the session
    carries both timestamps. *)
Lemma completionTimer_idle st c :
  (∀ k, latest_key_authorization st (sessionId c) = Some k →
        ¬ both_authenticated k) →
  completionTimer st c = st.
Proof.
  intros Hno. unfold completionTimer.
  destruct (latest_key_authorization st (sessionId c)) as [k|]; [|done].
  specialize (Hno k eq_refl). unfold both_authenticated in Hno.
  repeat case_bool_decide; cbn [andb]; tauto.
Qed.

Lemma completionTimer_fires st c authData :
  latest_key_authorization st (sessionId c) = Some authData →
  both_authenticated authData →
  training_sessions (completionTimer st c)
    = update_where (is_session c)
        (λ s, set_current_step 3 (write_state c (upd_authenticated true) s))
        (training_sessions st)
  ∧ session_participants (completionTimer st c) = session_participants st
  ∧ session_events (completionTimer st c)
    = (session_events st ++ [completion_event (next_id st) c])%list
  ∧ key_authorizations (completionTimer st c)
    = update_where (λ row, bool_decide (k_id row = k_id authData))
        (set_key_status complete) (key_authorizations st)
  ∧ next_id (completionTimer st c) = S (next_id st).
Proof.
  intros Hl [Ha Hb]. unfold completionTimer. rewrite Hl.
  rewrite !bool_decide_eq_true_2 by done. cbn [andb]. store_simpl.
  destruct (updateSessionState_others st c (upd_authenticated true))
    as (-> & -> & -> & ->).
  rewrite updateSessionState_sessions.
  rewrite (update_where_compose (is_session c) (set_current_step 3)
             (write_state c (upd_authenticated true)))
    by apply is_session_write_state.
  done.
Qed.

(** After a check that fires, the latest row of the session is the row
    that was read, now [complete]. *)
Lemma completion_timer_latest st c authData :
  latest_key_authorization st (sessionId c) = Some authData →
  both_authenticated authData →
  latest_key_authorization (completionTimer st c) (sessionId c)
  = Some (set_key_status complete authData)
  ∧ key_authorizations (completionTimer st c)
    = update_where (λ row, bool_decide (k_id row = k_id authData))
        (set_key_status complete) (key_authorizations st).
Proof.
  intros Hl Hboth.
  destruct (completionTimer_fires st c authData Hl Hboth)
    as (_ & _ & _ & Hk & _).
  split; [|done]. unfold latest_key_authorization in *. rewrite Hk.
  rewrite filter_update_where by done.
  rewrite last_update_where, Hl. cbn [fmap option_fmap option_map].
  by rewrite bool_decide_eq_true_2.
Qed.

(** C1. The completion check is scheduled by every key submission that
    gets past the guard of [handleKeySubmit].  Whenever the check runs on a
    store in which the latest key-authorization row of the session carries
    both operator timestamps, the session row gets [authenticated = true]
    and [current_step = 3]; the row that was read is still the latest one
    and its status is [complete], with its timestamps as they were; one
    event of type [dual_key_authentication_complete] is appended for the
    session and the user.  In particular a submission that leaves such a
    store ends, with its check, in a [complete] row. *)
Theorem completion_check_effects
    (st0 : Store) (now : Timestamp) (c : Client)
    (st : Store) (authData : KeyAuthorization) :
  is_Some (handleKeySubmit st0 c now) →
  latest_key_authorization st (sessionId c) = Some authData →
  both_authenticated authData →
  (∀ i s, training_sessions st !! i = Some s → s_id s = sessionId c →
       ∃ s', training_sessions (completionTimer st c) !! i = Some s'
             ∧ s_id s' = s_id s
             ∧ authenticated (system_state s') = true
             ∧ current_step s' = 3)
  ∧ (∃ k', latest_key_authorization (completionTimer st c) (sessionId c)
           = Some k'
           ∧ k_status k' = complete
           ∧ k_id k' = k_id authData
           ∧ operator_a_auth_at k' = operator_a_auth_at authData
           ∧ operator_b_auth_at k' = operator_b_auth_at authData)
  ∧ (∀ k, k ∈ key_authorizations (completionTimer st c) →
          k_id k = k_id authData → k_status k = complete)
  ∧ (∃ e, session_events (completionTimer st c)
          = (session_events st ++ [e])%list
          ∧ event_type e = "dual_key_authentication_complete"
          ∧ e_session_id e = sessionId c
          ∧ e_user_id e = Some (userId c))
  ∧ (∀ c1, handleKeySubmit st0 c now = Some (st, c1) →
       ∃ k', latest_key_authorization (keySubmission st0 c now) (sessionId c)
             = Some k'
             ∧ k_status k' = complete).
Proof.
  intros [[st1 c1] Hsub] Hl Hboth.
  destruct (handleKeySubmit_Some _ _ _ _ _ Hsub) as [[sess Hsess] _].
  destruct (completionTimer_fires st c authData Hl Hboth)
    as (Hs & _ & He & Hk & _).
  destruct (completion_timer_latest st c authData Hl Hboth) as [Hlatest _].
  split; [|split; [|split; [|split]]].
  - intros i s Hi Hid. rewrite Hs, update_where_lookup, Hi.
    cbn [fmap option_fmap option_map]. unfold is_session, write_state.
    rewrite bool_decide_eq_true_2, Hsess by done. eexists. done.
  - exists (set_key_status complete authData). by rewrite Hlatest.
  - intros k Hin Hid. rewrite Hk in Hin. unfold update_where in Hin.
    apply list_elem_of_fmap in Hin as (k0 & -> & _).
    case_bool_decide as Hk0; [done|]. by destruct Hk0.
  - exists (completion_event (next_id st) c). by rewrite He.
  - intros c1' Hst. unfold keySubmission. rewrite Hst.
    exists (set_key_status complete authData). by rewrite Hlatest.
Qed.

(** C8 as stated fails.  A submission overwrites a row only if the
    client has polled one; on a view without a polled row it inserts.  In
    the second course of the worked session operator B's row is the latest
    of the session when operator A submits on such a view: afterwards the
    latest row of the session carries neither B's key nor B's timestamp,
    and A's second submission on that view appends a third row and leaves
    the key of A's first row as it was.  Both presses are on an enabled
    control. *)
Lemma resubmission_appends_row :
  demo_a_resubmitted = run empty_store (demo_ops ++ demo_ops_second_course)
  ∧ keyAuth demo_operator_a = None
  ∧ keySubmitEnabled demo_operator_a = true
  ∧ keySubmitEnabled demo_operator_a_again = true
  ∧ latest_key_authorization demo_b_first 0 = Some demo_row_b_only
  ∧ latest_key_authorization demo_a_unpolled 0 = Some demo_row_a_only
  ∧ operator_b_auth_at demo_row_b_only = Some 12400%Z
  ∧ operator_b_auth_at demo_row_a_only = None
  ∧ key_authorizations demo_a_unpolled = [demo_row_b_only; demo_row_a_only]
  ∧ key_authorizations demo_a_resubmitted
    = [demo_row_b_only; demo_row_a_only; demo_row_a_again].
Proof.
  do 9 (split; [vm_compute; reflexivity|]). vm_compute. reflexivity.
Qed.

(** C8, amended. A key submission by operator A leaves, on every existing
    key-authorization row, operator B's key and timestamp and the command
    key and timestamp as they were (as well as the identifier, the session
    and the status).  With a polled row, the rows of that identifier get
    the submitted key and the time of submission in operator A's columns,
    whatever these held before, no row is added, and on every other row
    operator A's columns stay.  Without a polled row no existing row is
    changed: one fresh row is appended that carries only operator A's key
    and timestamp, and it is the latest row of the session from then on.
    Symmetrically for operator B.  The completion check that follows keeps
    all six key and timestamp fields of every row. *)
Theorem key_submission_writes_own_fields
    (st : Store) (c : Client) (now : Timestamp) (st1 : Store) (c1 : Client) :
  handleKeySubmit st c now = Some (st1, c1) →
  (∀ i k, key_authorizations st !! i = Some k →
     ∃ k', key_authorizations st1 !! i = Some k'
       ∧ k_id k' = k_id k ∧ k_session_id k' = k_session_id k
       ∧ command_key k' = command_key k
       ∧ command_auth_at k' = command_auth_at k
       ∧ k_status k' = k_status k
       ∧ (userRole c = Some operator_a →
          operator_b_key k' = operator_b_key k
          ∧ operator_b_auth_at k' = operator_b_auth_at k
          ∧ operator_a_key k'
            = (if rewrites_row (operatorAKey c) c k
               then Some (operatorAKey c) else operator_a_key k)
          ∧ operator_a_auth_at k'
            = (if rewrites_row (operatorAKey c) c k
               then Some now else operator_a_auth_at k))
       ∧ (userRole c = Some operator_b →
          operator_a_key k' = operator_a_key k
          ∧ operator_a_auth_at k' = operator_a_auth_at k
          ∧ operator_b_key k'
            = (if rewrites_row (operatorBKey c) c k
               then Some (operatorBKey c) else operator_b_key k)
          ∧ operator_b_auth_at k'
            = (if rewrites_row (operatorBKey c) c k
               then Some now else operator_b_auth_at k)))
  ∧ (userRole c = Some operator_a →
     key_authorizations st1
     = (take (length (key_authorizations st)) (key_authorizations st1)
        ++ (if appends_row (operatorAKey c) c
            then [fresh_key_row (next_id st) (sessionId c)
                    (Some (operatorAKey c)) None (Some now) None]
            else []))%list)
  ∧ (userRole c = Some operator_b →
     key_authorizations st1
     = (take (length (key_authorizations st)) (key_authorizations st1)
        ++ (if appends_row (operatorBKey c) c
            then [fresh_key_row (next_id st) (sessionId c)
                    None (Some (operatorBKey c)) None (Some now)]
            else []))%list)
  ∧ (∀ i k1, key_authorizations st1 !! i = Some k1 →
       ∃ k2, key_authorizations (completionTimer st1 c) !! i = Some k2
         ∧ operator_a_key k2 = operator_a_key k1
         ∧ operator_a_auth_at k2 = operator_a_auth_at k1
         ∧ operator_b_key k2 = operator_b_key k1
         ∧ operator_b_auth_at k2 = operator_b_auth_at k1
         ∧ command_key k2 = command_key k1
         ∧ command_auth_at k2 = command_auth_at k1)
  ∧ (is_Some (keyAuth c) →
     length (key_authorizations st1) = length (key_authorizations st))
  ∧ (keyAuth c = None →
     (userRole c = Some operator_a → String.length (operatorAKey c) = 8 →
      key_authorizations st1
      = (key_authorizations st
         ++ [fresh_key_row (next_id st) (sessionId c)
               (Some (operatorAKey c)) None (Some now) None])%list
      ∧ latest_key_authorization st1 (sessionId c)
        = Some (fresh_key_row (next_id st) (sessionId c)
                  (Some (operatorAKey c)) None (Some now) None))
     ∧ (userRole c = Some operator_b → String.length (operatorBKey c) = 8 →
        key_authorizations st1
        = (key_authorizations st
           ++ [fresh_key_row (next_id st) (sessionId c)
                 None (Some (operatorBKey c)) None (Some now)])%list
        ∧ latest_key_authorization st1 (sessionId c)
          = Some (fresh_key_row (next_id st) (sessionId c)
                    None (Some (operatorBKey c)) None (Some now)))).
Proof.
  intros Hsub.
  destruct (handleKeySubmit_tables _ _ _ _ _ Hsub) as (_ & _ & Hk & _).
  assert (Hlast : ∀ rows fresh, k_session_id fresh = sessionId c →
            last (filter (λ k, k_session_id k = sessionId c)
                    (rows ++ [fresh])%list) = Some fresh).
  { intros rows fresh Hf. rewrite filter_app, filter_cons_True by done.
    rewrite filter_nil. apply last_snoc. }
  split; [|split; [|split; [|split; [|split]]]].
  - intros i k Hi. rewrite Hk. unfold upsert_key_row, rewrites_row.
    destruct (userRole c) as [[]|];
      try destruct (String.length (operatorAKey c) =? 8);
      try destruct (String.length (operatorBKey c) =? 8);
      destruct (keyAuth c) as [polled|]; cbn [andb];
      rewrite ?update_where_lookup, ?(lookup_app_l _ _ _ (lookup_lt_Some _ _ _ Hi)), Hi;
      cbn [fmap option_fmap option_map];
      try case_bool_decide;
      (eexists; split; [done|]); repeat split; done.
  - intros Hr. rewrite Hk, Hr. unfold upsert_key_row, appends_row.
    destruct (String.length (operatorAKey c) =? 8), (keyAuth c); cbn [andb];
      rewrite ?take_app_length, ?app_nil_r; try done;
      by rewrite take_ge by (rewrite ?update_where_length; lia).
  - intros Hr. rewrite Hk, Hr. unfold upsert_key_row, appends_row.
    destruct (String.length (operatorBKey c) =? 8), (keyAuth c); cbn [andb];
      rewrite ?take_app_length, ?app_nil_r; try done;
      by rewrite take_ge by (rewrite ?update_where_length; lia).
  - intros i k1 Hi.
    destruct (latest_key_authorization st1 (sessionId c)) as [authData|] eqn:Hl.
    + destruct (decide (both_authenticated authData)) as [Hb|Hb].
      * destruct (completionTimer_fires st1 c authData Hl Hb)
          as (_ & _ & _ & -> & _).
        rewrite update_where_lookup, Hi. cbn [fmap option_fmap option_map].
        case_bool_decide; eexists; (split; [done|]); done.
      * rewrite completionTimer_idle; [by eauto 10|].
        intros k Hk'. by simplify_eq.
    + rewrite completionTimer_idle; [by eauto 10|]. intros k Hk'. congruence.
  - intros [polled Hp]. rewrite Hk. unfold upsert_key_row. rewrite Hp.
    destruct (userRole c) as [[]|];
      try destruct (String.length (operatorAKey c) =? 8);
      try destruct (String.length (operatorBKey c) =? 8);
      by rewrite ?update_where_length.
  - intros Hnone. unfold latest_key_authorization. rewrite Hk.
    unfold upsert_key_row. rewrite Hnone.
    split; intros -> ->%Nat.eqb_eq; (split; [done|]); by apply Hlast.
Qed.

(** ** Reachable stores are well formed *)

Section list_facts.
Context {A : Type}.
Implicit Types (P : A → bool) (f : A → A) (rows : list A).

Lemma Forall_update_where (Q : A → Prop) P f rows :
  (∀ r, r ∈ rows → Q r → P r = true → Q (f r)) →
  Forall Q rows → Forall Q (update_where P f rows).
Proof.
  intros Hf HQ. unfold update_where. apply Forall_fmap.
  apply Forall_forall. intros r Hr. rewrite Forall_forall in HQ. cbn.
  destruct (P r) eqn:HP; auto.
Qed.

Lemma fmap_update_where {K} (k : A → K) P f rows :
  (∀ r, k (f r) = k r) → k <$> update_where P f rows = k <$> rows.
Proof.
  intros Hk. unfold update_where. rewrite <- list_fmap_compose.
  apply list_fmap_ext. intros _ r _. cbn. by destruct (P r).
Qed.

Lemma Forall_lt_mono (k : A → nat) (n m : nat) rows :
  n ≤ m → Forall (λ r, k r < n) rows → Forall (λ r, k r < m) rows.
Proof.
  intros Hle H. eapply Forall_impl; [done|]. intros r Hr. cbn in *. lia.
Qed.

Lemma NoDup_snoc_fresh (k : A → nat) (n : nat) rows (r : A) :
  Forall (λ x, k x < n) rows → k r = n → NoDup (k <$> rows) →
  NoDup (k <$> (rows ++ [r])%list).
Proof.
  intros Hlt Hr Hnd. rewrite fmap_app. apply NoDup_app.
  split; [done|]. split; [|apply NoDup_singleton].
  intros x Hx Hx'. apply list_elem_of_fmap in Hx as (y & -> & Hy).
  apply list_elem_of_singleton in Hx'. rewrite Forall_forall in Hlt.
  specialize (Hlt y Hy). cbn in Hx'. lia.
Qed.

Lemma NoDup_fmap_filter {K} (k : A → K) (Q : A → Prop)
    `{∀ x, Decision (Q x)} rows :
  NoDup (k <$> rows) → NoDup (k <$> filter Q rows).
Proof.
  induction rows as [|r rows IH]; [done|]. rewrite fmap_cons.
  intros [Hr Hnd]%NoDup_cons. destruct (decide (Q r)).
  - rewrite filter_cons_True, fmap_cons by done. apply NoDup_cons.
    split; [|by apply IH]. intros Hin. apply Hr.
    apply list_elem_of_fmap in Hin as (x & -> & [_ Hx]%list_elem_of_filter).
    apply list_elem_of_fmap. by exists x.
  - rewrite filter_cons_False by done. by apply IH.
Qed.
End list_facts.

Ltac lt_mono := eapply Forall_lt_mono; [|eassumption]; cbn; lia.

Lemma store_wf_insert_event st sid uid ty data :
  store_wf st → store_wf (insert_event st sid uid ty data).
Proof.
  intros [H1 H2 H3 H4 H5 H6]. split; store_simpl; try done;
    lt_mono.
Qed.

Lemma store_wf_update_sessions st P f :
  (∀ s, s_id (f s) = s_id s) →
  store_wf st → store_wf (with_sessions (update_where P f) st).
Proof.
  intros Hf [H1 H2 H3 H4 H5 H6]. split; store_simpl; try done.
  apply Forall_update_where; [|done]. intros s _ Hs _. by rewrite Hf.
Qed.

Lemma store_wf_updateSessionState st c u :
  store_wf st → store_wf (updateSessionState st c u).
Proof.
  intros Hwf. unfold updateSessionState. destruct (session c); [|done].
  by apply store_wf_update_sessions.
Qed.

Lemma store_wf_insert_session st code creator status runId step state :
  store_wf st →
  store_wf (insert_session st code creator status runId step state).1.
Proof.
  intros [H1 H2 H3 H4 H5 H6]. split; cbn [insert_session]; store_simpl; try done.
  - apply Forall_app. split; [lt_mono|].
    apply Forall_singleton. cbn. lia.
  - lt_mono.
  - lt_mono.
Qed.

Lemma store_wf_insert_participant st sid uid r now :
  sid ≤ next_id st → ¬ is_participant st sid uid →
  store_wf st → store_wf (insert_participant st sid uid r now).
Proof.
  intros Hsid Hno [H1 H2 H3 H4 H5 H6].
  split; store_simpl; try done; try (lt_mono).
  - apply Forall_app. split; [lt_mono|].
    apply Forall_singleton. cbn. lia.
  - unfold participants_unique in *. store_simpl. rewrite fmap_app.
    apply NoDup_app. split; [done|]. split; [|apply NoDup_singleton].
    intros key Hk Hk'. apply list_elem_of_singleton in Hk'.
    apply list_elem_of_fmap in Hk as (p & -> & Hp). apply Hno.
    exists p. unfold member_key in Hk'. cbn in Hk'. by simplify_eq.
Qed.

Lemma store_wf_touch_participants st P t :
  store_wf st →
  store_wf (with_participants (update_where P (set_last_seen t)) st).
Proof.
  intros [H1 H2 H3 H4 H5 H6]. split; store_simpl; try done.
  - apply Forall_update_where; [|done]. by intros p _ Hp _.
  - unfold participants_unique in *. store_simpl.
    by rewrite fmap_update_where.
Qed.

Lemma store_wf_filter_participants st (Q : SessionParticipant → Prop)
    `{∀ p, Decision (Q p)} :
  store_wf st → store_wf (with_participants (filter Q) st).
Proof.
  intros [H1 H2 H3 H4 H5 H6]. split; store_simpl; try done.
  - apply Forall_forall. intros p [_ Hp]%list_elem_of_filter.
    rewrite Forall_forall in H2. by apply H2.
  - unfold participants_unique in *. store_simpl. by apply NoDup_fmap_filter.
Qed.

Lemma store_wf_insert_key_authorization st sid a_key b_key a_at b_at :
  store_wf st →
  store_wf (insert_key_authorization st sid a_key b_key a_at b_at).
Proof.
  intros [H1 H2 H3 H4 H5 H6].
  split; store_simpl; try done; try (lt_mono).
  - apply Forall_app. split; [lt_mono|].
    apply Forall_singleton. cbn. lia.
  - by apply (NoDup_snoc_fresh k_id (next_id st)).
  - apply Forall_app. split; [done|]. apply Forall_singleton.
    split; cbn; unfold default_key_status; done.
Qed.

Lemma store_wf_update_keys st P f :
  (∀ k, k_id (f k) = k_id k) →
  (∀ k, k ∈ key_authorizations st → key_row_ok k → P k = true →
        key_row_ok (f k)) →
  store_wf st → store_wf (with_key_authorizations (update_where P f) st).
Proof.
  intros Hid Hok [H1 H2 H3 H4 H5 H6]. split; store_simpl; try done.
  - apply Forall_update_where; [|done]. intros k _ Hk _. by rewrite Hid.
  - by rewrite fmap_update_where.
  - by apply Forall_update_where.
Qed.

Lemma NoDup_fmap_inj {A K} (k : A → K) (rows : list A) (x y : A) :
  NoDup (k <$> rows) → x ∈ rows → y ∈ rows → k x = k y → x = y.
Proof.
  induction rows as [|r rows IH]; [by intros _ ?%elem_of_nil|].
  rewrite fmap_cons. intros [Hr Hnd]%NoDup_cons.
  intros [->|Hx]%elem_of_cons [->|Hy]%elem_of_cons Hk; auto.
  - exfalso. apply Hr. rewrite Hk. apply list_elem_of_fmap. by exists y.
  - exfalso. apply Hr. rewrite <- Hk. apply list_elem_of_fmap. by exists x.
Qed.

Lemma latest_key_authorization_elem st sid k :
  latest_key_authorization st sid = Some k →
  k ∈ key_authorizations st ∧ k_session_id k = sid.
Proof.
  unfold latest_key_authorization. intros Hl.
  apply last_Some_elem_of, list_elem_of_filter in Hl. tauto.
Qed.

Lemma session_by_code_elem st code s :
  session_by_code st code = Some s →
  s ∈ training_sessions st ∧ session_code s = code.
Proof.
  unfold session_by_code. intros Hs%single_Some.
  assert (s ∈ filter (λ s, session_code s = code) (training_sessions st))
    as [? ?]%list_elem_of_filter by (rewrite Hs; left). done.
Qed.

Lemma session_by_id_elem st sid s :
  session_by_id st sid = Some s → s ∈ training_sessions st ∧ s_id s = sid.
Proof.
  unfold session_by_id. intros Hs%single_Some.
  assert (s ∈ filter (λ s, s_id s = sid) (training_sessions st))
    as [? ?]%list_elem_of_filter by (rewrite Hs; left). done.
Qed.

Lemma store_wf_createSession st u rpc runId now se pe :
  store_wf st → store_wf (createSession st u rpc runId now se pe).1.
Proof.
  intros Hwf. unfold createSession.
  destruct rpc as [code|]; [|done]. destruct se; [done|].
  pose proof (store_wf_insert_session st code u waiting runId 0
                initial_system_state Hwf) as Hwf1.
  cbn [insert_session] in *. destruct pe; [done|]. cbn [fst s_id] in *.
  apply store_wf_insert_participant; [store_simpl; lia| |done].
  intros (p & Hp & Hs & _). store_simpl.
  destruct Hwf as [_ H2 _ _ _ _]. rewrite Forall_forall in H2.
  specialize (H2 p Hp). lia.
Qed.

Lemma store_wf_joinSession st u code now pe :
  store_wf st → store_wf (joinSession st u code now pe).1.
Proof.
  intros Hwf. unfold joinSession.
  destruct (session_by_code st (toUpperCase code)) as [s|] eqn:Hs; [|done].
  destruct (participant_of st (s_id s) u) eqn:Hp; [done|].
  destruct pe; [done|]. cbn [fst].
  apply store_wf_insert_event, store_wf_insert_participant; [| |done].
  - apply session_by_code_elem in Hs as [Hin _].
    destruct Hwf as [H1 _ _ _ _ _]. rewrite Forall_forall in H1.
    specialize (H1 s Hin). cbn in H1. lia.
  - apply participant_of_None; [|done]. by destruct Hwf.
Qed.

(** The role tests [userRole === '...'] on a known role. *)
Ltac role_tests_in H :=
  repeat match type of H with
         | context [bool_decide (?a = ?b)] =>
           let v := eval cbv in (bool_decide (a = b)) in
           change (bool_decide (a = b)) with v in H
         end.

Lemma store_wf_handleKeySubmit st c now st1 c1 :
  handleKeySubmit st c now = Some (st1, c1) → store_wf st → store_wf st1.
Proof.
  unfold handleKeySubmit. intros Hsub Hwf.
  assert (Ha : ∀ key k, key_row_ok k → key_row_ok (set_operator_a key now k)).
  { intros key k [Hc Hp]. split; [|done]. cbn. intros [_ Hb]%Hc.
    split; [by eexists|done]. }
  assert (Hb : ∀ key k, key_row_ok k → key_row_ok (set_operator_b key now k)).
  { intros key k [Hc Hp]. split; [|done]. cbn. intros [Ha' _]%Hc.
    split; [done|by eexists]. }
  destruct (session c); [|done].
  destruct (userRole c) as [[]|]; [| | | |done];
    role_tests_in Hsub; cbn [andb] in Hsub;
    try destruct (String.length (operatorAKey c) =? 8);
    try destruct (String.length (operatorBKey c) =? 8);
    destruct (keyAuth c); simplify_eq; try done;
    apply store_wf_insert_event;
    (apply store_wf_insert_key_authorization
     || apply store_wf_update_keys); auto.
Qed.

Lemma store_wf_completionTimer st c :
  store_wf st → store_wf (completionTimer st c).
Proof.
  intros Hwf. unfold completionTimer.
  destruct (latest_key_authorization st (sessionId c)) as [a|] eqn:Hl; [|done].
  destruct (bool_decide (is_Some (operator_a_auth_at a))) eqn:Ha; [|done].
  destruct (bool_decide (is_Some (operator_b_auth_at a))) eqn:Hb; [|done].
  apply bool_decide_eq_true_1 in Ha, Hb. cbn [andb].
  apply store_wf_insert_event, store_wf_update_sessions; [done|].
  apply store_wf_update_keys; [done| |by apply store_wf_updateSessionState].
  destruct (updateSessionState_others st c (upd_authenticated true))
    as (_ & _ & -> & _).
  intros k Hk [_ Hp] Hid%bool_decide_eq_true_1.
  apply latest_key_authorization_elem in Hl as [Hin _].
  assert (k = a) as ->.
  { eapply (NoDup_fmap_inj k_id); try done. by destruct Hwf. }
  split; [|done]. by intros _.
Qed.

Lemma store_wf_apply_op st o : store_wf st → store_wf (apply_op st o).
Proof.
  intros Hwf. destruct o; cbn [apply_op].
  - by apply store_wf_createSession.
  - by apply store_wf_joinSession.
  - by apply store_wf_touch_participants.
  - unfold handleInitialize.
    apply store_wf_update_sessions; [done|].
    by apply store_wf_insert_event, store_wf_updateSessionState.
  - by apply store_wf_insert_event.
  - unfold diagnosticsTimer. destruct (diagnostics_outcome r).
    + apply store_wf_update_sessions; [done|].
      by apply store_wf_insert_event, store_wf_updateSessionState.
    + by apply store_wf_insert_event, store_wf_updateSessionState.
  - destruct (handleKeySubmit st c now) as [[st1 c1]|] eqn:Hsub; [|done].
    by eapply store_wf_handleKeySubmit.
  - by apply store_wf_completionTimer.
  - unfold handleLeaveSession.
    by apply store_wf_insert_event, store_wf_filter_participants.
Qed.

Lemma store_wf_empty : store_wf empty_store.
Proof. split; cbn; constructor. Qed.

Lemma store_wf_run st ops : store_wf st → store_wf (run st ops).
Proof.
  revert st. induction ops as [|o ops IH]; intros st Hwf; [done|].
  apply IH. by apply store_wf_apply_op.
Qed.

Lemma reachable_store_wf st : reachable st → store_wf st.
Proof. intros [ops ->]. apply store_wf_run, store_wf_empty. Qed.

(** ** Status of the key-authorization rows *)

Lemma apply_op_keys_untouched st o :
  match o with
  | OpKeySubmit _ _ | OpCompletionTimer _ => False
  | _ => True
  end →
  key_authorizations (apply_op st o) = key_authorizations st.
Proof.
  destruct o; try done; intros _; cbn [apply_op].
  - unfold createSession. by destruct rpc, sessionError, participantError.
  - unfold joinSession.
    destruct (session_by_code _ _); [|done].
    destruct (participant_of _ _ _); [done|]. by destruct participantError.
  - unfold handleInitialize. store_simpl.
    by destruct (updateSessionState_others st c (upd_initialized true))
      as (_ & _ & -> & _).
  - unfold diagnosticsTimer.
    destruct (diagnostics_outcome r); store_simpl;
      by destruct (updateSessionState_others st c (upd_diagnosticsPassed true))
         as (_ & _ & -> & _) ||
         by destruct (updateSessionState_others st c (upd_diagnosticsPassed false))
         as (_ & _ & -> & _).
Qed.

(** The submission part keeps every row's status and never removes a
    timestamp. *)
Lemma key_submission_frame st c now st1 c1 i k :
  handleKeySubmit st c now = Some (st1, c1) →
  key_authorizations st !! i = Some k →
  ∃ k', key_authorizations st1 !! i = Some k'
        ∧ k_status k' = k_status k
        ∧ (is_Some (operator_a_auth_at k) → is_Some (operator_a_auth_at k'))
        ∧ (is_Some (operator_b_auth_at k) → is_Some (operator_b_auth_at k')).
Proof.
  intros Hsub Hi.
  destruct (handleKeySubmit_tables _ _ _ _ _ Hsub) as (_ & _ & -> & _).
  unfold upsert_key_row.
  destruct (userRole c) as [[]|];
    try destruct (String.length (operatorAKey c) =? 8);
    try destruct (String.length (operatorBKey c) =? 8);
    destruct (keyAuth c) as [polled|];
    rewrite ?update_where_lookup,
      ?(lookup_app_l _ _ _ (lookup_lt_Some _ _ _ Hi)), Hi;
    cbn [fmap option_fmap option_map];
    try case_bool_decide;
    (eexists; split; [done|]); repeat split; cbn; eauto.
Qed.

(** One operation keeps every existing key row in place, never lowers its
    status and never removes a timestamp. *)
Lemma key_rows_step st o i k :
  key_authorizations st !! i = Some k →
  ∃ k', key_authorizations (apply_op st o) !! i = Some k'
        ∧ status_rank (k_status k) ≤ status_rank (k_status k')
        ∧ (is_Some (operator_a_auth_at k) → is_Some (operator_a_auth_at k'))
        ∧ (is_Some (operator_b_auth_at k) → is_Some (operator_b_auth_at k')).
Proof.
  intros Hi.
  assert (Hsame : key_authorizations (apply_op st o) = key_authorizations st →
    ∃ k', key_authorizations (apply_op st o) !! i = Some k'
        ∧ status_rank (k_status k) ≤ status_rank (k_status k')
        ∧ (is_Some (operator_a_auth_at k) → is_Some (operator_a_auth_at k'))
        ∧ (is_Some (operator_b_auth_at k) → is_Some (operator_b_auth_at k'))).
  { intros ->. by exists k. }
  destruct o; try (apply Hsame; by apply apply_op_keys_untouched).
  - cbn [apply_op].
    destruct (handleKeySubmit st c now) as [[st1 c1]|] eqn:Hsub;
      [|by exists k].
    destruct (key_submission_frame st c now st1 c1 i k Hsub Hi)
      as (k' & Hk' & Hst & Ha & Hb).
    exists k'. rewrite Hst. done.
  - cbn [apply_op].
    destruct (latest_key_authorization st (sessionId c)) as [a|] eqn:Hl.
    + destruct (decide (both_authenticated a)) as [Hb|Hb].
      * destruct (completionTimer_fires st c a Hl Hb) as (_ & _ & _ & -> & _).
        rewrite update_where_lookup, Hi. cbn [fmap option_fmap option_map].
        case_bool_decide; eexists; (split; [done|]); [|done].
        split; [|done]. cbn. destruct (k_status k); cbn; lia.
      * rewrite completionTimer_idle; [by exists k|].
        intros a' Ha'. by simplify_eq.
    + rewrite completionTimer_idle; [by exists k|]. intros a' Ha'. congruence.
Qed.

(** C3 as stated fails: after operator B's submission and before the
    completion check, the worked session's row carries both timestamps and
    its status is still [pending]. *)
Lemma status_pending_with_both_timestamps :
  reachable demo_b_submitted
  ∧ key_authorizations demo_b_submitted = [demo_key_row]
  ∧ ¬ (k_status demo_key_row = complete ↔ both_authenticated demo_key_row).
Proof.
  split; [|split].
  - exists demo_ops_b_submitted. vm_compute. reflexivity.
  - vm_compute. reflexivity.
  - intros [_ H]. assert (both_authenticated demo_key_row) as Hb
      by (split; by eexists).
    specialize (H Hb). discriminate H.
Qed.

(** C3, amended. In every reachable store a key-authorization row with
    status [complete] has both operator timestamps; every operation keeps
    each row in place, does not lower its status and clears neither of its
    operator timestamps; and right after a completion check, the latest row of the client's session is [complete] exactly when
    it has both timestamps. *)
Theorem complete_requires_both_timestamps (st : Store) :
  reachable st →
  (∀ k, k ∈ key_authorizations st →
        k_status k = complete → both_authenticated k)
  ∧ (∀ o i k, key_authorizations st !! i = Some k →
       ∃ k', key_authorizations (apply_op st o) !! i = Some k'
             ∧ status_rank (k_status k) ≤ status_rank (k_status k')
             ∧ (is_Some (operator_a_auth_at k) →
                is_Some (operator_a_auth_at k'))
             ∧ (is_Some (operator_b_auth_at k) →
                is_Some (operator_b_auth_at k')))
  ∧ (∀ c k, latest_key_authorization (completionTimer st c) (sessionId c)
              = Some k →
            k_status k = complete ↔ both_authenticated k).
Proof.
  intros Hwf%reachable_store_wf. split; [|split].
  - intros k Hk. destruct Hwf as [_ _ _ _ _ H6].
    rewrite Forall_forall in H6. by apply H6.
  - intros o i k Hi.
    destruct (key_rows_step st o i k Hi) as (k' & Hk' & Hr & Ha & Hb).
    exists k'. split; [done|]. split; [done|]. split; [exact Ha | exact Hb].
  - intros c k Hl.
    pose proof (store_wf_completionTimer st c Hwf) as [_ _ _ _ _ H6].
    rewrite Forall_forall in H6.
    destruct (latest_key_authorization_elem _ _ _ Hl) as [Hin _].
    split; [by apply H6|]. intros Hb.
    destruct (latest_key_authorization st (sessionId c)) as [a|] eqn:Hla.
    + destruct (decide (both_authenticated a)) as [Hba|Hba].
      * destruct (completion_timer_latest st c a Hla Hba) as [Hl' _].
        rewrite Hl' in Hl. by simplify_eq.
      * rewrite completionTimer_idle in Hl by (intros a' ?; by simplify_eq).
        by simplify_eq.
    + rewrite completionTimer_idle in Hl by (intros a' ?; congruence).
      congruence.
Qed.

(** ** Diagnostics *)

(** With a current view, the rows of the client's session are the row the
    client has read. *)
Lemma view_current_row st c sess s :
  view_current st c → session c = Some sess →
  s ∈ training_sessions st → s_id s = sessionId c → s = sess.
Proof.
  unfold view_current, session_by_id. intros Hv Hs Hin Hid.
  rewrite Hs in Hv. symmetry in Hv. apply single_Some in Hv.
  assert (s ∈ filter (λ s, s_id s = sessionId c) (training_sessions st)) as H
    by (by apply list_elem_of_filter).
  rewrite Hv in H. by apply list_elem_of_singleton in H.
Qed.

Lemma diagnostics_action_sessions st c r :
  training_sessions (diagnosticsTimer (handleDiagnostics st c) c r)
  = update_where (is_session c)
      (λ s, let s1 := write_state c (upd_diagnosticsPassed (diagnostics_outcome r)) s in
            if diagnostics_outcome r then set_current_step 2 s1 else s1)
      (training_sessions st).
Proof. by rewrite diagnosticsTimer_sessions. Qed.

(** C7 as stated fails.  The test is the fixed comparison with 0.1, so a
    draw of 1/2 passes and a draw of 0 fails whatever is configured; and a
    failure does change the session state: the instructor presses RUN
    DIAGNOSTICS twice within the delay, the first draw passes, and the
    failing second draw turns [diagnosticsPassed] back to [false] (with
    [current_step] still 2). *)
Lemma failed_diagnostics_changes_state :
  diagnostics_outcome (1 # 2) = true
  ∧ diagnostics_outcome 0 = false
  ∧ ((λ s, (current_step s, diagnosticsPassed (system_state s)))
       <$> training_sessions demo_first_run_passed) = [(2, true)]
  ∧ ((λ s, (current_step s, diagnosticsPassed (system_state s)))
       <$> training_sessions
             (diagnosticsTimer demo_first_run_passed demo_instructor' 0))
    = [(2, false)].
Proof. repeat split; vm_compute; reflexivity. Qed.

(** C7, amended. The draw is compared with the fixed constant 0.1.  For a
    row of the client's session: when the draw passes, the callback sets
    [diagnosticsPassed] to [true] and [current_step] to 2; when it fails, it
    keeps [current_step] and writes the client's last-read system state with
    [diagnosticsPassed = false], so the row is unchanged provided that
    last-read state is the stored one and has [diagnosticsPassed = false];
    and if the control was enabled for the client, its condition
    ([initialized], not [diagnosticsPassed]) still holds on the row after a
    failure, so the action can be repeated. *)
Theorem diagnostics_outcomes
    (st : Store) (c : Client) (r : Q) (i : nat) (s sess : TrainingSession) :
  training_sessions st !! i = Some s →
  s_id s = sessionId c →
  session c = Some sess →
  ∃ s',
    training_sessions (diagnosticsTimer (handleDiagnostics st c) c r) !! i
      = Some s'
    ∧ (diagnostics_outcome r = true →
       diagnosticsPassed (system_state s') = true ∧ current_step s' = 2)
    ∧ (diagnostics_outcome r = false →
       diagnosticsPassed (system_state s') = false
       ∧ current_step s' = current_step s
       ∧ (system_state sess = system_state s →
          diagnosticsPassed (system_state s) = false → s' = s)
       ∧ (diagnosticsEnabled c = true →
          ∀ c2, session c2 = Some s' → isObserver c2 = false →
                diagnosticsEnabled c2 = true)).
Proof.
  intros Hi Hid Hsess.
  rewrite diagnostics_action_sessions, update_where_lookup, Hi.
  cbn [fmap option_fmap option_map]. unfold is_session, write_state.
  rewrite bool_decide_eq_true_2, Hsess by done. eexists. split; [done|].
  split; intros ->; cbn; [done|].
  split; [done|]. split; [done|]. split.
  - intros Hcur Hdp. destruct s as [? ? ? ? ? ? ss]. cbn in *. f_equal.
    rewrite Hcur. destruct ss. cbn in *. by rewrite Hdp.
  - unfold diagnosticsEnabled. rewrite Hsess.
    intros [[Hin _]%andb_prop _]%andb_prop c2 -> ->. cbn. by rewrite Hin.
Qed.

(** ** Monotonicity of [current_step] *)

Lemma steps_le_refl st : steps_le st st.
Proof. intros i s Hi. by exists s. Qed.

Lemma steps_le_trans st1 st2 st3 :
  steps_le st1 st2 → steps_le st2 st3 → steps_le st1 st3.
Proof.
  intros H12 H23 i s Hi.
  destruct (H12 i s Hi) as (s2 & Hi2 & Hid2 & Hle2).
  destruct (H23 i s2 Hi2) as (s3 & Hi3 & Hid3 & Hle3).
  exists s3. split; [done|]. split; [congruence|lia].
Qed.

Lemma steps_le_same_sessions st st' :
  training_sessions st' = training_sessions st → steps_le st st'.
Proof. intros Heq i s Hi. exists s. by rewrite Heq. Qed.

Lemma view_current_elem st c sess :
  view_current st c → session c = Some sess → sess ∈ training_sessions st.
Proof.
  unfold view_current. intros Hv Hs. rewrite Hs in Hv. symmetry in Hv.
  by apply session_by_id_elem in Hv as [? _].
Qed.

(** A rewrite of the rows of the client's session that does not lower the
    step and re-establishes [step_ok], seen on a current view. *)
Lemma update_current_view st st' c sess f :
  view_current st c → session c = Some sess →
  training_sessions st' = update_where (is_session c) f (training_sessions st) →
  s_id (f sess) = s_id sess →
  current_step sess ≤ current_step (f sess) →
  step_ok (f sess) →
  Forall step_ok (training_sessions st) →
  steps_le st st' ∧ Forall step_ok (training_sessions st').
Proof.
  intros Hv Hs Heq Hid Hle Hok Hall. split.
  - intros i s Hi. rewrite Heq, update_where_lookup, Hi.
    cbn [fmap option_fmap option_map]. unfold is_session.
    case_bool_decide as Hsid; [|by exists s].
    assert (s = sess) as ->.
    { eapply view_current_row; try done. by eapply list_elem_of_lookup_2. }
    by eexists.
  - rewrite Heq. apply Forall_update_where; [|done].
    intros s Hin _ Hsid%bool_decide_eq_true_1.
    by rewrite (view_current_row st c sess s).
Qed.

Lemma press_steps st c b :
  view_current st c → Forall step_ok (training_sessions st) →
  steps_le st (press st c b) ∧ Forall step_ok (training_sessions (press st c b)).
Proof.
  intros Hv Hall. destruct b as [|r|now]; cbn [press].
  - unfold initializeEnabled.
    destruct (session c) as [sess|] eqn:Hs; [|by split; [apply steps_le_refl|]].
    destruct (initialized (system_state sess)) eqn:Hinit;
      [by split; [apply steps_le_refl|]|].
    destruct (isObserver c); [by split; [apply steps_le_refl|]|]. cbn [negb andb].
    assert (Hin : sess ∈ training_sessions st).
    { by eapply view_current_elem. }
    rewrite Forall_forall in Hall. destruct (Hall sess Hin) as (H3 & Hi0 & Hd1).
    destruct (Hi0 Hinit) as [Hz Hdp]. rewrite <- Forall_forall in Hall.
    eapply (update_current_view st _ c sess);
      [done|done|apply handleInitialize_sessions|..|done];
      unfold write_state; rewrite Hs; [done|cbn; lia|].
    split; cbn; [lia|]. split; [done|]. intros _. lia.
  - unfold diagnosticsEnabled.
    destruct (session c) as [sess|] eqn:Hs; [|by split; [apply steps_le_refl|]].
    destruct (initialized (system_state sess)) eqn:Hinit;
      [|by split; [apply steps_le_refl|]].
    destruct (diagnosticsPassed (system_state sess)) eqn:Hdp;
      [by split; [apply steps_le_refl|]|].
    destruct (isObserver c); [by split; [apply steps_le_refl|]|]. cbn [negb andb].
    assert (Hin : sess ∈ training_sessions st).
    { by eapply view_current_elem. }
    rewrite Forall_forall in Hall. destruct (Hall sess Hin) as (H3 & Hi0 & Hd1).
    specialize (Hd1 Hdp). rewrite <- Forall_forall in Hall.
    eapply (update_current_view st _ c sess);
      [done|done|apply diagnostics_action_sessions|..|done];
      unfold write_state; rewrite Hs;
      [by destruct (diagnostics_outcome r)
      |destruct (diagnostics_outcome r); cbn; lia|].
    destruct (diagnostics_outcome r); split; cbn; try lia;
      (split; [by rewrite Hinit|]); try done.
  - unfold keySubmitEnabled.
    destruct (session c) as [sess|] eqn:Hs; [|by split; [apply steps_le_refl|]].
    destruct (diagnosticsPassed (system_state sess)) eqn:Hdp;
      [|by split; [apply steps_le_refl|]].
    cbn [andb].
    match goal with |- context [if ?b then _ else _] => destruct b end;
      [|by split; [apply steps_le_refl|]].
    assert (Hin : sess ∈ training_sessions st).
    { by eapply view_current_elem. }
    rewrite Forall_forall in Hall. destruct (Hall sess Hin) as (H3 & Hi0 & Hd1).
    rewrite <- Forall_forall in Hall.
    assert (Hinit : initialized (system_state sess) = true).
    { destruct (initialized (system_state sess)); [done|].
      destruct (Hi0 eq_refl) as [_ ?]. congruence. }
    unfold keySubmission.
    destruct (handleKeySubmit st c now) as [[st1 c1]|] eqn:Hsub;
      [|by split; [apply steps_le_refl|]].
    destruct (handleKeySubmit_tables _ _ _ _ _ Hsub) as (Hs1 & _ & _ & _).
    assert (Hv1 : view_current st1 c).
    { unfold view_current, session_by_id in *. by rewrite Hs1. }
    rewrite <- Hs1 in Hall.
    assert (steps_le st1 (completionTimer st1 c)
            ∧ Forall step_ok (training_sessions (completionTimer st1 c)))
      as [Hle Hok]; [|split; [|done]].
    2:{ eapply steps_le_trans; [|done]. by apply steps_le_same_sessions. }
    destruct (latest_key_authorization st1 (sessionId c)) as [a|] eqn:Hl.
    + destruct (decide (both_authenticated a)) as [Hb|Hb].
      * destruct (completionTimer_fires st1 c a Hl Hb) as (Hsess & _).
        eapply (update_current_view st1 _ c sess);
          [done|done|apply Hsess|..|done];
          unfold write_state; rewrite Hs; [done|cbn; lia|].
        split; cbn; [lia|]. split; [by rewrite Hinit|by rewrite Hdp].
      * rewrite completionTimer_idle by (intros a' ?; by simplify_eq).
        by split; [apply steps_le_refl|].
    + rewrite completionTimer_idle by (intros a' ?; congruence).
      by split; [apply steps_le_refl|].
Qed.

Lemma other_steps st o :
  ui_allowed st (Other o) → Forall step_ok (training_sessions st) →
  steps_le st (apply_op st o)
  ∧ Forall step_ok (training_sessions (apply_op st o)).
Proof.
  intros Hal Hall. destruct o; try done; cbn [apply_op].
  - unfold createSession.
    destruct rpc as [code|]; [|by split; [apply steps_le_refl|]].
    destruct sessionError; [by split; [apply steps_le_refl|]|].
    cbn [insert_session].
    assert (∀ st', training_sessions st'
                   = (training_sessions st
                      ++ [{| s_id := next_id st; session_code := code;
                             created_by := userId0; s_status := waiting;
                             run_id := runId; current_step := 0;
                             system_state := initial_system_state |}])%list →
            steps_le st st' ∧ Forall step_ok (training_sessions st')) as Hnew.
    { intros st' Heq. split.
      - intros i s Hi. exists s. rewrite Heq.
        by rewrite lookup_app_l by (by eapply lookup_lt_Some).
      - rewrite Heq. apply Forall_app. split; [done|].
        apply Forall_singleton. split; cbn; [lia|]. split; [done|]. lia. }
    destruct participantError; by apply Hnew.
  - unfold joinSession.
    destruct (session_by_code _ _); [|by split; [apply steps_le_refl|]].
    destruct (participant_of _ _ _); [by split; [apply steps_le_refl|]|].
    destruct participantError; by split; [apply steps_le_same_sessions|].
  - by split; [apply steps_le_same_sessions|].
  - by split; [apply steps_le_same_sessions|].
Qed.

Lemma ui_apply_steps st a :
  ui_allowed st a → Forall step_ok (training_sessions st) →
  steps_le st (ui_apply st a)
  ∧ Forall step_ok (training_sessions (ui_apply st a)).
Proof.
  destruct a as [c b|o]; cbn [ui_apply ui_allowed].
  - apply press_steps.
  - apply (other_steps st o).
Qed.

Lemma ui_run_steps st l :
  ui_history st l → Forall step_ok (training_sessions st) →
  steps_le st (ui_run st l) ∧ Forall step_ok (training_sessions (ui_run st l)).
Proof.
  revert st. induction l as [|a l IH]; intros st Hh Hall.
  - by split; [apply steps_le_refl|].
  - destruct Hh as [Ha Hh].
    destruct (ui_apply_steps st a Ha Hall) as [Hle Hok].
    destruct (IH _ Hh Hok) as [Hle' Hok'].
    split; [|done]. by eapply steps_le_trans.
Qed.

(** C2 as stated fails: after the completion check has set [current_step]
    to 3, INITIALIZE SYSTEM pressed on the view the instructor polled before
    the initialization writes 1. *)
Lemma stale_initialize_lowers_step :
  reachable demo_completed
  ∧ initializeEnabled demo_instructor = true
  ∧ current_step <$> training_sessions demo_completed = [3]
  ∧ current_step
      <$> training_sessions (apply_op demo_completed (OpInitialize demo_instructor))
    = [1].
Proof.
  split; [|repeat split; vm_compute; reflexivity].
  exists (demo_ops_b_submitted ++ [OpCompletionTimer demo_operator_b])%list.
  vm_compute. reflexivity.
Qed.

(** C2, amended. The handlers write the constants 1, 2 and 3 without
    reading the stored step.  Along every history from the empty store in
    which initialize, diagnostics and key submission are performed through
    their enabled controls by a client whose last-read session row is the
    stored one, each running to completion together with its timer, and
    which otherwise consists of session creations, joins, polls and leaves,
    every session row stays in place and its [current_step] never
    decreases. *)
Theorem current_step_monotone_on_current_views (l1 l2 : list UiAction) :
  ui_history empty_store l1 →
  ui_history (ui_run empty_store l1) l2 →
  steps_le (ui_run empty_store l1) (ui_run (ui_run empty_store l1) l2).
Proof.
  intros H1 H2.
  destruct (ui_run_steps empty_store l1 H1) as [_ Hok]; [constructor|].
  by destruct (ui_run_steps _ l2 H2 Hok) as [Hle _].
Qed.

(** ** The statements at the worked session *)

(** C1 at operator B's completion check of the worked session. *)
Lemma completion_check_effects_witness :
  (is_Some (handleKeySubmit demo_before_b_submits demo_operator_b 15000%Z)
   ∧ latest_key_authorization demo_b_submitted (sessionId demo_operator_b)
     = Some demo_key_row
   ∧ both_authenticated demo_key_row)
  ∧ (∃ k', latest_key_authorization
             (completionTimer demo_b_submitted demo_operator_b)
             (sessionId demo_operator_b) = Some k'
           ∧ k_status k' = complete
           ∧ k_id k' = k_id demo_key_row)
  ∧ (∃ e, session_events (completionTimer demo_b_submitted demo_operator_b)
          = (session_events demo_b_submitted ++ [e])%list
          ∧ event_type e = "dual_key_authentication_complete").
Proof.
  assert (H1 : is_Some (handleKeySubmit demo_before_b_submits
                          demo_operator_b 15000%Z)) by compute_done.
  assert (H2 : latest_key_authorization demo_b_submitted
                 (sessionId demo_operator_b) = Some demo_key_row)
    by (vm_compute; reflexivity).
  assert (H3 : both_authenticated demo_key_row) by compute_done.
  split; [split; [exact H1 | split; [exact H2 | exact H3]]|].
  destruct (completion_check_effects demo_before_b_submits 15000%Z
              demo_operator_b demo_b_submitted demo_key_row H1 H2 H3)
    as (_ & (k' & Hl & Hst & Hid & _) & _ & (e & He & Hty & _) & _).
  split.
  - exists k'. split; [exact Hl | split; [exact Hst | exact Hid]].
  - exists e. split; [exact He | exact Hty].
Defined.

(** C2 (amended) on the worked session, split after the initialization. *)
Lemma current_step_monotone_on_current_views_witness :
  (ui_history empty_store (take 6 demo_history)
   ∧ ui_history (ui_run empty_store (take 6 demo_history))
       (drop 6 demo_history))
  ∧ steps_le (ui_run empty_store (take 6 demo_history))
      (ui_run (ui_run empty_store (take 6 demo_history))
         (drop 6 demo_history))
  ∧ current_step
      <$> training_sessions (ui_run empty_store (take 6 demo_history)) = [1]
  ∧ current_step
      <$> training_sessions
            (ui_run (ui_run empty_store (take 6 demo_history))
               (drop 6 demo_history)) = [3].
Proof.
  assert (H1 : ui_history empty_store (take 6 demo_history))
    by (vm_compute; repeat split).
  assert (H2 : ui_history (ui_run empty_store (take 6 demo_history))
                 (drop 6 demo_history))
    by (vm_compute; repeat split).
  split; [split; [exact H1 | exact H2]|]. split; [|split; vm_compute; reflexivity].
  exact (current_step_monotone_on_current_views _ _ H1 H2).
Defined.

(** C3 (amended) at the store between operator B's submission and the check. *)
Lemma complete_requires_both_timestamps_witness :
  reachable demo_b_submitted
  ∧ (∀ k, k ∈ key_authorizations demo_b_submitted →
          k_status k = complete → both_authenticated k)
  ∧ (∀ c k, latest_key_authorization (completionTimer demo_b_submitted c)
              (sessionId c) = Some k →
            k_status k = complete ↔ both_authenticated k).
Proof.
  assert (H : reachable demo_b_submitted).
  { exists demo_ops_b_submitted. vm_compute. reflexivity. }
  split; [exact H|].
  destruct (complete_requires_both_timestamps demo_b_submitted H)
    as (H1 & _ & H3).
  split; [exact H1 | exact H3].
Defined.

(** C4 at the second join of the worked session. *)
Lemma role_assignment_on_join_witness :
  (session_by_code demo_one_operator (toUpperCase "AB12-cd34")
     = Some demo_row_created
   ∧ ¬ is_participant demo_one_operator (s_id demo_row_created) 12)
  ∧ ∃ r,
      session_participants
        (joinSession demo_one_operator 12 "AB12-cd34" 3000%Z None).1
      = (session_participants demo_one_operator
         ++ [participant_row (next_id demo_one_operator)
               (s_id demo_row_created) 12 r 3000%Z])%list
      ∧ r = operator_b.
Proof.
  assert (H1 : session_by_code demo_one_operator (toUpperCase "AB12-cd34")
               = Some demo_row_created) by (vm_compute; reflexivity).
  assert (H2 : ¬ is_participant demo_one_operator (s_id demo_row_created) 12)
    by compute_done.
  split; [split; [exact H1 | exact H2]|].
  destruct (role_assignment_on_join demo_one_operator 12 "AB12-cd34" 3000%Z
              demo_row_created H1 H2) as [(r & _ & Hp & _ & Hb & _) _].
  exists r. split; [exact Hp|]. apply Hb; compute_done.
Defined.

(** C5: user 11 joins again, and a new user 14 joins. *)
Lemma join_is_idempotent_witness :
  (participants_unique demo_joined
   ∧ session_by_code demo_joined (toUpperCase "ab12-cd34")
     = Some demo_row_created)
  ∧ joinSession demo_joined 11 "ab12-cd34" 9000%Z None
    = (demo_joined, Joined (s_id demo_row_created))
  ∧ membership_count
      (joinSession demo_joined 14 "ab12-cd34" 9000%Z None).1
      (s_id demo_row_created) 14 = 1.
Proof.
  assert (H1 : participants_unique demo_joined) by compute_done.
  assert (H2 : session_by_code demo_joined (toUpperCase "ab12-cd34")
               = Some demo_row_created) by (vm_compute; reflexivity).
  split; [split; [exact H1 | exact H2]|]. split.
  - destruct (join_is_idempotent demo_joined 11 "ab12-cd34" 9000%Z None
                demo_row_created H1 H2) as [Hre _].
    apply Hre. compute_done.
  - destruct (join_is_idempotent demo_joined 14 "ab12-cd34" 9000%Z None
                demo_row_created H1 H2) as [_ [Hcount _]].
    exact Hcount.
Defined.

(** C6: two casings of the worked session's code, and an unknown code. *)
Lemma join_by_code_ignores_case_witness :
  joinSession demo_joined 14 "AB12-CD34" 9000%Z None
  = joinSession demo_joined 14 "ab12-cd34" 9000%Z None
  ∧ session_by_code demo_joined (toUpperCase "ab12-cd34")
    = Some demo_row_created
  ∧ joinSession demo_joined 14 "zz99-zz99" 9000%Z None
    = (demo_joined, Failed SessionNotFound).
Proof.
  destruct (join_by_code_ignores_case demo_joined 14 "ab12-cd34" 9000%Z None)
    as (Hcase & Hres & _).
  destruct (join_by_code_ignores_case demo_joined 14 "zz99-zz99" 9000%Z None)
    as (_ & _ & Hmiss).
  split; [|split].
  - apply Hcase. vm_compute. reflexivity.
  - apply (Hres demo_row_created);
      [compute_done
      |apply (list_elem_of_lookup_2 _ 0); vm_compute; reflexivity
      |vm_compute; reflexivity
      |vm_compute; reflexivity].
  - apply Hmiss. vm_compute. reflexivity.
Defined.

(** C7 (amended): a failing draw on the instructor's current view. *)
Lemma diagnostics_outcomes_witness :
  (training_sessions demo_before_diagnostics !! 0 = Some demo_row_initialized
   ∧ s_id demo_row_initialized = sessionId demo_instructor'
   ∧ session demo_instructor' = Some demo_row_initialized)
  ∧ ∃ s',
      training_sessions
        (diagnosticsTimer
           (handleDiagnostics demo_before_diagnostics demo_instructor')
           demo_instructor' 0) !! 0 = Some s'
      ∧ s' = demo_row_initialized.
Proof.
  assert (H1 : training_sessions demo_before_diagnostics !! 0
               = Some demo_row_initialized) by (vm_compute; reflexivity).
  assert (H2 : s_id demo_row_initialized = sessionId demo_instructor')
    by (vm_compute; reflexivity).
  assert (H3 : session demo_instructor' = Some demo_row_initialized)
    by (vm_compute; reflexivity).
  split; [split; [exact H1 | split; [exact H2 | exact H3]]|].
  destruct (diagnostics_outcomes demo_before_diagnostics demo_instructor' 0 0
              demo_row_initialized demo_row_initialized H1 H2 H3)
    as (s' & Hs' & _ & Hfail).
  exists s'. split; [exact Hs'|].
  destruct Hfail as (_ & _ & Hsame & _); [vm_compute; reflexivity|].
  apply Hsame; vm_compute; reflexivity.
Defined.

(** C8 at operator B's submission of the worked session. *)
Lemma key_submission_writes_own_fields_witness :
  handleKeySubmit demo_before_b_submits demo_operator_b 15000%Z
  = Some (demo_b_submitted, setOperatorBKey "" demo_operator_b)
  ∧ ∃ k',
      key_authorizations demo_b_submitted !! 0 = Some k'
      ∧ operator_a_key k' = Some "K3Y4ALFA"
      ∧ operator_a_auth_at k' = Some 13000%Z
      ∧ operator_b_key k' = Some "K3Y4BETA"
      ∧ operator_b_auth_at k' = Some 15000%Z.
Proof.
  assert (H : handleKeySubmit demo_before_b_submits demo_operator_b 15000%Z
              = Some (demo_b_submitted, setOperatorBKey "" demo_operator_b))
    by (vm_compute; reflexivity).
  split; [exact H|].
  destruct (key_submission_writes_own_fields _ _ _ _ _ H) as (Hrows & _).
  assert (H0 : key_authorizations demo_before_b_submits !! 0
               = Some demo_key_row_a) by (vm_compute; reflexivity).
  destruct (Hrows 0 demo_key_row_a H0)
    as (k' & Hk' & _ & _ & _ & _ & _ & _ & Hb).
  destruct Hb as (Ha1 & Ha2 & Hb1 & Hb2); [vm_compute; reflexivity|].
  exists k'. split; [exact Hk'|]. split; [exact Ha1|]. split; [exact Ha2|].
  split; [exact Hb1 | exact Hb2].
Defined.

(** C9: user 11 joins the worked session again. *)
Lemma rejoin_appends_no_event_witness :
  participants_unique demo_joined
  ∧ session_events (joinSession demo_joined 11 "ab12-cd34" 9000%Z None).1
    = session_events demo_joined.
Proof.
  assert (H : participants_unique demo_joined) by compute_done.
  split; [exact H|].
  destruct (rejoin_appends_no_event demo_joined 11 "ab12-cd34" 9000%Z None H)
    as [Hre _].
  apply Hre. exists demo_row_created.
  split; [vm_compute; reflexivity | compute_done].
Defined.

(** C10 at the diagnostics callback of the worked session. *)
Lemma system_state_write_is_merge_witness :
  (training_sessions demo_before_diagnostics !! 0 = Some demo_row_initialized
   ∧ s_id demo_row_initialized = sessionId demo_instructor'
   ∧ session demo_instructor' = Some demo_row_initialized)
  ∧ ∃ s',
      training_sessions
        (diagnosticsTimer demo_before_diagnostics demo_instructor' (1 # 2))
        !! 0 = Some s'
      ∧ diagnosticsPassed (system_state s') = true
      ∧ ∀ f, f ≠ f_diagnosticsPassed →
          get_field f (system_state s')
          = get_field f (system_state demo_row_initialized).
Proof.
  assert (H1 : training_sessions demo_before_diagnostics !! 0
               = Some demo_row_initialized) by (vm_compute; reflexivity).
  assert (H2 : s_id demo_row_initialized = sessionId demo_instructor')
    by (vm_compute; reflexivity).
  assert (H3 : session demo_instructor' = Some demo_row_initialized)
    by (vm_compute; reflexivity).
  split; [split; [exact H1 | split; [exact H2 | exact H3]]|].
  destruct (system_state_write_is_merge demo_before_diagnostics
              demo_instructor' (1 # 2) 0 demo_row_initialized
              demo_row_initialized H1 H2 H3)
    as (_ & _ & s' & Hs' & Hv & Hf & _).
  exists s'. split; [exact Hs'|]. split; [exact Hv | exact Hf].
Defined.

(** * Further properties of the components *)

(** ** The lobby's listing and the simulator's event view *)

(** X1. [loadActiveSessions] lists the ten most recently created sessions
    among those with status [waiting] or [active], most recent first: no
    more than ten rows, every row a stored session with one of the two
    statuses, the most recent such session at the head, and every such
    session when there are at most ten. *)
Theorem loadActiveSessions_newest_joinable (st : Store) :
  let joinable :=
    filter (λ s, s_status s = waiting ∨ s_status s = active)
      (training_sessions st) in
  loadActiveSessions st = reverse (drop (length joinable - 10) joinable)
  ∧ length (loadActiveSessions st) = min 10 (length joinable)
  ∧ (∀ s, s ∈ loadActiveSessions st →
       s ∈ training_sessions st
       ∧ (s_status s = waiting ∨ s_status s = active))
  ∧ head (loadActiveSessions st) = last joinable
  ∧ (length joinable ≤ 10 →
     ∀ s, s ∈ training_sessions st →
          s_status s = waiting ∨ s_status s = active →
          s ∈ loadActiveSessions st).
Proof.
  intros joinable. unfold loadActiveSessions. fold joinable.
  split; [apply take_reverse|]. split.
  { by rewrite length_take, length_reverse. }
  split.
  { intros s Hs. apply subseteq_take in Hs. rewrite elem_of_reverse in Hs.
    unfold joinable in Hs. by apply list_elem_of_filter in Hs as [? ?]. }
  split.
  { destruct (reverse joinable) as [|x l] eqn:Hr.
    - apply (f_equal reverse) in Hr. rewrite reverse_involutive in Hr.
      by rewrite Hr.
    - rewrite <- head_reverse, Hr. done. }
  intros Hle s Hin Hst.
  rewrite take_ge by (by rewrite length_reverse).
  rewrite elem_of_reverse. unfold joinable. by apply list_elem_of_filter.
Qed.

(** X2. The event cell filled by a poll holds the last fifty events of the
    session in the order of their creation: it is the stored log of the
    session without its first [n - 50] entries, so it ends with the newest
    event and is the whole log while the session has at most fifty. *)
Theorem loadEvents_last_fifty (st : Store) (sid : Id) :
  let log := filter (λ e, e_session_id e = sid) (session_events st) in
  loadEvents st sid = drop (length log - 50) log
  ∧ length (loadEvents st sid) = min 50 (length log)
  ∧ last (loadEvents st sid) = last log
  ∧ (length log ≤ 50 → loadEvents st sid = log).
Proof.
  intros log. unfold loadEvents. fold log.
  assert (Heq : reverse (take 50 (reverse log)) = drop (length log - 50) log).
  { by rewrite take_reverse, reverse_involutive. }
  split; [done|]. split.
  { by rewrite length_reverse, length_take, length_reverse. }
  split.
  { rewrite last_reverse. destruct (reverse log) as [|x l] eqn:Hr.
    - apply (f_equal reverse) in Hr. rewrite reverse_involutive in Hr.
      by rewrite Hr.
    - cbn. by rewrite <- head_reverse, Hr. }
  intros Hle. rewrite Heq. replace (length log - 50) with 0 by lia. done.
Qed.

(** ** Labels, sign-up names and upper-casing *)

Lemma before_at_cons c s :
  before_at (String c s)
  = if Ascii.eqb c "@" then EmptyString else String c (before_at s).
Proof. reflexivity. Qed.

Lemma occurrences_cons a c s :
  occurrences a (String c s)
  = (if Ascii.eqb c a then 1 else 0) + occurrences a s.
Proof. reflexivity. Qed.

Lemma upper_ascii_underscore c :
  Ascii.eqb (upper_ascii c) "_" = Ascii.eqb c "_".
Proof. by destruct c as [[] [] [] [] [] [] [] []]. Qed.

Lemma upper_ascii_idemp c : upper_ascii (upper_ascii c) = upper_ascii c.
Proof. by destruct c as [[] [] [] [] [] [] [] []]. Qed.

Lemma toUpperCase_idemp s : toUpperCase (toUpperCase s) = toUpperCase s.
Proof. induction s as [|c s IH]; cbn; [done|]. by rewrite upper_ascii_idemp, IH. Qed.

Lemma toUpperCase_length s : String.length (toUpperCase s) = String.length s.
Proof. induction s as [|c s IH]; cbn; [done|]. by rewrite IH. Qed.

Lemma toUpperCase_underscores s :
  occurrences "_" (toUpperCase s) = occurrences "_" s.
Proof.
  induction s as [|c s IH]; cbn; [done|].
  by rewrite upper_ascii_underscore, IH.
Qed.

Lemma replace_first_length a b s :
  String.length (replace_first a b s) = String.length s.
Proof.
  induction s as [|c s IH]; cbn; [done|].
  destruct (Ascii.eqb c a); cbn; by rewrite ?IH.
Qed.

Lemma replace_first_occurrences a b s :
  a ≠ b → occurrences a (replace_first a b s) = occurrences a s - 1.
Proof.
  intros Hab. induction s as [|c s IH]; cbn; [done|].
  destruct (Ascii.eqb c a) eqn:Hc; cbn.
  - apply Ascii.eqb_neq in Hab. rewrite Ascii.eqb_sym, Hab. cbn. lia.
  - by rewrite Hc.
Qed.

(** Facts about [toUpperCase] and [replace_first] as defined; they are facts
    about the JavaScript functions on ASCII text. *)

Lemma append_cons c s1 s2 : String c s1 +:+ s2 = String c (s1 +:+ s2).
Proof. reflexivity. Qed.

Lemma toUpperCase_app s1 s2 :
  toUpperCase (s1 +:+ s2) = toUpperCase s1 +:+ toUpperCase s2.
Proof.
  induction s1 as [|c s1 IH]; [done|].
  change (String (upper_ascii c) (toUpperCase (s1 +:+ s2))
          = String (upper_ascii c) (toUpperCase s1 +:+ toUpperCase s2)).
  by rewrite IH.
Qed.

Lemma replace_first_app a b s1 s2 :
  occurrences a s1 = 0 →
  replace_first a b (s1 +:+ String a s2) = s1 +:+ String b s2.
Proof.
  induction s1 as [|c s1 IH]; intros Hs1.
  - change (replace_first a b (String a s2) = String b s2).
    cbn [replace_first]. by rewrite Ascii.eqb_refl.
  - rewrite occurrences_cons in Hs1. rewrite !append_cons.
    cbn [replace_first]. destruct (Ascii.eqb c a); [done|].
    by rewrite IH.
Qed.

Lemma replace_first_absent a b s :
  occurrences a s = 0 → replace_first a b s = s.
Proof.
  induction s as [|c s IH]; [done|].
  rewrite occurrences_cons. cbn [replace_first].
  destruct (Ascii.eqb c a); [done|]. intros H. by rewrite IH.
Qed.

Lemma occurrences_app a s1 s2 :
  occurrences a (s1 +:+ s2) = occurrences a s1 + occurrences a s2.
Proof.
  induction s1 as [|c s1 IH]; [done|].
  rewrite append_cons, !occurrences_cons, IH. lia.
Qed.

Lemma length_append s1 s2 :
  String.length (s1 +:+ s2) = String.length s1 + String.length s2.
Proof.
  induction s1 as [|c s1 IH]; [done|].
  rewrite append_cons. cbn [String.length]. by rewrite IH.
Qed.

Lemma upper_ascii_below c :
  (nat_of_ascii (upper_ascii c) <? 128) = (nat_of_ascii c <? 128).
Proof. by destruct c as [[] [] [] [] [] [] [] []]. Qed.

Lemma toUpperCase_is_ascii s : is_ascii (toUpperCase s) = is_ascii s.
Proof.
  induction s as [|c s IH]; [done|].
  cbn [toUpperCase is_ascii]. by rewrite upper_ascii_below, IH.
Qed.

(** X3. The label of a role badge or of an event-log entry: the text in
    upper case with its first underscore, and only that one, turned into a
    space.  For ASCII text [pre_post] whose part [pre] has no underscore
    the label is [PRE POST], where [POST] keeps every underscore of [post];
    a text without underscore is shown in upper case.  The four role
    badges read INSTRUCTOR, OPERATOR A, OPERATOR B and OBSERVER. *)
Theorem display_label_replaces_first_underscore (pre post : string) :
  is_ascii pre = true → is_ascii post = true →
  occurrences "_" pre = 0 →
  display_label (pre +:+ String "_" post)
  = toUpperCase pre +:+ String " " (toUpperCase post)
  ∧ occurrences "_" (display_label (pre +:+ String "_" post))
    = occurrences "_" post
  ∧ String.length (display_label (pre +:+ String "_" post))
    = String.length pre + 1 + String.length post
  ∧ display_label pre = toUpperCase pre
  ∧ (∀ r, display_label (role_name r)
          = match r with
            | instructor => "INSTRUCTOR"
            | operator_a => "OPERATOR A"
            | operator_b => "OPERATOR B"
            | observer => "OBSERVER"
            end).
Proof.
  intros _ _ Hpre. unfold display_label.
  assert (Hup : occurrences "_" (toUpperCase pre) = 0)
    by (by rewrite toUpperCase_underscores).
  assert (Heq : replace_first "_" " "
                  (toUpperCase (pre +:+ String "_" post))
                = toUpperCase pre +:+ String " " (toUpperCase post)).
  { rewrite toUpperCase_app.
    change (toUpperCase (String "_" post))
      with (String "_" (toUpperCase post)).
    by apply replace_first_app. }
  split; [exact Heq|]. rewrite Heq. split; [|split; [|split]].
  - rewrite occurrences_app, Hup, occurrences_cons.
    change (Ascii.eqb " " "_") with false.
    by rewrite toUpperCase_underscores.
  - rewrite length_append. cbn [String.length].
    rewrite !toUpperCase_length. lia.
  - by apply replace_first_absent.
  - by intros [].
Qed.

Lemma before_at_split email :
  ∃ rest, email = (before_at email ++ rest)%string
          ∧ (rest = EmptyString ∨ ∃ r, rest = String "@" r).
Proof.
  induction email as [|c s (rest & Hs & Hr)].
  - exists EmptyString. by split; [|left].
  - rewrite before_at_cons. destruct (Ascii.eqb c "@") eqn:Hc.
    + apply Ascii.eqb_eq in Hc as ->. exists (String "@" s).
      split; [done|]. right. by exists s.
    + exists rest. split; [|done].
      change (String c s = String c (before_at s +:+ rest)). by f_equal.
Qed.

Lemma before_at_no_at email : occurrences "@" (before_at email) = 0.
Proof.
  induction email as [|c s IH]; [done|].
  rewrite before_at_cons. destruct (Ascii.eqb c "@") eqn:Hc; [done|].
  by rewrite occurrences_cons, Hc, IH.
Qed.

(** X4. The name sent with a sign-up is the typed callsign when one was
    typed; otherwise it is the text of the e-mail address before its first
    [@]: a prefix of the address that contains no [@], followed in the
    address either by nothing (an address without [@] is taken whole) or by
    an [@]. *)
Theorem signUpUsername_default (username email : string) :
  (username ≠ EmptyString → signUpUsername username email = username)
  ∧ (username = EmptyString →
     occurrences "@" (signUpUsername username email) = 0
     ∧ ∃ rest, email = (signUpUsername username email ++ rest)%string
               ∧ (rest = EmptyString ∨ ∃ r, rest = String "@" r))
  ∧ (occurrences "@" email = 0 → signUpUsername EmptyString email = email).
Proof.
  split; [|split].
  - by destruct username.
  - intros ->. cbn. split; [apply before_at_no_at | apply before_at_split].
  - cbn [signUpUsername]. induction email as [|c s IH]; [done|].
    rewrite before_at_cons, occurrences_cons.
    destruct (Ascii.eqb c "@"); [done|]. intros H. by rewrite IH.
Qed.

(** X5. The lobby upper-cases the code when it is typed and [joinSession]
    upper-cases it again.  For typed ASCII text the second pass changes
    nothing, so joining with the text of the input is joining with what was
    typed; the text of the input is ASCII of the typed length (the JOIN
    button's test of nine characters sees the typed length). *)
Theorem join_with_typed_code
    (st : Store) (userId : Id) (typed : string) (now : Timestamp)
    (pe : option string) :
  is_ascii typed = true →
  joinSession st userId (onChangeSessionCode typed) now pe
  = joinSession st userId typed now pe
  ∧ String.length (onChangeSessionCode typed) = String.length typed
  ∧ toUpperCase (onChangeSessionCode typed) = onChangeSessionCode typed
  ∧ is_ascii (onChangeSessionCode typed) = true.
Proof.
  intros Hascii. unfold onChangeSessionCode. split; [|split; [|split]].
  - unfold joinSession. by rewrite toUpperCase_idemp.
  - apply toUpperCase_length.
  - apply toUpperCase_idemp.
  - by rewrite toUpperCase_is_ascii.
Qed.

(** ** What no operation does: history *)

Lemma write_state_identity c u s :
  session_identity (write_state c u s) = session_identity s.
Proof. unfold write_state. by destruct (session c). Qed.

Lemma update_where_kept {A B} (P : A → bool) (f : A → A) (k : A → B)
    (rows : list A) i r :
  (∀ x, k (f x) = k x) → rows !! i = Some r →
  ∃ r', update_where P f rows !! i = Some r' ∧ k r' = k r.
Proof.
  intros Hk Hi. rewrite update_where_lookup, Hi.
  cbn [fmap option_fmap option_map]. eexists. split; [done|].
  by destruct (P r).
Qed.

Lemma completionTimer_cases st c :
  completionTimer st c = st
  ∨ ∃ a, latest_key_authorization st (sessionId c) = Some a
         ∧ both_authenticated a.
Proof.
  destruct (latest_key_authorization st (sessionId c)) as [a|] eqn:Hl.
  - destruct (decide (both_authenticated a)) as [Hb|Hb]; [by eauto|].
    left. apply completionTimer_idle. intros a' ?. by simplify_eq.
  - left. apply completionTimer_idle. intros a' ?. congruence.
Qed.

Lemma apply_op_session_kept st o i s :
  training_sessions st !! i = Some s →
  ∃ s', training_sessions (apply_op st o) !! i = Some s'
        ∧ session_identity s' = session_identity s.
Proof.
  intros Hi.
  assert (Hsame : ∀ st', training_sessions st' = training_sessions st →
            ∃ s', training_sessions st' !! i = Some s'
                  ∧ session_identity s' = session_identity s).
  { intros st' ->. by exists s. }
  destruct o; cbn [apply_op].
  - unfold createSession. destruct rpc; [|by apply Hsame].
    destruct sessionError; [by apply Hsame|]. cbn [insert_session].
    exists s. split; [|done].
    destruct participantError; store_simpl;
      by rewrite lookup_app_l by (by eapply lookup_lt_Some).
  - apply Hsame. unfold joinSession.
    destruct (session_by_code _ _); [|done].
    destruct (participant_of _ _ _); [done|]. by destruct participantError.
  - by apply Hsame.
  - rewrite handleInitialize_sessions.
    apply (update_where_kept _ _ session_identity); [|done].
    intros x. by rewrite <- (write_state_identity c (upd_initialized true) x).
  - by apply Hsame.
  - rewrite diagnosticsTimer_sessions.
    apply (update_where_kept _ _ session_identity); [|done].
    intros x. cbn zeta.
    rewrite <- (write_state_identity c
                  (upd_diagnosticsPassed (diagnostics_outcome r)) x).
    by destruct (diagnostics_outcome r).
  - destruct (handleKeySubmit st c now) as [[st1 c1]|] eqn:Hsub;
      [|by apply Hsame].
    apply Hsame. by destruct (handleKeySubmit_tables _ _ _ _ _ Hsub) as [? _].
  - destruct (completionTimer_cases st c) as [->|(a & Hl & Hb)];
      [by apply Hsame|].
    destruct (completionTimer_fires st c a Hl Hb) as (-> & _).
    apply (update_where_kept _ _ session_identity); [|done].
    intros x. by rewrite <- (write_state_identity c (upd_authenticated true) x).
  - by apply Hsame.
Qed.

Lemma apply_op_events_prefix st o :
  session_events st `prefix_of` session_events (apply_op st o).
Proof.
  assert (Hadd : ∀ e, session_events st `prefix_of` (session_events st ++ [e])%list)
    by (intros e; by apply prefix_app_r).
  destruct o; cbn [apply_op].
  - unfold createSession. destruct rpc; [|done].
    destruct sessionError; [done|]. cbn [insert_session].
    by destruct participantError.
  - unfold joinSession.
    destruct (session_by_code _ _); [|done].
    destruct (participant_of _ _ _); [done|].
    destruct participantError; [done|]. store_simpl. apply Hadd.
  - done.
  - unfold handleInitialize. store_simpl.
    destruct (updateSessionState_others st c (upd_initialized true))
      as (_ & -> & _). apply Hadd.
  - apply Hadd.
  - unfold diagnosticsTimer.
    destruct (diagnostics_outcome r); store_simpl;
      match goal with
      | |- context [updateSessionState st c ?u] =>
        destruct (updateSessionState_others st c u) as (_ & -> & _)
      end; apply Hadd.
  - unfold handleKeySubmit.
    destruct (session c); [|done].
    destruct (userRole c) as [[]|]; [| | | |done];
      try destruct (String.length (operatorAKey c) =? 8);
      try destruct (String.length (operatorBKey c) =? 8);
      destruct (keyAuth c); cbn; try done; apply Hadd.
  - destruct (completionTimer_cases st c) as [->|(a & Hl & Hb)]; [done|].
    destruct (completionTimer_fires st c a Hl Hb) as (_ & _ & -> & _).
    apply Hadd.
  - unfold handleLeaveSession. store_simpl. apply Hadd.
Qed.

(** X6. The event log only grows: whatever operations are run, the events
    stored before are still there afterwards, unchanged and in the same
    order, as the beginning of the log. *)
Theorem event_log_append_only (st : Store) (ops : list Op) :
  session_events st `prefix_of` session_events (run st ops).
Proof.
  revert st. induction ops as [|o ops IH]; intros st; [done|].
  cbn [run foldl]. etrans; [apply apply_op_events_prefix|]. apply IH.
Qed.

(** X7. No operation deletes a session row or changes what identifies it:
    whatever operations are run, each stored session is still at its place
    with the same identifier, code, creator and run identifier. *)
Theorem sessions_never_deleted (st : Store) (ops : list Op) (i : nat)
    (s : TrainingSession) :
  training_sessions st !! i = Some s →
  ∃ s', training_sessions (run st ops) !! i = Some s'
        ∧ s_id s' = s_id s ∧ session_code s' = session_code s
        ∧ created_by s' = created_by s ∧ run_id s' = run_id s.
Proof.
  revert st s. induction ops as [|o ops IH]; intros st s Hi.
  - by exists s.
  - destruct (apply_op_session_kept st o i s Hi) as (s1 & H1 & Hid1).
    destruct (IH _ _ H1) as (s' & Hs' & ? & ? & ? & ?).
    exists s'. split; [done|]. unfold session_identity in Hid1.
    simplify_eq. repeat split; congruence.
Qed.

(** ** Who holds which role *)

Lemma apply_op_session_ids st o :
  s_id <$> training_sessions (apply_op st o) = s_id <$> training_sessions st
  ∨ ∃ row, training_sessions (apply_op st o)
           = (training_sessions st ++ [row])%list
           ∧ s_id row = next_id st.
Proof.
  assert (Hupd : ∀ c f, (∀ x, s_id (f x) = s_id x) →
            s_id <$> update_where (is_session c) f (training_sessions st)
            = s_id <$> training_sessions st)
    by (intros; by apply fmap_update_where).
  destruct o; cbn [apply_op].
  - unfold createSession. destruct rpc; [|by left].
    destruct sessionError; [by left|]. cbn [insert_session].
    right. eexists. by destruct participantError.
  - left. unfold joinSession.
    destruct (session_by_code _ _); [|done].
    destruct (participant_of _ _ _); [done|]. by destruct participantError.
  - by left.
  - left. rewrite handleInitialize_sessions. apply Hupd.
    intros x. unfold write_state. by destruct (session c).
  - by left.
  - left. rewrite diagnosticsTimer_sessions. apply Hupd.
    intros x. unfold write_state.
    by destruct (session c), (diagnostics_outcome r).
  - left. destruct (handleKeySubmit st c now) as [[st1 c1]|] eqn:Hsub; [|done].
    by destruct (handleKeySubmit_tables _ _ _ _ _ Hsub) as [-> _].
  - left. destruct (completionTimer_cases st c) as [->|(a & Hl & Hb)]; [done|].
    destruct (completionTimer_fires st c a Hl Hb) as (-> & _). apply Hupd.
    intros x. unfold write_state. by destruct (session c).
  - by left.
Qed.

Lemma session_ids_unique_apply_op st o :
  store_wf st → session_ids_unique st → session_ids_unique (apply_op st o).
Proof.
  intros Hwf Hu. unfold session_ids_unique in *.
  destruct (apply_op_session_ids st o) as [->|(row & -> & Hrow)]; [done|].
  apply (NoDup_snoc_fresh s_id (next_id st)); [by destruct Hwf|done|done].
Qed.

Lemma reachable_session_ids_unique st :
  reachable st → session_ids_unique st.
Proof.
  intros [ops ->].
  assert (∀ st, store_wf st → session_ids_unique st →
                session_ids_unique (run st ops)) as H.
  { induction ops as [|o ops IH]; intros st Hwf Hu; [done|].
    apply IH; [by apply store_wf_apply_op|by apply session_ids_unique_apply_op]. }
  apply H; [apply store_wf_empty|constructor].
Qed.

(** How one operation changes the participants table. *)
Lemma apply_op_participants st o :
  session_participants (apply_op st o) = session_participants st
  ∨ (∃ P t, session_participants (apply_op st o)
            = update_where P (set_last_seen t) (session_participants st))
  ∨ (∃ sid uid, session_participants (apply_op st o)
                = filter (λ p, ¬ (p_session_id p = sid ∧ p_user_id p = uid))
                    (session_participants st))
  ∨ (∃ uid now row,
       session_participants (apply_op st o)
       = (session_participants st
          ++ [participant_row (S (next_id st)) (next_id st) uid instructor now])%list
       ∧ training_sessions (apply_op st o) = (training_sessions st ++ [row])%list
       ∧ s_id row = next_id st ∧ created_by row = uid)
  ∨ (∃ s uid now,
       session_participants (apply_op st o)
       = (session_participants st
          ++ [participant_row (next_id st) (s_id s) uid
                (next_role (role <$> participants_of st (s_id s))) now])%list
       ∧ s ∈ training_sessions st
       ∧ training_sessions (apply_op st o) = training_sessions st).
Proof.
  destruct o; cbn [apply_op].
  - unfold createSession. destruct rpc; [|by left].
    destruct sessionError; [by left|]. cbn [insert_session].
    destruct participantError; [by left|].
    do 3 right. left. by eexists _, _, _.
  - unfold joinSession.
    destruct (session_by_code _ _) as [s|] eqn:Hs; [|by left].
    destruct (participant_of _ _ _); [by left|].
    destruct participantError; [by left|].
    do 4 right. exists s, userId0, now. store_simpl.
    split; [done|]. split; [|done]. by apply session_by_code_elem in Hs as [? _].
  - right. left. by eexists _, _.
  - left. unfold handleInitialize. store_simpl.
    by destruct (updateSessionState_others st c (upd_initialized true)) as (-> & _).
  - by left.
  - left. unfold diagnosticsTimer.
    destruct (diagnostics_outcome r); store_simpl;
      match goal with
      | |- context [updateSessionState st c ?u] =>
        by destruct (updateSessionState_others st c u) as (-> & _)
      end.
  - left. destruct (handleKeySubmit st c now) as [[st1 c1]|] eqn:Hsub; [|done].
    by destruct (handleKeySubmit_tables _ _ _ _ _ Hsub) as (_ & -> & _).
  - left. destruct (completionTimer_cases st c) as [->|(a & Hl & Hb)]; [done|].
    by destruct (completionTimer_fires st c a Hl Hb) as (_ & -> & _).
  - do 2 right. left. by eexists _, _.
Qed.

Lemma length_filter_filter {A} (Q R : A → Prop)
    `{∀ x, Decision (Q x), ∀ x, Decision (R x)} (l : list A) :
  length (filter Q (filter R l)) ≤ length (filter Q l).
Proof.
  induction l as [|x l IH]; [done|].
  destruct (decide (R x)), (decide (Q x));
    rewrite ?(filter_cons_True R), ?(filter_cons_False R),
      ?(filter_cons_True Q), ?(filter_cons_False Q) by done; cbn; lia.
Qed.

Lemma next_role_cases roles :
  (next_role roles = operator_a ∧ operator_a ∉ roles)
  ∨ (next_role roles = operator_b ∧ operator_b ∉ roles)
  ∨ next_role roles = observer.
Proof. unfold next_role. repeat case_bool_decide; auto. Qed.

Lemma instructor_held_once_apply_op st o :
  store_wf st → instructor_held_once st → instructor_held_once (apply_op st o).
Proof.
  intros Hwf Hex sid. specialize (Hex sid). unfold role_count in *.
  destruct (apply_op_participants st o)
    as [-> | [(P & t & ->) | [(sid' & uid & ->)
       | [(uid & now & row & -> & _) | (s & uid & now & -> & Hs & _)]]]].
  - done.
  - rewrite filter_update_where by done. by rewrite update_where_length.
  - etrans; [apply length_filter_filter|done].
  - rewrite filter_app, length_app.
    match goal with
    | |- context [filter ?Q [?x]] =>
      pose proof (length_filter Q [x]) as Hone; cbn [length] in Hone
    end.
    destruct (decide (sid = next_id st)) as [->|Hne].
    + rewrite (filter_empty _ (session_participants st)); [cbn [length]; lia|].
      intros p Hp [Hps _]. destruct Hwf as [_ H2 _ _ _ _].
      rewrite Forall_forall in H2. specialize (H2 p Hp). cbn in H2. lia.
    + rewrite (filter_cons_False _ (participant_row _ _ _ _ _))
        by (cbn; intros [? _]; congruence).
      rewrite filter_nil. cbn [length]. lia.
  - rewrite filter_app, length_app.
    rewrite (filter_cons_False _ (participant_row _ _ _ _ _)).
    + rewrite filter_nil. cbn [length]. lia.
    + cbn. intros [_ Hr].
      by destruct (next_role_cases (role <$> participants_of st (s_id s)))
        as [[Heq' _]|[[Heq' _]|Heq']]; rewrite Heq' in Hr.
Qed.

Lemma instructor_is_creator_apply_op st o :
  instructor_is_creator st → instructor_is_creator (apply_op st o).
Proof.
  intros Hin.
  assert (Hkeep : ∀ p, p ∈ session_participants st → role p = instructor →
            ∃ s, s ∈ training_sessions (apply_op st o)
                 ∧ s_id s = p_session_id p ∧ created_by s = p_user_id p).
  { intros p Hp Hr. destruct (Hin p Hp Hr) as (s & Hs & Hid & Hc).
    apply list_elem_of_lookup in Hs as [i Hi].
    destruct (apply_op_session_kept st o i s Hi) as (s' & Hs' & Hident).
    exists s'. split; [by eapply list_elem_of_lookup_2|].
    unfold session_identity in Hident. simplify_eq. split; congruence. }
  intros p Hp Hr.
  destruct (apply_op_participants st o)
    as [Heq | [(P & t & Heq) | [(sid' & uid & Heq)
       | [(uid & now & row & Heq & Hss & Hrid & Hrc)
         | (s & uid & now & Heq & Hs & _)]]]]; rewrite Heq in Hp.
  - by apply Hkeep.
  - unfold update_where in Hp.
    apply list_elem_of_fmap in Hp as (q & -> & Hq).
    destruct (Hkeep q Hq) as (s & ? & ? & ?); [by destruct (P q)|].
    exists s. by destruct (P q).
  - apply list_elem_of_filter in Hp as [_ Hp]. by apply Hkeep.
  - apply elem_of_app in Hp as [Hp|Hp]; [by apply Hkeep|].
    apply list_elem_of_singleton in Hp as ->. exists row.
    rewrite Hss. split; [|done]. apply elem_of_app. right.
    by apply list_elem_of_singleton.
  - apply elem_of_app in Hp as [Hp|Hp]; [by apply Hkeep|].
    apply list_elem_of_singleton in Hp as ->. cbn in Hr.
    by destruct (next_role_cases (role <$> participants_of st (s_id s)))
      as [[Heq' _]|[[Heq' _]|Heq']]; rewrite Heq' in Hr.
Qed.

(** X24. The role [instructor] is given by [createSession] alone, once, to
    the creator of the session it has just inserted: the role computed for
    a joiner is never [instructor], and in every reachable store a session
    has at most one instructor, who is the user that created it. *)
Theorem instructor_is_the_creator (st : Store) :
  reachable st →
  instructor_held_once st
  ∧ instructor_is_creator st
  ∧ (∀ roles, next_role roles ≠ instructor).
Proof.
  intros [ops ->]. split; [|split].
  - assert (∀ st, store_wf st → instructor_held_once st →
                  instructor_held_once (run st ops)) as H.
    { induction ops as [|o ops IH]; intros st Hwf He; [done|].
      apply IH; [by apply store_wf_apply_op
                |by apply instructor_held_once_apply_op]. }
    apply H; [apply store_wf_empty|]. intros sid. cbn. lia.
  - assert (∀ st, instructor_is_creator st →
                  instructor_is_creator (run st ops)) as H.
    { induction ops as [|o ops IH]; intros st Hi; [done|].
      apply IH. by apply instructor_is_creator_apply_op. }
    apply H. intros p Hp. by apply elem_of_nil in Hp.
  - intros roles.
    by destruct (next_role_cases roles) as [[Heq _]|[[Heq _]|Heq]];
      rewrite Heq.
Qed.

(** ** Two joins at once *)

(** The store calls of one [joinSession], run without anything in between,
    are [joinSession]. *)
Lemma join_steps_joinSession st u code now pe j2 :
  run_joiners st (joiner u code now pe) j2 [true; true; true; true; true]
  = ((joinSession st u code now pe).1,
     {| j_user := u; j_now := now; j_error := pe;
        j_pc := JoinDone (joinSession st u code now pe).2 |},
     j2).
Proof.
  unfold joinSession, joiner.
  cbv [run_joiners joiner_step join_step j_user j_now j_error j_pc].
  destruct (session_by_code st (toUpperCase code)) as [s|]; [|done].
  destruct (participant_of st (s_id s) u); [done|].
  by destruct pe.
Qed.

Lemma run_joiners_app st j1 j2 l1 l2 :
  run_joiners st j1 j2 (l1 ++ l2)
  = let '(st', j1', j2') := run_joiners st j1 j2 l1 in
    run_joiners st' j1' j2' l2.
Proof.
  revert st j1 j2. induction l1 as [|[] l1 IH]; intros st j1 j2.
  - cbn [app run_joiners]. by destruct (run_joiners st j1 j2 l2) as [[? ?] ?].
  - cbn [app run_joiners]. destruct (joiner_step st j1) as [st' j1'].
    apply IH.
  - cbn [app run_joiners]. destruct (joiner_step st j2) as [st' j2'].
    apply IH.
Qed.

(** The second joiner's calls, mirrored. *)
Lemma join_steps_joinSession_second st u code now pe j1 :
  run_joiners st j1 (joiner u code now pe)
    [false; false; false; false; false]
  = ((joinSession st u code now pe).1, j1,
     {| j_user := u; j_now := now; j_error := pe;
        j_pc := JoinDone (joinSession st u code now pe).2 |}).
Proof.
  unfold joinSession, joiner.
  cbv [run_joiners joiner_step join_step j_user j_now j_error j_pc].
  destruct (session_by_code st (toUpperCase code)) as [s|]; [|done].
  destruct (participant_of st (s_id s) u); [done|].
  by destruct pe.
Qed.

Lemma next_role_taken roles r :
  r ≠ observer → r ∈ roles → next_role roles ≠ r.
Proof.
  intros Hobs Hin Heq.
  destruct (next_role_cases roles) as [[H Hno]|[[H Hno]|H]];
    rewrite H in Heq; subst r; done.
Qed.

(** X8. The role of a joiner is computed from a read of the roles that is
    a store call of its own, made before the insert.  Run one after the
    other, the store calls of two [joinSession] calls are the two calls in
    sequence, and two new users get different roles as long as an operator
    role is free.  When both calls read the roles before either inserts,
    both users are inserted with the same role: with [operator_a] or
    [operator_b] free, two participants hold it afterwards. *)
Theorem interleaved_joins_share_role
    (st : Store) (u1 u2 : Id) (code1 code2 : string) (now1 now2 : Timestamp)
    (s : TrainingSession) :
  session_by_code st (toUpperCase code1) = Some s →
  session_by_code st (toUpperCase code2) = Some s →
  ¬ is_participant st (s_id s) u1 →
  ¬ is_participant st (s_id s) u2 →
  let j1 := joiner u1 code1 now1 None in
  let j2 := joiner u2 code2 now2 None in
  let r := next_role (role <$> participants_of st (s_id s)) in
  (run_joiners st j1 j2 one_after_the_other).1.1
  = (joinSession (joinSession st u1 code1 now1 None).1 u2 code2 now2 None).1
  ∧ (u1 ≠ u2 → r ≠ observer →
     ∃ r2, r2 ≠ r
       ∧ session_participants (run_joiners st j1 j2 one_after_the_other).1.1
         = (session_participants st
            ++ [participant_row (next_id st) (s_id s) u1 r now1;
                participant_row (S (S (next_id st))) (s_id s) u2 r2 now2])%list)
  ∧ session_participants (run_joiners st j1 j2 reads_before_inserts).1.1
    = (session_participants st
       ++ [participant_row (next_id st) (s_id s) u1 r now1;
           participant_row (S (S (next_id st))) (s_id s) u2 r now2])%list
  ∧ (r ≠ observer →
     role_count (run_joiners st j1 j2 reads_before_inserts).1.1 (s_id s) r
     = role_count st (s_id s) r + 2
     ∧ ¬ roles_exclusive (run_joiners st j1 j2 reads_before_inserts).1.1).
Proof.
  intros Hs1 Hs2 Hn1 Hn2 j1 j2 r.
  pose proof (participant_of_absent _ _ _ Hn1) as Hp1.
  pose proof (participant_of_absent _ _ _ Hn2) as Hp2.
  assert (Hseq : (run_joiners st j1 j2 one_after_the_other).1.1
            = (joinSession (joinSession st u1 code1 now1 None).1
                 u2 code2 now2 None).1).
  { change one_after_the_other
      with ([true; true; true; true; true]
            ++ [false; false; false; false; false])%list.
    rewrite run_joiners_app. unfold j1.
    rewrite join_steps_joinSession. cbn zeta. unfold j2.
    by rewrite join_steps_joinSession_second. }
  assert (Hrace : session_participants
                    (run_joiners st j1 j2 reads_before_inserts).1.1
            = (session_participants st
               ++ [participant_row (next_id st) (s_id s) u1 r now1;
                   participant_row (S (S (next_id st))) (s_id s) u2 r now2])%list).
  { unfold reads_before_inserts, j1, j2, joiner.
    cbv [run_joiners joiner_step join_step j_user j_now j_error j_pc].
    rewrite Hs1, Hp1, Hs2, Hp2. cbv beta iota zeta.
    store_simpl. by rewrite <- app_assoc. }
  split; [exact Hseq|]. split; [|split; [exact Hrace|]].
  - intros Hu Hr. rewrite Hseq.
    rewrite (joinSession_resolved st u1 code1 now1 None s Hs1), Hp1.
    cbn zeta. cbn [fst].
    set (st1 := insert_event _ _ _ _ _).
    assert (Hs2' : session_by_code st1 (toUpperCase code2) = Some s) by done.
    rewrite (joinSession_resolved st1 u2 code2 now2 None s Hs2').
    assert (Hp2' : participant_of st1 (s_id s) u2 = None).
    { apply participant_of_absent. intros (p & Hp & Hps & Hpu).
      unfold st1 in Hp. store_simpl.
      apply elem_of_app in Hp as [Hp|Hp]; [apply Hn2; by exists p|].
      apply list_elem_of_singleton in Hp as ->. cbn in Hpu. congruence. }
    rewrite Hp2'. cbn zeta. cbn [fst].
    exists (next_role (role <$> participants_of st1 (s_id s))). split.
    + apply next_role_taken; [done|].
      apply holds_role_roles.
      exists (participant_row (next_id st) (s_id s) u1 r now1).
      split; [|done]. unfold st1. store_simpl. apply elem_of_app. right.
      by apply list_elem_of_singleton.
    + unfold st1. store_simpl. by rewrite <- app_assoc.
  - intros Hr.
    assert (Hcount : role_count
                (run_joiners st j1 j2 reads_before_inserts).1.1 (s_id s) r
              = role_count st (s_id s) r + 2).
    { unfold role_count. rewrite Hrace, filter_app, length_app.
      by rewrite !filter_cons_True, filter_nil by done. }
    split; [exact Hcount|]. intros Hex. specialize (Hex (s_id s) r Hr). lia.
Qed.

(** ** Polling *)

Lemma loadSessionData_tables st c now :
  training_sessions (loadSessionData st c now).1 = training_sessions st
  ∧ session_participants (loadSessionData st c now).1
    = update_where
        (λ p, bool_decide (p_session_id p = sessionId c ∧ p_user_id p = userId c))
        (set_last_seen now) (session_participants st)
  ∧ session_events (loadSessionData st c now).1 = session_events st
  ∧ key_authorizations (loadSessionData st c now).1 = key_authorizations st
  ∧ next_id (loadSessionData st c now).1 = next_id st.
Proof. done. Qed.

Lemma session_by_id_unique st s :
  session_ids_unique st → s ∈ training_sessions st →
  session_by_id st (s_id s) = Some s.
Proof.
  intros Hu Hin. unfold session_by_id.
  by rewrite (unique_filter s_id _ _ s Hu Hin).
Qed.

Lemma loadSessionData_session st c now :
  session (loadSessionData st c now).2
  = match session_by_id st (sessionId c) with
    | Some s => Some s
    | None => session c
    end.
Proof. done. Qed.

(** The role cell after a poll, when the caller has a participant row. *)
Lemma loadSessionData_role st c now p :
  participants_unique st → p ∈ session_participants st →
  p_session_id p = sessionId c → p_user_id p = userId c →
  userRole (loadSessionData st c now).2 = Some (role p).
Proof.
  intros Hu Hp Hs Hid. unfold loadSessionData. cbn [snd userRole].
  set (parts := participants_of _ _).
  assert (Hin : set_last_seen now p ∈ parts).
  { unfold parts, participants_of. apply list_elem_of_filter. split; [done|].
    cbn [session_participants with_participants]. unfold update_where.
    apply list_elem_of_fmap. exists p. split; [|done].
    by rewrite bool_decide_eq_true_2. }
  destruct (list_find_elem_of (λ q, p_user_id q = userId c) parts _ Hin Hid)
    as [[i q] Hf].
  rewrite Hf. apply list_find_Some in Hf as (Hi & Hq & _).
  apply list_elem_of_lookup_2 in Hi. unfold parts, participants_of in Hi.
  apply list_elem_of_filter in Hi as [Hqs Hi].
  cbn [session_participants with_participants] in Hi. unfold update_where in Hi.
  apply list_elem_of_fmap in Hi as (q0 & -> & Hq0).
  assert (q0 = p) as ->; [|by destruct (bool_decide _)].
  eapply (NoDup_fmap_inj member_key); try done.
  unfold member_key. destruct (bool_decide _); cbn in *; congruence.
Qed.

(** Without a participant row the role cell is left as it was. *)
Lemma loadSessionData_role_absent st c now :
  ¬ is_participant st (sessionId c) (userId c) →
  userRole (loadSessionData st c now).2 = userRole c.
Proof.
  intros Hno. unfold loadSessionData. cbn [snd userRole].
  destruct (list_find _ _) as [[i q]|] eqn:Hf; [|done]. exfalso.
  apply list_find_Some in Hf as (Hi & Hq & _).
  apply list_elem_of_lookup_2 in Hi. unfold participants_of in Hi.
  apply list_elem_of_filter in Hi as [Hqs Hi].
  cbn [session_participants with_participants] in Hi. unfold update_where in Hi.
  apply list_elem_of_fmap in Hi as (q0 & -> & Hq0).
  apply Hno. exists q0. split; [done|].
  destruct (bool_decide _); cbn in *; done.
Qed.

(** X9. A poll writes nothing but the caller's own [last_seen]: sessions,
    events, key-authorization rows and the identifier counter are as
    before, every participant row keeps its place, identifier, session,
    user and role, and [last_seen] becomes the time of the poll on the
    caller's rows only.  Hence the caller is marked active exactly until
    ten seconds after the poll, whatever its mark was before. *)
Theorem poll_writes_own_heartbeat (st : Store) (c : Client) (t : Timestamp) :
  training_sessions (loadSessionData st c t).1 = training_sessions st
  ∧ session_events (loadSessionData st c t).1 = session_events st
  ∧ key_authorizations (loadSessionData st c t).1 = key_authorizations st
  ∧ (∀ i p, session_participants st !! i = Some p →
       ∃ p', session_participants (loadSessionData st c t).1 !! i = Some p'
         ∧ p_id p' = p_id p ∧ p_session_id p' = p_session_id p
         ∧ p_user_id p' = p_user_id p ∧ role p' = role p
         ∧ (p_session_id p = sessionId c ∧ p_user_id p = userId c →
            last_seen p' = t
            ∧ ∀ now, isActive now p' = bool_decide (now < t + 10000)%Z)
         ∧ (¬ (p_session_id p = sessionId c ∧ p_user_id p = userId c) →
            p' = p)).
Proof.
  destruct (loadSessionData_tables st c t) as (Hs & Hp & He & Hk & _).
  repeat (split; [done|]). intros i p Hi.
  rewrite Hp, update_where_lookup, Hi. cbn [fmap option_fmap option_map].
  eexists. split; [done|]. case_bool_decide as Hown.
  - repeat (split; [done|]). split; [|done]. intros _. split; [done|].
    intros now. unfold isActive. cbn.
    destruct (Z.ltb_spec (now - 10000) t);
      [rewrite bool_decide_eq_true_2 | rewrite bool_decide_eq_false_2]; lia.
  - repeat (split; [done|]). done.
Qed.

(** X10. In a reachable store, a poll by a client whose session is stored
    puts the stored row into the session cell, so the view is current right
    after the poll, and puts the role of the caller's participant row into
    the role cell; a caller without a participant row keeps its role cell,
    and a client whose session is not stored keeps its session cell. *)
Theorem poll_makes_view_current (st : Store) (c : Client) (t : Timestamp) :
  reachable st →
  (∀ s, s ∈ training_sessions st → s_id s = sessionId c →
        session (loadSessionData st c t).2 = Some s
        ∧ view_current (loadSessionData st c t).1 (loadSessionData st c t).2)
  ∧ (∀ p, p ∈ session_participants st →
          p_session_id p = sessionId c → p_user_id p = userId c →
          userRole (loadSessionData st c t).2 = Some (role p))
  ∧ (¬ is_participant st (sessionId c) (userId c) →
     userRole (loadSessionData st c t).2 = userRole c)
  ∧ ((∀ s, s ∈ training_sessions st → s_id s ≠ sessionId c) →
     session (loadSessionData st c t).2 = session c).
Proof.
  intros Hr. pose proof (reachable_session_ids_unique st Hr) as Hu.
  pose proof (reachable_store_wf st Hr) as [_ _ Hpu _ _ _].
  split; [|split; [|split]].
  - intros s Hin Hid.
    assert (Hs : session (loadSessionData st c t).2 = Some s).
    { rewrite loadSessionData_session, <- Hid.
      by rewrite session_by_id_unique. }
    split; [done|]. unfold view_current. rewrite Hs.
    change (sessionId (loadSessionData st c t).2) with (sessionId c).
    rewrite <- Hid. symmetry. by apply session_by_id_unique.
  - intros p. by apply loadSessionData_role.
  - apply loadSessionData_role_absent.
  - intros Hno. rewrite loadSessionData_session.
    destruct (session_by_id st (sessionId c)) as [s|] eqn:Hs; [|done].
    apply session_by_id_elem in Hs as [Hin Hid]. by destruct (Hno s Hin).
Qed.

(** ** Creating, joining and leaving, followed by a poll *)

Lemma reachable_apply_op st o : reachable st → reachable (apply_op st o).
Proof.
  intros [ops ->]. exists (ops ++ [o])%list. unfold run.
  by rewrite foldl_app.
Qed.

(** What a poll loads in a reachable store (the two facts the following
    statements use). *)
Lemma poll_after_reachable st c t :
  reachable st →
  (∀ s, s ∈ training_sessions st → s_id s = sessionId c →
        session (loadSessionData st c t).2 = Some s)
  ∧ (∀ p, p ∈ session_participants st →
          p_session_id p = sessionId c → p_user_id p = userId c →
          userRole (loadSessionData st c t).2 = Some (role p)).
Proof.
  intros Hr. pose proof (reachable_session_ids_unique st Hr) as Hu.
  pose proof (reachable_store_wf st Hr) as [_ _ Hpu _ _ _]. split.
  - intros s Hin Hid. rewrite loadSessionData_session, <- Hid.
    by rewrite session_by_id_unique.
  - intros p. by apply loadSessionData_role.
Qed.

(** X11. Creation followed by the creator's first poll: in a reachable
    store, after an accepted [createSession] the simulator mounted on the
    returned identifier loads the new row (status [waiting], step 0, the
    initial system state, the generated code) and the role [instructor], so
    INITIALIZE SYSTEM is the one control that is enabled. *)
Theorem create_then_poll
    (st : Store) (creator : Id) (code runId : string)
    (now t : Timestamp) :
  reachable st →
  let res := createSession st creator (Ok code) runId now None None in
  let c := (loadSessionData res.1 (mount (next_id st) creator) t).2 in
  res.2 = Joined (next_id st)
  ∧ session c = Some (created_row (next_id st) code creator runId)
  ∧ userRole c = Some instructor
  ∧ initializeEnabled c = true
  ∧ diagnosticsEnabled c = false
  ∧ keySubmitEnabled c = false.
Proof.
  intros Hr res c.
  assert (Hr' : reachable res.1)
    by apply (reachable_apply_op st
                (OpCreate creator (Ok code) runId now None None) Hr).
  destruct (poll_after_reachable res.1 (mount (next_id st) creator) t Hr')
    as (Hsess & Hrole).
  assert (Hs : session c = Some (created_row (next_id st) code creator runId)).
  { apply Hsess; [|done]. unfold res, createSession. cbn.
    apply elem_of_app. right. by apply list_elem_of_singleton. }
  assert (Hro : userRole c = Some instructor).
  { apply (Hrole (participant_row (S (next_id st)) (next_id st) creator
                    instructor now)); [|done|done].
    unfold res, createSession. cbn.
    apply elem_of_app. right. by apply list_elem_of_singleton. }
  split; [done|]. split; [done|]. split; [done|].
  unfold initializeEnabled, diagnosticsEnabled, keySubmitEnabled, isObserver.
  by rewrite Hs, Hro.
Qed.

(** X12. [createSession] is not atomic.  A failed code generation or a
    rejected session insert leaves the store untouched and reports the
    store's message; a rejected participant insert reports its message too,
    but the session row inserted before stays, without any participant, and
    since its status is [waiting] it is a session the lobby lists. *)
Theorem create_failures
    (st : Store) (creator : Id) (code runId : string) (now : Timestamp)
    (m : string) (se pe : option string) :
  reachable st →
  createSession st creator (Err m) runId now se pe = (st, Failed m)
  ∧ createSession st creator (Ok code) runId now (Some m) pe = (st, Failed m)
  ∧ (let res := createSession st creator (Ok code) runId now None (Some m) in
     res.2 = Failed m
     ∧ training_sessions res.1
       = (training_sessions st
          ++ [created_row (next_id st) code creator runId])%list
     ∧ session_participants res.1 = session_participants st
     ∧ (∀ uid, ¬ is_participant res.1 (next_id st) uid)
     ∧ (length (filter (λ s, s_status s = waiting ∨ s_status s = active)
                  (training_sessions st)) < 10 →
        created_row (next_id st) code creator runId
          ∈ loadActiveSessions res.1)).
Proof.
  intros Hr. split; [done|]. split; [done|]. cbn zeta.
  split; [done|]. split; [done|]. split; [done|]. split.
  - intros uid (p & Hp & Hs & _).
    pose proof (reachable_store_wf st Hr) as [_ H2 _ _ _ _].
    rewrite Forall_forall in H2. specialize (H2 p Hp). cbn in *. lia.
  - intros Hlen. unfold loadActiveSessions.
    change (training_sessions
              (createSession st creator (Ok code) runId now None (Some m)).1)
      with (training_sessions st
            ++ [created_row (next_id st) code creator runId])%list.
    rewrite filter_app, filter_cons_True, filter_nil by (by left).
    rewrite take_ge by (rewrite length_reverse, length_app; cbn; lia).
    rewrite elem_of_reverse. apply elem_of_app. right.
    by apply list_elem_of_singleton.
Qed.

(** X13. Joining followed by the first poll: in a reachable store, after a
    join that entered a session the simulator mounted on the returned
    identifier loads the session that carries the upper-cased code, and as
    role the role of the user's row as it was if the user was a participant
    already, and otherwise the role computed from the roles present. *)
Theorem join_then_poll
    (st : Store) (userId : Id) (code : string) (now t : Timestamp)
    (pe : option string) (st' : Store) (sid : Id) :
  reachable st →
  joinSession st userId code now pe = (st', Joined sid) →
  let c := (loadSessionData st' (mount sid userId) t).2 in
  (∃ s, session c = Some s ∧ s_id s = sid
        ∧ session_code s = toUpperCase code)
  ∧ (∀ p, p ∈ session_participants st → p_session_id p = sid →
          p_user_id p = userId → userRole c = Some (role p))
  ∧ (¬ is_participant st sid userId →
     userRole c = Some (next_role (role <$> participants_of st sid))).
Proof.
  intros Hr Hj c.
  assert (Hr' : reachable st').
  { replace st' with (apply_op st (OpJoin userId code now pe));
      [by apply reachable_apply_op|]. cbn. by rewrite Hj. }
  pose proof (reachable_store_wf st Hr) as [_ _ Hpu _ _ _].
  destruct (poll_after_reachable st' (mount sid userId) t Hr')
    as (Hsess & Hrole).
  unfold joinSession in Hj.
  destruct (session_by_code st (toUpperCase code)) as [s|] eqn:Hs; [|done].
  destruct (session_by_code_elem _ _ _ Hs) as [Hin Hcode].
  destruct (participant_of st (s_id s) userId) as [p0|] eqn:Hp.
  - injection Hj as Hst Hsid. subst st' sid. split; [|split].
    + exists s. split; [by apply Hsess|done].
    + intros p. apply Hrole.
    + intros Hno. exfalso. apply Hno.
      apply single_Some in Hp.
      assert (p0 ∈ filter (λ p, p_session_id p = s_id s ∧ p_user_id p = userId)
                     (session_participants st))
        as [[? ?] ?]%list_elem_of_filter by (rewrite Hp; left).
      by exists p0.
  - destruct pe; [done|]. injection Hj as Hst Hsid. subst st' sid.
    split; [|split].
    + exists s. split; [by apply Hsess|done].
    + intros p Hpin Hps Hpu'. exfalso.
      eapply participant_of_None; [done|done|]. by exists p.
    + intros _.
      apply (Hrole (participant_row (next_id st) (s_id s) userId
                      (next_role (role <$> participants_of st (s_id s))) now));
        [|done|done].
      store_simpl. apply elem_of_app. right. by apply list_elem_of_singleton.
Qed.

(** X14. Leaving removes exactly the caller's participant rows of the
    session: afterwards the caller is no participant of it, every other row
    is kept, sessions and key-authorization rows are untouched, and one
    [participant_left] event carrying the role cell is appended.  A user
    who joins next and has no row in the session is inserted with the role
    computed from the rows that stayed: [operator_a] when nobody but the
    leaver held it, [operator_b] when another participant holds
    [operator_a] and nobody but the leaver held [operator_b], and never
    [instructor], so the role of an instructor who leaves is not given
    again. *)
Theorem leave_removes_membership (st : Store) (c : Client) :
  let st' := handleLeaveSession st c in
  let roles' := role <$> participants_of st' (sessionId c) in
  ¬ is_participant st' (sessionId c) (userId c)
  ∧ (∀ p, p ∈ session_participants st'
          ↔ p ∈ session_participants st
            ∧ ¬ (p_session_id p = sessionId c ∧ p_user_id p = userId c))
  ∧ training_sessions st' = training_sessions st
  ∧ key_authorizations st' = key_authorizations st
  ∧ session_events st'
    = (session_events st ++ [left_event (next_id st) c])%list
  ∧ (∀ u code now s,
       session_by_code st (toUpperCase code) = Some s →
       s_id s = sessionId c →
       ¬ is_participant st' (sessionId c) u →
       session_participants (joinSession st' u code now None).1
       = (session_participants st'
          ++ [participant_row (next_id st') (sessionId c) u
                (next_role roles') now])%list)
  ∧ ((∀ p, p ∈ session_participants st → p_session_id p = sessionId c →
           role p = operator_a → p_user_id p = userId c) →
     ¬ holds_role st' (sessionId c) operator_a
     ∧ next_role roles' = operator_a)
  ∧ ((∃ q, q ∈ session_participants st ∧ p_session_id q = sessionId c
           ∧ role q = operator_a ∧ p_user_id q ≠ userId c) →
     (∀ p, p ∈ session_participants st → p_session_id p = sessionId c →
           role p = operator_b → p_user_id p = userId c) →
     ¬ holds_role st' (sessionId c) operator_b
     ∧ next_role roles' = operator_b)
  ∧ next_role roles' ≠ instructor.
Proof.
  intros st' roles'.
  assert (Hmem : ∀ p, p ∈ session_participants st'
          ↔ p ∈ session_participants st
            ∧ ¬ (p_session_id p = sessionId c ∧ p_user_id p = userId c)).
  { intros p. unfold st', handleLeaveSession. store_simpl.
    rewrite list_elem_of_filter. tauto. }
  assert (Hfree : ∀ r,
            (∀ p, p ∈ session_participants st → p_session_id p = sessionId c →
                  role p = r → p_user_id p = userId c) →
            ¬ holds_role st' (sessionId c) r).
  { intros r Hall (q & Hq & Hqs & Hqr). apply Hmem in Hq as [Hq Hnot].
    apply Hnot. split; [done|]. by apply Hall. }
  split; [|split; [done|]].
  { intros (p & Hp & Hs & Hu). apply Hmem in Hp as [_ Hp]. by apply Hp. }
  do 3 (split; [done|]). split; [|split; [|split]].
  - intros u code now s Hs Hid Hno.
    assert (Hs' : session_by_code st' (toUpperCase code) = Some s) by done.
    rewrite (joinSession_resolved st' u code now None s Hs'), Hid.
    rewrite (participant_of_absent _ _ _ Hno). cbn zeta. cbn [fst].
    by store_simpl.
  - intros Hall. pose proof (Hfree operator_a Hall) as Hno.
    split; [done|]. apply next_role_spec.
    intros Hin. by apply holds_role_roles in Hin.
  - intros (q & Hq & Hqs & Hqr & Hqu) Hall.
    pose proof (Hfree operator_b Hall) as Hno.
    split; [done|]. apply next_role_spec.
    + apply holds_role_roles. exists q. split; [|done].
      apply Hmem. split; [done|]. intros [_ ?]. done.
    + intros Hin. by apply holds_role_roles in Hin.
  - by destruct (next_role_cases roles') as [[Heq _]|[[Heq _]|Heq]];
      rewrite Heq.
Qed.

(** ** Key submission end to end *)

Lemma latest_after_update st P f sid :
  (∀ k, k_session_id (f k) = k_session_id k) →
  latest_key_authorization
    (with_key_authorizations (update_where P f) st) sid
  = (λ k, if P k then f k else k) <$> latest_key_authorization st sid.
Proof.
  intros Hf. unfold latest_key_authorization. store_simpl.
  rewrite filter_update_where by (intros k; by rewrite Hf).
  apply last_update_where.
Qed.

Lemma latest_after_insert_event st sid sid' uid ty data :
  latest_key_authorization (insert_event st sid' uid ty data) sid
  = latest_key_authorization st sid.
Proof. done. Qed.

Lemma handleKeySubmit_is_Some st c now :
  is_Some (session c) → is_Some (userRole c) →
  is_Some (handleKeySubmit st c now).
Proof.
  intros [s Hs] [r Hr]. unfold handleKeySubmit. rewrite Hs, Hr.
  destruct (bool_decide (r = operator_a) && _),
    (bool_decide (r = operator_b) && _), (keyAuth c); by eexists.
Qed.

(** X15. A submission is rejected without a trace unless the caller is an
    operator whose own input has exactly eight characters: for every other
    role, and for an operator with a shorter or longer input, the handler
    returns the store and the client as they were (no key row, no event),
    whatever the other input holds. *)
Theorem key_submission_rejected
    (st : Store) (c : Client) (now : Timestamp) (st1 : Store) (c1 : Client) :
  (userRole c ≠ Some operator_a ∨ String.length (operatorAKey c) ≠ 8) →
  (userRole c ≠ Some operator_b ∨ String.length (operatorBKey c) ≠ 8) →
  handleKeySubmit st c now = Some (st1, c1) →
  st1 = st ∧ c1 = c.
Proof.
  intros Ha Hb. unfold handleKeySubmit.
  destruct (session c); [|done].
  destruct (userRole c) as [r|]; [|done].
  assert (bool_decide (r = operator_a)
          && (String.length (operatorAKey c) =? 8) = false) as ->.
  { apply andb_false_iff. destruct Ha as [Ha|Ha].
    - left. apply bool_decide_eq_false_2. congruence.
    - right. by apply Nat.eqb_neq. }
  assert (bool_decide (r = operator_b)
          && (String.length (operatorBKey c) =? 8) = false) as ->.
  { apply andb_false_iff. destruct Hb as [Hb|Hb].
    - left. apply bool_decide_eq_false_2. congruence.
    - right. by apply Nat.eqb_neq. }
  intros [= <- <-]. done.
Qed.

(** X16. The second operator's submission completes the authentication
    within the same action, whatever the two keys are.  When operator B
    (with an eight-character input) submits on the latest row of the
    session as polled, and that row carries operator A's timestamp, then
    after the handler and its timer the latest row is that row with B's key
    and timestamp and status [complete], every row of the session has
    [authenticated = true] and [current_step = 3], and the log has grown by
    the events [operator_b_authenticated] and
    [dual_key_authentication_complete].  Symmetrically for operator A. *)
Theorem second_submission_completes
    (st : Store) (c : Client) (now : Timestamp)
    (k : KeyAuthorization) (sess : TrainingSession) :
  session c = Some sess →
  keyAuth c = Some k →
  latest_key_authorization st (sessionId c) = Some k →
  (userRole c = Some operator_b ∧ String.length (operatorBKey c) = 8
   ∧ is_Some (operator_a_auth_at k))
  ∨ (userRole c = Some operator_a ∧ String.length (operatorAKey c) = 8
     ∧ is_Some (operator_b_auth_at k)) →
  ∃ k',
    latest_key_authorization (keySubmission st c now) (sessionId c) = Some k'
    ∧ k_status k' = complete ∧ both_authenticated k' ∧ k_id k' = k_id k
    ∧ (userRole c = Some operator_b →
       operator_b_key k' = Some (operatorBKey c)
       ∧ operator_b_auth_at k' = Some now
       ∧ operator_a_key k' = operator_a_key k
       ∧ operator_a_auth_at k' = operator_a_auth_at k)
    ∧ (userRole c = Some operator_a →
       operator_a_key k' = Some (operatorAKey c)
       ∧ operator_a_auth_at k' = Some now
       ∧ operator_b_key k' = operator_b_key k
       ∧ operator_b_auth_at k' = operator_b_auth_at k)
    ∧ (∀ i s, training_sessions st !! i = Some s → s_id s = sessionId c →
         ∃ s', training_sessions (keySubmission st c now) !! i = Some s'
               ∧ authenticated (system_state s') = true
               ∧ current_step s' = 3)
    ∧ ∃ e1 e2,
        session_events (keySubmission st c now)
        = (session_events st ++ [e1; e2])%list
        ∧ event_type e2 = "dual_key_authentication_complete"
        ∧ (event_type e1 = "operator_a_authenticated"
           ∨ event_type e1 = "operator_b_authenticated").
Proof.
  intros Hsess Hka Hl Hrole.
  unfold keySubmission.
  destruct (handleKeySubmit_is_Some st c now) as [[st1 c1] Hsub];
    [by eexists|by destruct Hrole as [(-> & _)|(-> & _)]; eexists|].
  rewrite Hsub.
  destruct (handleKeySubmit_tables _ _ _ _ _ Hsub) as (Hs1 & _ & Hk1 & _).
  assert (∃ k1, latest_key_authorization st1 (sessionId c) = Some k1
                ∧ both_authenticated k1 ∧ k_id k1 = k_id k
                ∧ k_status k1 = k_status k
                ∧ (userRole c = Some operator_b →
                   k1 = set_operator_b (operatorBKey c) now k)
                ∧ (userRole c = Some operator_a →
                   k1 = set_operator_a (operatorAKey c) now k)
                ∧ ∃ e1, session_events st1 = (session_events st ++ [e1])%list
                        ∧ (event_type e1 = "operator_a_authenticated"
                           ∨ event_type e1 = "operator_b_authenticated"))
    as (k1 & Hl1 & Hb1 & Hid1 & Hst1 & HkB & HkA & e1 & He1 & Hty).
  { unfold handleKeySubmit in Hsub. rewrite Hsess, Hka in Hsub.
    destruct Hrole as [(Hr & Hlen & Hother)|(Hr & Hlen & Hother)];
      rewrite Hr in *; role_tests_in Hsub;
      apply Nat.eqb_eq in Hlen; rewrite Hlen in Hsub;
      cbn [andb] in Hsub; injection Hsub as <- <-;
      unfold logEvent; rewrite latest_after_insert_event,
        latest_after_update, Hl by done;
      cbn [fmap option_fmap option_map];
      rewrite bool_decide_eq_true_2 by done;
      eexists; (split; [done|]);
      (split; [split; cbn; by eauto|]);
      repeat (split; [done|]); eexists; (split; [done|]); cbn; auto. }
  destruct (completion_timer_latest st1 c k1 Hl1 Hb1) as [Hl2 _].
  destruct (completionTimer_fires st1 c k1 Hl1 Hb1)
    as (Hs2 & _ & He2 & _ & _).
  eexists. split; [exact Hl2|]. split; [done|]. split; [done|].
  split; [done|]. split; [|split; [|split]].
  - intros Hr. rewrite (HkB Hr). done.
  - intros Hr. rewrite (HkA Hr). done.
  - intros i s Hi Hid. rewrite Hs2, Hs1, update_where_lookup, Hi.
    cbn [fmap option_fmap option_map]. unfold is_session, write_state.
    rewrite bool_decide_eq_true_2, Hsess by done. eexists. done.
  - exists e1, (completion_event (next_id st1) c).
    rewrite He2, He1, <- app_assoc. done.
Qed.

(** X17. A submission made without a polled row never completes the
    authentication, even when the other operator has already submitted: the
    handler appends a fresh row that carries the caller's key and timestamp
    only, this row is now the latest of the session, so the completion
    check finds one timestamp and writes nothing; session rows and the
    earlier key rows stay as they were. *)
Theorem submission_without_polled_row
    (st : Store) (c : Client) (now : Timestamp) :
  is_Some (session c) →
  keyAuth c = None →
  (userRole c = Some operator_a ∧ String.length (operatorAKey c) = 8)
  ∨ (userRole c = Some operator_b ∧ String.length (operatorBKey c) = 8) →
  ∃ fresh,
    key_authorizations (keySubmission st c now)
    = (key_authorizations st ++ [fresh])%list
    ∧ latest_key_authorization (keySubmission st c now) (sessionId c)
      = Some fresh
    ∧ k_status fresh = pending
    ∧ ¬ both_authenticated fresh
    ∧ (userRole c = Some operator_a →
       fresh = fresh_key_row (next_id st) (sessionId c)
                 (Some (operatorAKey c)) None (Some now) None)
    ∧ (userRole c = Some operator_b →
       fresh = fresh_key_row (next_id st) (sessionId c)
                 None (Some (operatorBKey c)) None (Some now))
    ∧ training_sessions (keySubmission st c now) = training_sessions st.
Proof.
  intros [sess Hsess] Hka Hrole. unfold keySubmission.
  assert (∃ st1 c1 fresh,
            handleKeySubmit st c now = Some (st1, c1)
            ∧ key_authorizations st1 = (key_authorizations st ++ [fresh])%list
            ∧ k_session_id fresh = sessionId c
            ∧ k_status fresh = pending ∧ ¬ both_authenticated fresh
            ∧ (userRole c = Some operator_a →
               fresh = fresh_key_row (next_id st) (sessionId c)
                         (Some (operatorAKey c)) None (Some now) None)
            ∧ (userRole c = Some operator_b →
               fresh = fresh_key_row (next_id st) (sessionId c)
                         None (Some (operatorBKey c)) None (Some now))
            ∧ training_sessions st1 = training_sessions st)
    as (st1 & c1 & fresh & Hsub & Hk & Hfs & Hst & Hnb & HA & HB & Hs).
  { unfold handleKeySubmit. rewrite Hsess, Hka.
    destruct Hrole as [(Hr & Hlen)|(Hr & Hlen)]; rewrite Hr;
      apply Nat.eqb_eq in Hlen; rewrite Hlen;
      rewrite ?(bool_decide_eq_true_2 (operator_a = operator_a)),
        ?(bool_decide_eq_true_2 (operator_b = operator_b)),
        ?(bool_decide_eq_false_2 (operator_a = operator_b)),
        ?(bool_decide_eq_false_2 (operator_b = operator_a)) by done;
      cbn [andb]; eexists _, _, _; (split; [done|]); store_simpl;
      (split; [done|]); (split; [done|]); (split; [done|]);
      (split; [by intros [[? ?] [? ?]]|]); done. }
  rewrite Hsub.
  assert (Hl : latest_key_authorization st1 (sessionId c) = Some fresh).
  { unfold latest_key_authorization. rewrite Hk, filter_app.
    rewrite (filter_cons_True _ fresh), filter_nil by done.
    apply last_snoc. }
  rewrite completionTimer_idle by (intros k ?; by simplify_eq).
  exists fresh. done.
Qed.

Lemma update_where_idemp {A} (P : A → bool) (f : A → A) (rows : list A) :
  (∀ r, P (f r) = P r) → (∀ r, f (f r) = f r) →
  update_where P f (update_where P f rows) = update_where P f rows.
Proof.
  intros HP Hf. rewrite update_where_compose by done.
  unfold update_where. apply list_fmap_ext. intros _ r _. cbn.
  destruct (P r); [apply Hf|done].
Qed.

(** X18. The completion check has no guard against running again: on a
    session whose latest row has both timestamps, a second run changes
    neither the session rows nor the key rows written by the first, but it
    appends one more [dual_key_authentication_complete] event. *)
Theorem completion_check_repeats
    (st : Store) (c : Client) (a : KeyAuthorization) :
  latest_key_authorization st (sessionId c) = Some a →
  both_authenticated a →
  let st1 := completionTimer st c in
  let st2 := completionTimer st1 c in
  training_sessions st2 = training_sessions st1
  ∧ key_authorizations st2 = key_authorizations st1
  ∧ session_participants st2 = session_participants st1
  ∧ session_events st2
    = (session_events st
       ++ [completion_event (next_id st) c;
           completion_event (S (next_id st)) c])%list.
Proof.
  intros Hl Hb st1 st2.
  destruct (completionTimer_fires st c a Hl Hb) as (Hs1 & Hp1 & He1 & Hk1 & Hn1).
  destruct (completion_timer_latest st c a Hl Hb) as [Hl1 _].
  assert (Hb1 : both_authenticated (set_key_status complete a)) by done.
  destruct (completionTimer_fires st1 c _ Hl1 Hb1)
    as (Hs2 & Hp2 & He2 & Hk2 & _).
  fold st1 in Hs1, Hp1, He1, Hk1, Hn1. fold st2 in Hs2, Hp2, He2, Hk2.
  split; [|split; [|split]].
  - rewrite Hs2, Hs1. apply update_where_idemp.
    + intros s. unfold is_session, write_state. by destruct (session c).
    + intros s. unfold write_state. by destruct (session c).
  - rewrite Hk2, Hk1. by apply update_where_idemp.
  - done.
  - rewrite He2, He1, Hn1, <- app_assoc. done.
Qed.

(** ** Controls and roles *)

(** X19. The controls follow the steps.  Pressing an enabled INITIALIZE
    SYSTEM makes the session [active] at step 1 with [initialized] set, and
    on the row so written the button is no longer offered while RUN
    DIAGNOSTICS is, to everyone but observers (if diagnostics had not been
    seen passed).  Pressing an enabled RUN DIAGNOSTICS with a passing draw
    puts the session at step 2, and on the row so written neither of the
    two buttons is offered any more, while an operator with an
    eight-character input and no timestamp of its own on the polled key row
    may submit. *)
Theorem controls_follow_steps
    (st : Store) (c : Client) (i : nat) (s sess : TrainingSession) :
  training_sessions st !! i = Some s →
  s_id s = sessionId c →
  session c = Some sess →
  (initializeEnabled c = true →
   ∃ s', training_sessions (press st c InitializeButton) !! i = Some s'
     ∧ s_status s' = active ∧ current_step s' = 1
     ∧ initialized (system_state s') = true
     ∧ ∀ c2, session c2 = Some s' →
         initializeEnabled c2 = false
         ∧ (diagnosticsPassed (system_state sess) = false →
            diagnosticsEnabled c2 = negb (isObserver c2)))
  ∧ (diagnosticsEnabled c = true →
     ∀ r, diagnostics_outcome r = true →
     ∃ s', training_sessions (press st c (DiagnosticsButton r)) !! i = Some s'
       ∧ current_step s' = 2
       ∧ diagnosticsPassed (system_state s') = true
       ∧ ∀ c2, session c2 = Some s' →
           initializeEnabled c2 = false
           ∧ diagnosticsEnabled c2 = false
           ∧ (userRole c2 = Some operator_a →
              String.length (operatorAKey c2) = 8 →
              seenOperatorA c2 = false → keySubmitEnabled c2 = true)
           ∧ (userRole c2 = Some operator_b →
              String.length (operatorBKey c2) = 8 →
              seenOperatorB c2 = false → keySubmitEnabled c2 = true)).
Proof.
  intros Hi Hid Hsess. split.
  - intros Hen. cbn [press]. rewrite Hen.
    rewrite handleInitialize_sessions, update_where_lookup, Hi.
    cbn [fmap option_fmap option_map]. unfold is_session, write_state.
    rewrite bool_decide_eq_true_2, Hsess by done.
    eexists. split; [done|]. repeat (split; [done|]).
    intros c2 Hc2. unfold initializeEnabled, diagnosticsEnabled.
    rewrite Hc2. cbn. split; [done|]. by intros ->.
  - intros Hen r Hpass. cbn [press]. rewrite Hen.
    unfold diagnosticsEnabled in Hen. rewrite Hsess in Hen.
    apply andb_prop in Hen as [[Hinit _]%andb_prop _].
    rewrite diagnostics_action_sessions, update_where_lookup, Hi.
    cbn [fmap option_fmap option_map]. unfold is_session, write_state.
    rewrite bool_decide_eq_true_2, Hsess, Hpass by done.
    eexists. split; [done|]. repeat (split; [done|]).
    intros c2 Hc2.
    unfold initializeEnabled, diagnosticsEnabled, keySubmitEnabled.
    rewrite Hc2. cbn. rewrite Hinit. cbn.
    split; [done|]. split; [done|].
    split; intros Hr Hlen Hseen; rewrite Hr, Hseen;
      apply Nat.eqb_eq in Hlen; rewrite Hlen;
      rewrite ?(bool_decide_eq_true_2 (Some _ = Some _)) by done; cbn;
      by rewrite ?orb_true_r.
Qed.

(** X20. Roles are enforced by the controls only.  For an observer every
    control is disabled, and so is key submission for an instructor and
    for a client whose role has not been loaded: pressing leaves the store
    as it is.  The handlers themselves never read the role: initialization
    and the diagnostics callback write the same for any two clients that
    agree on the session identifier, the user and the session last read. *)
Theorem roles_enforced_by_controls (st : Store) (c : Client) :
  (userRole c = Some observer → ∀ b, press st c b = st)
  ∧ (userRole c = Some instructor ∨ userRole c = None →
     ∀ now, press st c (SubmitKeyButton now) = st)
  ∧ (∀ c2, sessionId c2 = sessionId c → userId c2 = userId c →
           session c2 = session c →
           handleInitialize st c2 = handleInitialize st c
           ∧ ∀ r, diagnosticsTimer (handleDiagnostics st c2) c2 r
                  = diagnosticsTimer (handleDiagnostics st c) c r).
Proof.
  split; [|split].
  - intros Hr b. destruct b; cbn [press];
      unfold initializeEnabled, diagnosticsEnabled, keySubmitEnabled,
        isObserver; rewrite Hr; destruct (session c); try done;
      rewrite ?(bool_decide_eq_true_2 (Some observer = Some observer)),
        ?(bool_decide_eq_false_2 (Some observer = Some operator_a)),
        ?(bool_decide_eq_false_2 (Some observer = Some operator_b)) by done;
      cbn; by rewrite ?andb_false_r.
  - intros Hr now. cbn [press]. unfold keySubmitEnabled.
    destruct (session c); [|done].
    destruct Hr as [Hr|Hr]; rewrite Hr;
      rewrite ?(bool_decide_eq_false_2 (_ = Some operator_a)),
        ?(bool_decide_eq_false_2 (_ = Some operator_b)) by done;
      cbn; by rewrite ?andb_false_r.
  - intros c2 Hsid Huid Hs. split; [|intros r].
    + unfold handleInitialize, updateSessionState, logEvent.
      by rewrite Hsid, Huid, Hs.
    + unfold diagnosticsTimer, handleDiagnostics, updateSessionState, logEvent.
      by rewrite Hsid, Huid, Hs.
Qed.

(** ** The run identifier *)







(** ** Ranges of the stored columns *)

(** A property of session rows that creation establishes and the row
    writes of the handlers keep holds in every reachable store. *)
Lemma sessions_invariant (Q : TrainingSession → Prop) :
  (∀ id code u runId, Q (created_row id code u runId)) →
  (∀ s v, Q s → Q (set_system_state v s)) →
  (∀ s, Q s → Q (set_status active (set_current_step 1 s))) →
  (∀ s, Q s → Q (set_current_step 2 s)) →
  (∀ s, Q s → Q (set_current_step 3 s)) →
  ∀ st o, Forall Q (training_sessions st) →
          Forall Q (training_sessions (apply_op st o)).
Proof.
  intros Hc Hv H1 H2 H3 st o Hall.
  assert (Hw : ∀ c u s, Q s → Q (write_state c u s)).
  { intros c u s Hs. unfold write_state. destruct (session c); auto. }
  destruct o; cbn [apply_op].
  - unfold createSession. destruct rpc; [|done].
    destruct sessionError; [done|]. cbn [insert_session].
    destruct participantError; store_simpl;
      (apply Forall_app; split; [done|]); apply Forall_singleton, Hc.
  - unfold joinSession.
    destruct (session_by_code _ _); [|done].
    destruct (participant_of _ _ _); [done|]. by destruct participantError.
  - done.
  - rewrite handleInitialize_sessions. apply Forall_update_where; auto.
  - done.
  - rewrite diagnosticsTimer_sessions. apply Forall_update_where; [|done].
    intros s _ Hs _. cbn zeta. destruct (diagnostics_outcome r); auto.
  - destruct (handleKeySubmit st c now) as [[st1 c1]|] eqn:Hsub; [|done].
    by destruct (handleKeySubmit_tables _ _ _ _ _ Hsub) as [-> _].
  - destruct (completionTimer_cases st c) as [->|(a & Hl & Hb)]; [done|].
    destruct (completionTimer_fires st c a Hl Hb) as (-> & _).
    apply Forall_update_where; auto.
  - done.
Qed.

Lemma keys_invariant (Q : KeyAuthorization → Prop) :
  (∀ id sid key now,
     String.length key = 8 →
     Q (fresh_key_row id sid (Some key) None (Some now) None)
     ∧ Q (fresh_key_row id sid None (Some key) None (Some now))) →
  (∀ k key now, String.length key = 8 → Q k →
     Q (set_operator_a key now k) ∧ Q (set_operator_b key now k)) →
  (∀ k, Q k → Q (set_key_status complete k)) →
  ∀ st o, Forall Q (key_authorizations st) →
          Forall Q (key_authorizations (apply_op st o)).
Proof.
  intros Hf Hs Hc st o Hall.
  destruct o; try (by rewrite apply_op_keys_untouched); cbn [apply_op].
  - destruct (handleKeySubmit st c now) as [[st1 c1]|] eqn:Hsub; [|done].
    destruct (handleKeySubmit_tables _ _ _ _ _ Hsub) as (_ & _ & -> & _).
    unfold upsert_key_row.
    destruct (userRole c) as [[]|]; try done;
      match goal with
      | |- context [String.length ?key =? 8] =>
        destruct (String.length key =? 8) eqn:Hlen; [|done];
        apply Nat.eqb_eq in Hlen
      end;
      (destruct (keyAuth c);
       [apply Forall_update_where; [|done]; intros row _ Hrow _;
        by apply Hs
       |apply Forall_app; split; [done|]; apply Forall_singleton;
        by apply Hf]).
  - destruct (completionTimer_cases st c) as [->|(a & Hl & Hb)]; [done|].
    destruct (completionTimer_fires st c a Hl Hb) as (_ & _ & _ & -> & _).
    apply Forall_update_where; auto.
Qed.

(** One operation keeps the status of a session row or makes it [active]. *)
Lemma status_kept st o i s :
  training_sessions st !! i = Some s →
  ∃ s', training_sessions (apply_op st o) !! i = Some s'
        ∧ (s_status s' = s_status s ∨ s_status s' = active).
Proof.
  intros Hi.
  assert (Hsame : ∀ st', training_sessions st' = training_sessions st →
            ∃ s', training_sessions st' !! i = Some s'
                  ∧ (s_status s' = s_status s ∨ s_status s' = active)).
  { intros st' ->. exists s. by split; [|left]. }
  assert (Hw : ∀ c u x, s_status (write_state c u x) = s_status x).
  { intros c u x. unfold write_state. by destruct (session c). }
  destruct o; cbn [apply_op].
  - unfold createSession. destruct rpc; [|by apply Hsame].
    destruct sessionError; [by apply Hsame|]. cbn [insert_session].
    exists s. split; [|by left].
    destruct participantError; store_simpl;
      by rewrite lookup_app_l by (by eapply lookup_lt_Some).
  - apply Hsame. unfold joinSession.
    destruct (session_by_code _ _); [|done].
    destruct (participant_of _ _ _); [done|]. by destruct participantError.
  - by apply Hsame.
  - rewrite handleInitialize_sessions, update_where_lookup, Hi.
    cbn [fmap option_fmap option_map]. eexists. split; [done|].
    destruct (is_session c s); [by right|by left].
  - by apply Hsame.
  - rewrite diagnosticsTimer_sessions, update_where_lookup, Hi.
    cbn [fmap option_fmap option_map]. eexists. split; [done|]. left.
    destruct (is_session c s); [|done]. cbn zeta.
    destruct (diagnostics_outcome r); cbn; apply Hw.
  - destruct (handleKeySubmit st c now) as [[st1 c1]|] eqn:Hsub;
      [|by apply Hsame].
    apply Hsame. by destruct (handleKeySubmit_tables _ _ _ _ _ Hsub) as [? _].
  - destruct (completionTimer_cases st c) as [->|(a & Hl & Hb)];
      [by apply Hsame|].
    destruct (completionTimer_fires st c a Hl Hb) as (-> & _).
    rewrite update_where_lookup, Hi.
    cbn [fmap option_fmap option_map]. eexists. split; [done|]. left.
    destruct (is_session c s); [|done]. cbn. apply Hw.
  - by apply Hsame.
Qed.

(** X22. In every reachable store a session is [waiting] or [active] and
    its step is between 0 and 3: no operation pauses or completes a
    session, and none makes an [active] session [waiting] again.  So every
    session ever created stays among those the lobby may list. *)
Theorem sessions_stay_joinable (st : Store) :
  reachable st →
  Forall session_row_ok (training_sessions st)
  ∧ (∀ o i s, training_sessions st !! i = Some s → s_status s = active →
       ∃ s', training_sessions (apply_op st o) !! i = Some s'
             ∧ s_status s' = active)
  ∧ loadActiveSessions st = take 10 (reverse (training_sessions st)).
Proof.
  intros [ops ->].
  assert (Hall : Forall session_row_ok (training_sessions (run empty_store ops))).
  { assert (∀ st, Forall session_row_ok (training_sessions st) →
              Forall session_row_ok (training_sessions (run st ops))) as H.
    { induction ops as [|o ops IH]; intros st Hst; [done|].
      apply IH. revert Hst. apply sessions_invariant;
        unfold session_row_ok.
      - intros. cbn. split; [by left|lia].
      - by intros s [] Hs.
      - intros s [_ _]. cbn. split; [by right|lia].
      - intros s [Hs _]. cbn. split; [done|lia].
      - intros s [Hs _]. cbn. split; [done|lia]. }
    apply H. constructor. }
  split; [done|]. split.
  - intros o i s Hi Hact.
    destruct (status_kept (run empty_store ops) o i s Hi) as (s' & Hs' & Hst).
    exists s'. split; [done|]. destruct Hst as [Hst | Hst]; by rewrite Hst.
  - unfold loadActiveSessions. f_equal. f_equal.
    induction Hall as [|s l [Hs _] _ IH]; [done|].
    by rewrite filter_cons_True, IH.
Qed.

(** X23. In every reachable store a key row holds only operator keys of
    exactly eight characters, each with its time of entry and no time
    without a key, and never a command key: no operation writes the
    command columns. *)
Theorem key_rows_well_shaped (st : Store) :
  reachable st → Forall key_row_shape (key_authorizations st).
Proof.
  intros [ops ->].
  assert (∀ st, Forall key_row_shape (key_authorizations st) →
            Forall key_row_shape (key_authorizations (run st ops))) as H.
  { induction ops as [|o ops IH]; intros st Hst; [done|].
    apply IH. revert Hst. apply keys_invariant; unfold key_row_shape.
    - intros id sid key now Hlen. cbn.
      repeat split; try done; try (by intros ? [= <-]);
        try (by intros [? [=]]); by intros _; eexists.
    - intros k key now Hlen (Ha & Hb & Hta & Htb & Hc & Hd). cbn.
      repeat split; try done; try (by intros ? [= <-]);
        try (by intros _; eexists); tauto.
    - intros k Hk. exact Hk. }
  apply H. constructor.
Qed.

(** ** The further statements at the worked session *)

(** X3 at the type of the completion event. *)
Lemma display_label_replaces_first_underscore_witness :
  (is_ascii "dual" = true
   ∧ is_ascii "key_authentication_complete" = true
   ∧ occurrences "_" "dual" = 0)
  ∧ display_label "dual_key_authentication_complete"
    = "DUAL KEY_AUTHENTICATION_COMPLETE".
Proof.
  assert (H1 : is_ascii "dual" = true) by reflexivity.
  assert (H2 : is_ascii "key_authentication_complete" = true) by reflexivity.
  assert (H3 : occurrences "_" "dual" = 0) by reflexivity.
  split; [split; [exact H1 | split; [exact H2 | exact H3]]|].
  destruct (display_label_replaces_first_underscore
              "dual" "key_authentication_complete" H1 H2 H3) as [Hlabel _].
  exact Hlabel.
Defined.

(** X5 at a code typed in lower case. *)
Lemma join_with_typed_code_witness :
  is_ascii "ab12-cd34" = true
  ∧ joinSession demo_joined 14 (onChangeSessionCode "ab12-cd34") 9000%Z None
    = joinSession demo_joined 14 "ab12-cd34" 9000%Z None
  ∧ String.length (onChangeSessionCode "ab12-cd34")
    = String.length "ab12-cd34".
Proof.
  assert (H : is_ascii "ab12-cd34" = true) by reflexivity.
  split; [exact H|].
  destruct (join_with_typed_code demo_joined 14 "ab12-cd34" 9000%Z None H)
    as (Hjoin & Hlen & _).
  split; [exact Hjoin | exact Hlen].
Defined.

(** X8: users 11 and 12 join the session of the worked example at once,
    right after its creation. *)
Lemma interleaved_joins_share_role_witness :
  (session_by_code demo_created (toUpperCase "ab12-cd34")
     = Some demo_row_created
   ∧ session_by_code demo_created (toUpperCase "AB12-cd34")
     = Some demo_row_created
   ∧ ¬ is_participant demo_created (s_id demo_row_created) 11
   ∧ ¬ is_participant demo_created (s_id demo_row_created) 12)
  ∧ next_role (role <$> participants_of demo_created (s_id demo_row_created))
    = operator_a
  ∧ session_participants
      (run_joiners demo_created (joiner 11 "ab12-cd34" 2000%Z None)
         (joiner 12 "AB12-cd34" 3000%Z None) reads_before_inserts).1.1
    = (session_participants demo_created
       ++ [participant_row (next_id demo_created) (s_id demo_row_created) 11
             (next_role
                (role <$> participants_of demo_created (s_id demo_row_created)))
             2000%Z;
           participant_row (S (S (next_id demo_created)))
             (s_id demo_row_created) 12
             (next_role
                (role <$> participants_of demo_created (s_id demo_row_created)))
             3000%Z])%list
  ∧ ¬ roles_exclusive
        (run_joiners demo_created (joiner 11 "ab12-cd34" 2000%Z None)
           (joiner 12 "AB12-cd34" 3000%Z None) reads_before_inserts).1.1.
Proof.
  assert (H1 : session_by_code demo_created (toUpperCase "ab12-cd34")
               = Some demo_row_created) by (vm_compute; reflexivity).
  assert (H2 : session_by_code demo_created (toUpperCase "AB12-cd34")
               = Some demo_row_created) by (vm_compute; reflexivity).
  assert (H3 : ¬ is_participant demo_created (s_id demo_row_created) 11)
    by compute_done.
  assert (H4 : ¬ is_participant demo_created (s_id demo_row_created) 12)
    by compute_done.
  assert (Hr : next_role
                 (role <$> participants_of demo_created (s_id demo_row_created))
               = operator_a) by (vm_compute; reflexivity).
  split; [split; [exact H1 | split; [exact H2 | split; [exact H3 | exact H4]]]|].
  split; [exact Hr|].
  destruct (interleaved_joins_share_role demo_created 11 12
              "ab12-cd34" "AB12-cd34" 2000%Z 3000%Z demo_row_created
              H1 H2 H3 H4) as (_ & _ & Hrows & Hcount).
  split; [exact Hrows|].
  apply Hcount. rewrite Hr. discriminate.
Defined.

(** X24 after the three joins. *)
Lemma instructor_is_the_creator_witness :
  reachable demo_joined
  ∧ instructor_held_once demo_joined ∧ instructor_is_creator demo_joined.
Proof.
  assert (H : reachable demo_joined) by (exists demo_ops; reflexivity).
  split; [exact H|].
  destruct (instructor_is_the_creator demo_joined H) as (Honce & Hcreator & _).
  split; [exact Honce | exact Hcreator].
Defined.

(** X14: operator A leaves the worked session and user 14 joins. *)
Lemma leave_removes_membership_witness :
  next_role
    (role <$> participants_of (handleLeaveSession demo_joined (mount 0 11))
                (sessionId (mount 0 11)))
  = operator_a
  ∧ session_participants
      (joinSession (handleLeaveSession demo_joined (mount 0 11))
         14 "ab12-cd34" 9000%Z None).1
    = (session_participants (handleLeaveSession demo_joined (mount 0 11))
       ++ [participant_row
             (next_id (handleLeaveSession demo_joined (mount 0 11)))
             (sessionId (mount 0 11)) 14
             (next_role
                (role <$> participants_of
                            (handleLeaveSession demo_joined (mount 0 11))
                            (sessionId (mount 0 11))))
             9000%Z])%list.
Proof.
  destruct (leave_removes_membership demo_joined (mount 0 11))
    as (_ & _ & _ & _ & _ & Hjoin & Ha & _).
  split.
  - apply Ha. intros p Hp _ Hrole.
    assert (Hrows : session_participants demo_joined
                    = [participant_row 1 0 10 instructor 1000%Z;
                       participant_row 2 0 11 operator_a 2000%Z;
                       participant_row 4 0 12 operator_b 3000%Z;
                       participant_row 6 0 13 observer 4000%Z])
      by (vm_compute; reflexivity).
    rewrite Hrows in Hp.
    repeat (apply elem_of_cons in Hp as [Hp|Hp]; [subst p|]);
      try discriminate Hrole; [reflexivity|].
    by apply elem_of_nil in Hp.
  - apply (Hjoin 14 "ab12-cd34" 9000%Z demo_row_created).
    + vm_compute. reflexivity.
    + reflexivity.
    + compute_done.
Defined.

(** X7 across the instructor's poll and initialization. *)
Lemma sessions_never_deleted_witness :
  training_sessions demo_joined !! 0 = Some demo_row_created
  ∧ ∃ s', training_sessions
            (run demo_joined
               [OpLoad (mount 0 10) 5000%Z; OpInitialize demo_instructor])
            !! 0 = Some s'
          ∧ s_id s' = s_id demo_row_created
          ∧ session_code s' = session_code demo_row_created.
Proof.
  assert (H : training_sessions demo_joined !! 0 = Some demo_row_created)
    by (vm_compute; reflexivity).
  split; [exact H|].
  destruct (sessions_never_deleted demo_joined
              [OpLoad (mount 0 10) 5000%Z; OpInitialize demo_instructor]
              0 demo_row_created H) as (s' & Hs' & Hid & Hcode & _).
  exists s'. split; [exact Hs'|]. split; [exact Hid | exact Hcode].
Defined.

(** X10 at the instructor's first poll. *)
Lemma poll_makes_view_current_witness :
  reachable demo_joined
  ∧ session (loadSessionData demo_joined (mount 0 10) 5000%Z).2
    = Some demo_row_created
  ∧ view_current (loadSessionData demo_joined (mount 0 10) 5000%Z).1
      (loadSessionData demo_joined (mount 0 10) 5000%Z).2.
Proof.
  assert (H : reachable demo_joined) by (exists demo_ops; reflexivity).
  split; [exact H|].
  destruct (poll_makes_view_current demo_joined (mount 0 10) 5000%Z H)
    as (Hs & _).
  apply (Hs demo_row_created).
  - apply (list_elem_of_lookup_2 _ 0). vm_compute. reflexivity.
  - reflexivity.
Defined.

(** X11: user 14 creates a second session and polls. *)
Lemma create_then_poll_witness :
  reachable demo_joined
  ∧ userRole
      (loadSessionData
         (createSession demo_joined 14 (Ok "ZZ99-YY88") "RUN-M2Q8XK-1B7D"
            20000%Z None None).1
         (mount (next_id demo_joined) 14) 21000%Z).2
    = Some instructor.
Proof.
  assert (H : reachable demo_joined) by (exists demo_ops; reflexivity).
  split; [exact H|].
  destruct (create_then_poll demo_joined 14 "ZZ99-YY88" "RUN-M2Q8XK-1B7D"
              20000%Z 21000%Z H) as (_ & _ & Hr & _).
  exact Hr.
Defined.

(** X12: the participant insert of a second session fails. *)
Lemma create_failures_witness :
  reachable demo_joined
  ∧ ∀ uid,
      ¬ is_participant
          (createSession demo_joined 14 (Ok "ZZ99-YY88") "RUN-M2Q8XK-1B7D"
             20000%Z None (Some "insert failed")).1
          (next_id demo_joined) uid.
Proof.
  assert (H : reachable demo_joined) by (exists demo_ops; reflexivity).
  split; [exact H|].
  destruct (create_failures demo_joined 14 "ZZ99-YY88" "RUN-M2Q8XK-1B7D"
              20000%Z "insert failed" None None H)
    as (_ & _ & _ & _ & _ & Hno & _).
  exact Hno.
Defined.

(** X13: user 12 joins the worked session and polls. *)
Lemma join_then_poll_witness :
  (reachable demo_one_operator
   ∧ joinSession demo_one_operator 12 "AB12-cd34" 3000%Z None
     = ((joinSession demo_one_operator 12 "AB12-cd34" 3000%Z None).1,
        Joined 0))
  ∧ userRole
      (loadSessionData
         (joinSession demo_one_operator 12 "AB12-cd34" 3000%Z None).1
         (mount 0 12) 3500%Z).2
    = Some (next_role (role <$> participants_of demo_one_operator 0)).
Proof.
  assert (H1 : reachable demo_one_operator)
    by (exists (take 2 demo_ops); reflexivity).
  assert (H2 : joinSession demo_one_operator 12 "AB12-cd34" 3000%Z None
               = ((joinSession demo_one_operator 12 "AB12-cd34" 3000%Z
                     None).1, Joined 0))
    by (vm_compute; reflexivity).
  split; [split; [exact H1 | exact H2]|].
  destruct (join_then_poll demo_one_operator 12 "AB12-cd34" 3000%Z 3500%Z
              None _ 0 H1 H2) as (_ & _ & Hr).
  apply Hr. compute_done.
Defined.

(** X15: the instructor's view submits a key. *)
Lemma key_submission_rejected_witness :
  ((userRole demo_instructor' ≠ Some operator_a
    ∨ String.length (operatorAKey demo_instructor') ≠ 8)
   ∧ (userRole demo_instructor' ≠ Some operator_b
      ∨ String.length (operatorBKey demo_instructor') ≠ 8)
   ∧ handleKeySubmit demo_diagnosed demo_instructor' 12500%Z
     = Some (demo_diagnosed, demo_instructor'))
  ∧ demo_diagnosed = demo_diagnosed ∧ demo_instructor' = demo_instructor'.
Proof.
  assert (H1 : userRole demo_instructor' ≠ Some operator_a
               ∨ String.length (operatorAKey demo_instructor') ≠ 8)
    by (left; vm_compute; discriminate).
  assert (H2 : userRole demo_instructor' ≠ Some operator_b
               ∨ String.length (operatorBKey demo_instructor') ≠ 8)
    by (left; vm_compute; discriminate).
  assert (H3 : handleKeySubmit demo_diagnosed demo_instructor' 12500%Z
               = Some (demo_diagnosed, demo_instructor'))
    by (vm_compute; reflexivity).
  split; [split; [exact H1 | split; [exact H2 | exact H3]]|].
  exact (key_submission_rejected demo_diagnosed demo_instructor' 12500%Z
           demo_diagnosed demo_instructor' H1 H2 H3).
Defined.

(** X16 at operator B's submission of the worked session. *)
Lemma second_submission_completes_witness :
  (session demo_operator_b
   = Some (default demo_row_created (session demo_operator_b))
   ∧ keyAuth demo_operator_b = Some demo_key_row_a
   ∧ latest_key_authorization demo_before_b_submits
       (sessionId demo_operator_b) = Some demo_key_row_a
   ∧ userRole demo_operator_b = Some operator_b
   ∧ String.length (operatorBKey demo_operator_b) = 8
   ∧ is_Some (operator_a_auth_at demo_key_row_a))
  ∧ ∃ k',
      latest_key_authorization
        (keySubmission demo_before_b_submits demo_operator_b 15000%Z)
        (sessionId demo_operator_b) = Some k'
      ∧ k_status k' = complete ∧ both_authenticated k'.
Proof.
  assert (H1 : session demo_operator_b
               = Some (default demo_row_created (session demo_operator_b)))
    by (vm_compute; reflexivity).
  assert (H2 : keyAuth demo_operator_b = Some demo_key_row_a)
    by (vm_compute; reflexivity).
  assert (H3 : latest_key_authorization demo_before_b_submits
                 (sessionId demo_operator_b) = Some demo_key_row_a)
    by (vm_compute; reflexivity).
  assert (H4 : userRole demo_operator_b = Some operator_b)
    by (vm_compute; reflexivity).
  assert (H5 : String.length (operatorBKey demo_operator_b) = 8)
    by (vm_compute; reflexivity).
  assert (H6 : is_Some (operator_a_auth_at demo_key_row_a))
    by (eexists; reflexivity).
  split.
  { split; [exact H1|]. split; [exact H2|]. split; [exact H3|].
    split; [exact H4|]. split; [exact H5 | exact H6]. }
  destruct (second_submission_completes demo_before_b_submits
              demo_operator_b 15000%Z demo_key_row_a _ H1 H2 H3
              (or_introl (conj H4 (conj H5 H6))))
    as (k' & Hl & Hst & Hboth & _).
  exists k'. split; [exact Hl|]. split; [exact Hst | exact Hboth].
Defined.

(** X17 at operator A's submission of the worked session, made on a view
    polled before any key row existed. *)
Lemma submission_without_polled_row_witness :
  (is_Some (session demo_operator_a)
   ∧ keyAuth demo_operator_a = None
   ∧ userRole demo_operator_a = Some operator_a
   ∧ String.length (operatorAKey demo_operator_a) = 8)
  ∧ ∃ fresh,
      key_authorizations (keySubmission demo_diagnosed demo_operator_a 13000%Z)
      = (key_authorizations demo_diagnosed ++ [fresh])%list
      ∧ k_status fresh = pending.
Proof.
  assert (H1 : is_Some (session demo_operator_a))
    by (vm_compute; eexists; reflexivity).
  assert (H2 : keyAuth demo_operator_a = None) by (vm_compute; reflexivity).
  assert (H3 : userRole demo_operator_a = Some operator_a)
    by (vm_compute; reflexivity).
  assert (H4 : String.length (operatorAKey demo_operator_a) = 8)
    by (vm_compute; reflexivity).
  split.
  { split; [exact H1|]. split; [exact H2|]. split; [exact H3 | exact H4]. }
  destruct (submission_without_polled_row demo_diagnosed demo_operator_a
              13000%Z H1 H2 (or_introl (conj H3 H4)))
    as (fresh & Hk & _ & Hst & _).
  exists fresh. split; [exact Hk | exact Hst].
Defined.

(** X18 at operator B's completion check of the worked session. *)
Lemma completion_check_repeats_witness :
  (latest_key_authorization demo_b_submitted (sessionId demo_operator_b)
   = Some demo_key_row
   ∧ both_authenticated demo_key_row)
  ∧ session_events
      (completionTimer (completionTimer demo_b_submitted demo_operator_b)
         demo_operator_b)
    = (session_events demo_b_submitted
       ++ [completion_event (next_id demo_b_submitted) demo_operator_b;
           completion_event (S (next_id demo_b_submitted))
             demo_operator_b])%list.
Proof.
  assert (H1 : latest_key_authorization demo_b_submitted
                 (sessionId demo_operator_b) = Some demo_key_row)
    by (vm_compute; reflexivity).
  assert (H2 : both_authenticated demo_key_row) by compute_done.
  split; [split; [exact H1 | exact H2]|].
  destruct (completion_check_repeats demo_b_submitted demo_operator_b
              demo_key_row H1 H2) as (_ & _ & _ & He).
  exact He.
Defined.

(** X19 at the instructor's INITIALIZE SYSTEM of the worked session. *)
Lemma controls_follow_steps_witness :
  (training_sessions demo_joined !! 0 = Some demo_row_created
   ∧ s_id demo_row_created = sessionId demo_instructor
   ∧ session demo_instructor = Some demo_row_created)
  ∧ ∃ s', training_sessions (press demo_joined demo_instructor
                               InitializeButton) !! 0 = Some s'
          ∧ s_status s' = active ∧ current_step s' = 1.
Proof.
  assert (H1 : training_sessions demo_joined !! 0 = Some demo_row_created)
    by (vm_compute; reflexivity).
  assert (H2 : s_id demo_row_created = sessionId demo_instructor)
    by (vm_compute; reflexivity).
  assert (H3 : session demo_instructor = Some demo_row_created)
    by (vm_compute; reflexivity).
  split; [split; [exact H1 | split; [exact H2 | exact H3]]|].
  destruct (controls_follow_steps demo_joined demo_instructor 0
              demo_row_created demo_row_created H1 H2 H3) as [Hinit _].
  destruct Hinit as (s' & Hs' & Hst & Hstep & _);
    [vm_compute; reflexivity|].
  exists s'. split; [exact Hs'|]. split; [exact Hst | exact Hstep].
Defined.


(** X22 after the three joins. *)
Lemma sessions_stay_joinable_witness :
  reachable demo_joined
  ∧ loadActiveSessions demo_joined
    = take 10 (reverse (training_sessions demo_joined)).
Proof.
  assert (H : reachable demo_joined) by (exists demo_ops; reflexivity).
  split; [exact H|].
  destruct (sessions_stay_joinable demo_joined H) as (_ & _ & Hl).
  exact Hl.
Defined.

(** X23 after both operators have submitted. *)
Lemma key_rows_well_shaped_witness :
  reachable demo_b_submitted
  ∧ Forall key_row_shape (key_authorizations demo_b_submitted).
Proof.
  assert (H : reachable demo_b_submitted).
  { exists demo_ops_b_submitted. vm_compute. reflexivity. }
  split; [exact H|]. exact (key_rows_well_shaped demo_b_submitted H).
Defined.
